(** * calcalt.c: recursive update procedure for fractal landscapes

    A shallow embedding of [src/calcalt.c] and the properties of the strip
    generator that its specification states.

    Modelling conventions.
    - [Height] and [Length] are floating-point numbers: a finite value, an
      infinity or NaN.  The finite values are exact rationals ([Qc]), so
      rounding, and overflow in additions and products of finite values,
      are outside the model; the values that are not finite come from the
      parameters, from [pow], [sqrt] and [gaussian], and from operations
      on them, which follow IEEE 754 (zero has no sign).
    - [int] has 32 bits and is a mathematical integer ([Z]) in its range.
      The only [int] operation that can leave the range is the shift
      [1 << n], which is undefined behaviour for [n < 0] and for
      [n >= 31]; so strips have levels from 0 to 30.  [malloc] does not
      fail: the [exit(1)] branches never fire.
    - Strips and folds live in two stores indexed by locations; a C pointer
      is an [option loc], [None] being [NULL].  [malloc] returns a location
      that is not allocated at the time of the call, and the cells of a
      fresh block hold indeterminate values.
    - The functions are written in a state-and-failure monad: a run either
      returns, or stops in [printf; exit(code)], or has undefined behaviour,
      or exhausts the recursion fuel.
    - The Gaussian source is a sequence of samples; the state counts how
      many have been drawn.
    - The state also carries an observation trace (which fold each
      [next_strip] call was made on, and the strip levels handed to each
      kernel).  Nothing reads the trace: it only serves to state
      properties about the calls made.
    - [free] removes a block from its store.  A later [free] of the same
      pointer, or an access through it, finds no block there and is
      undefined behaviour.  A location that has been freed may be
      allocated again.
 *)

From Stdlib Require Import ZArith QArith Qcanon Lia.
From stdpp Require Import gmap list strings.

Local Open Scope Z_scope.

(** ** Data model *)

(** [Height] and [Length]: a finite value, an infinity or NaN. *)
Inductive Height : Type :=
| Fin (q : Qc)
| PInf
| NInf
| NaN.
Abbreviation Length := Height (only parsing).

Coercion Fin : Qc >-> Height.

(** [x] is a finite value. *)
Definition finite (x : Height) : Prop := exists q, x = Fin q.

(** The product of an infinity ([PInf] when [pos] holds, [NInf]
    otherwise) and a finite value. *)
Definition inf_times (pos : bool) (q : Qc) : Height :=
  match (0 ?= q)%Qc with
  | Eq => NaN
  | Lt => if pos then PInf else NInf
  | Gt => if pos then NInf else PInf
  end.

Definition hadd (x y : Height) : Height :=
  match x, y with
  | NaN, _ | _, NaN => NaN
  | Fin a, Fin b => Fin (a + b)
  | PInf, NInf | NInf, PInf => NaN
  | PInf, _ | _, PInf => PInf
  | NInf, _ | _, NInf => NInf
  end.

Definition hmul (x y : Height) : Height :=
  match x, y with
  | NaN, _ | _, NaN => NaN
  | Fin a, Fin b => Fin (a * b)
  | PInf, Fin b | Fin b, PInf => inf_times true b
  | NInf, Fin b | Fin b, NInf => inf_times false b
  | PInf, PInf | NInf, NInf => PInf
  | PInf, NInf | NInf, PInf => NInf
  end.

Definition hdiv (x y : Height) : Height :=
  match x, y with
  | NaN, _ | _, NaN => NaN
  | Fin a, Fin b =>
      match (0 ?= b)%Qc with
      | Eq => match (0 ?= a)%Qc with Eq => NaN | Lt => PInf | Gt => NInf end
      | _ => Fin (a / b)
      end
  | Fin _, _ => Fin 0
  | PInf, Fin b => match (0 ?= b)%Qc with Gt => NInf | _ => PInf end
  | NInf, Fin b => match (0 ?= b)%Qc with Gt => PInf | _ => NInf end
  | _, _ => NaN
  end.

Declare Scope height_scope.
Delimit Scope height_scope with H.
Bind Scope height_scope with Height.
Notation "x + y" := (hadd x y) : height_scope.
Notation "x * y" := (hmul x y) : height_scope.
Notation "x / y" := (hdiv x y) : height_scope.

(** Heap locations; a pointer is an [option loc]. *)
Abbreviation loc := positive (only parsing).
Abbreviation ptr := (option positive) (only parsing).

(** [struct strip { int level; Height *d; }] *)
Record Strip : Type := mkStrip {
  s_level : Z;
  s_d : list Height
}.

(** [struct fold], with the strip slots and the link to the next fold as
    pointers. *)
Record Fold : Type := mkFold {
  f_level : Z;
  f_state : Z;
  f_smooth : Z;
  f_mean : Height;
  f_scale : Length;
  f_midscale : Length;
  f_new : ptr;
  f_working : ptr;
  f_regen : ptr;
  f_old : ptr;
  f_next : ptr
}.

(** Modelled from the spec: the header [crinkle.h] with the two state
    constants is not part of the sources.  [make_fold] stores [0] in
    [state] and the first call of [next_strip] on a new fold runs the
    [START] case, so [START] is [0]; [STORE] is the other state. *)
Definition START : Z := 0.
Definition STORE : Z := 1.

(** Observation trace. *)
Inductive event : Type :=
| EvNextStrip (fold : ptr)
| EvSideUpdate (caller : Z) (strip : option Z)
| EvMidUpdate (caller : Z) (left new right : option Z)
| EvRecalc (caller : Z) (left regen right : option Z).

Record state : Type := mkState {
  strips : gmap loc Strip;
  folds : gmap loc Fold;
  draws : nat;
  trace : list event
}.

Definition empty_state : state := mkState ∅ ∅ 0%nat [].

(** What the program takes from its environment: [pow] and [sqrt] of the
    C library, the sequence of Gaussian samples, and the contents of
    freshly allocated cells. *)
Class Env : Type := mkEnv {
  pow : Height -> Height -> Height;
  sqrt : Height -> Height;
  noise : nat -> Height;
  indeterminate : loc -> nat -> Height
}.

(** ** The monad *)

Inductive outcome (A : Type) : Type :=
| Ok (a : A) (st : state)
| Fatal (msg : string) (code : Z) (st : state)
| Undefined
| OutOfFuel.
Arguments Ok {A} a st.
Arguments Fatal {A} msg code st.
Arguments Undefined {A}.
Arguments OutOfFuel {A}.

Definition M (A : Type) : Type := state -> outcome A.

Definition ret {A : Type} (a : A) : M A := fun st => Ok a st.

Definition bind {A B : Type} (m : M A) (k : A -> M B) : M B :=
  fun st =>
    match m st with
    | Ok a st' => k a st'
    | Fatal msg code st' => Fatal msg code st'
    | Undefined => Undefined
    | OutOfFuel => OutOfFuel
    end.

Notation "x <- m ;; k" := (bind m (fun x => k))
  (at level 100, m at next level, right associativity, only parsing).
Notation "m ;;; k" := (bind m (fun _ => k))
  (at level 100, right associativity, only parsing).

Definition undefined {A : Type} : M A := fun _ => Undefined.
Definition out_of_fuel {A : Type} : M A := fun _ => OutOfFuel.

(** The messages of the program, each ending in a newline. *)
Definition newline : string := String (Ascii.ascii_of_nat 10) EmptyString.
Definition msg_sizes : string := "mid_update: inconsistant sizes" +:+ newline.
Definition msg_state : string := "next_strip: invalid state" +:+ newline.

(** [printf(msg); exit(code);] *)
Definition fatal {A : Type} (msg : string) (code : Z) : M A :=
  fun st => Fatal msg code st.

Definition emit (e : event) : M unit :=
  fun st => Ok tt (mkState (strips st) (folds st) (draws st) (e :: trace st)).

(** ** Memory *)

Definition set_strips (h : gmap loc Strip) (st : state) : state :=
  mkState h (folds st) (draws st) (trace st).

Definition set_folds (h : gmap loc Fold) (st : state) : state :=
  mkState (strips st) h (draws st) (trace st).

(** Dereferencing a strip pointer. *)
Definition get_strip (p : ptr) : M Strip :=
  fun st =>
    match p with
    | Some l => match strips st !! l with
                | Some s => Ok s st
                | None => Undefined
                end
    | None => Undefined
    end.

(** The level of the strip behind a pointer, for the trace only. *)
Definition peek_level (p : ptr) (st : state) : option Z :=
  l ← p; s ← strips st !! l; Some (s_level s).

Definition peek {A : Type} (f : state -> A) : M A := fun st => Ok (f st) st.

(** [p->d[i]] as an rvalue. *)
Definition load (p : ptr) (i : nat) : M Height :=
  s <- get_strip p ;;
  match s_d s !! i with
  | Some v => ret v
  | None => undefined
  end.

(** [p->d[i] = v] *)
Definition store (p : ptr) (i : nat) (v : Height) : M unit :=
  fun st =>
    match p with
    | Some l =>
        match strips st !! l with
        | Some s =>
            if decide (i < length (s_d s))%nat
            then Ok tt (set_strips (<[l := mkStrip (s_level s) (<[i := v]> (s_d s))]> (strips st)) st)
            else Undefined
        | None => Undefined
        end
    | None => Undefined
    end.

Definition get_fold (p : ptr) : M Fold :=
  fun st =>
    match p with
    | Some l => match folds st !! l with
                | Some f => Ok f st
                | None => Undefined
                end
    | None => Undefined
    end.

(** A write to one field of [*p]. *)
Definition upd_fold (p : ptr) (g : Fold -> Fold) : M unit :=
  fun st =>
    match p with
    | Some l => match folds st !! l with
                | Some f => Ok tt (set_folds (<[l := g f]> (folds st)) st)
                | None => Undefined
                end
    | None => Undefined
    end.

Definition with_state (v : Z) (f : Fold) : Fold :=
  mkFold (f_level f) v (f_smooth f) (f_mean f) (f_scale f) (f_midscale f)
         (f_new f) (f_working f) (f_regen f) (f_old f) (f_next f).
Definition with_new (v : ptr) (f : Fold) : Fold :=
  mkFold (f_level f) (f_state f) (f_smooth f) (f_mean f) (f_scale f) (f_midscale f)
         v (f_working f) (f_regen f) (f_old f) (f_next f).
Definition with_working (v : ptr) (f : Fold) : Fold :=
  mkFold (f_level f) (f_state f) (f_smooth f) (f_mean f) (f_scale f) (f_midscale f)
         (f_new f) v (f_regen f) (f_old f) (f_next f).
Definition with_regen (v : ptr) (f : Fold) : Fold :=
  mkFold (f_level f) (f_state f) (f_smooth f) (f_mean f) (f_scale f) (f_midscale f)
         (f_new f) (f_working f) v (f_old f) (f_next f).
Definition with_old (v : ptr) (f : Fold) : Fold :=
  mkFold (f_level f) (f_state f) (f_smooth f) (f_mean f) (f_scale f) (f_midscale f)
         (f_new f) (f_working f) (f_regen f) v (f_next f).
Definition with_next (v : ptr) (f : Fold) : Fold :=
  mkFold (f_level f) (f_state f) (f_smooth f) (f_mean f) (f_scale f) (f_midscale f)
         (f_new f) (f_working f) (f_regen f) (f_old f) v.

(** [int] has 32 bits. *)
Definition int_width : Z := 32.
Definition int_max : Z := 2 ^ (int_width - 1) - 1.

(** [1 << n] on [int]: undefined behaviour when [n] is negative or at
    least the width of [int], and when [2^n] is not an [int]. *)
Definition shl1 (n : Z) : M Z :=
  if decide (0 <= n < int_width /\ 2 ^ n <= int_max) then ret (2 ^ n) else undefined.

(** The floating-point literals [2.0], [3.0] and [4.0]. *)
Definition two : Height := Fin (1 + 1).
Definition three : Height := Fin (1 + 1 + 1).
Definition four : Height := Fin (1 + 1 + 1 + 1).

Section Program.
Context {E : Env}.

(** [gaussian()]: the next sample of the source. *)
Definition gaussian : M Height :=
  fun st => Ok (noise (draws st))
               (mkState (strips st) (folds st) (S (draws st)) (trace st)).

(** ** Strips *)

(** [Strip *make_strip(int level)] *)
Definition make_strip (level : Z) : M ptr :=
  fun st =>
    let p := fresh (dom (strips st)) in
    (pw <- shl1 level ;;
     let points := pw + 1 in
     fun st' =>
       Ok (Some p)
          (set_strips (<[p := mkStrip level (indeterminate p <$> seq 0 (Z.to_nat points))]>
                         (strips st')) st')) st.

(** [void free_strip(Strip *p)] *)
Definition free_strip (p : ptr) : M unit :=
  fun st =>
    match p with
    | Some l => match strips st !! l with
                | Some _ => Ok tt (set_strips (delete l (strips st)) st)
                | None => Undefined
                end
    | None => Undefined
    end.

(** The loop of [double_strip]; [a] and [b] are the offsets of the two
    cursors into [s->d] and [p->d]. *)
Fixpoint double_loop (count : nat) (s p : ptr) (a b : nat) : M (nat * nat) :=
  match count with
  | O => ret (a, b)
  | S k =>
      v <- load s a ;;
      store p b v ;;;
      store p (b + 1) (Fin 0) ;;;
      double_loop k s p (a + 1) (b + 2)
  end.

(** [Strip *double_strip(Strip *s)].  The loop bound [1 << s->level] is
    evaluated once: no statement of the loop writes a level. *)
Definition double_strip (s : ptr) : M ptr :=
  s0 <- get_strip s ;;
  p <- make_strip (s_level s0 + 1) ;;
  count <- shl1 (s_level s0) ;;
  ab <- double_loop (Z.to_nat count) s p 0 0 ;;
  v <- load s (fst ab) ;;
  store p (snd ab) v ;;;
  ret p.

Fixpoint set_loop (count : nat) (s : ptr) (h : nat) (value : Height) : M unit :=
  match count with
  | O => ret tt
  | S k => store s h value ;;; set_loop k s (h + 1) value
  end.

(** [Strip *set_strip(int level, Height value)] *)
Definition set_strip (level : Z) (value : Height) : M ptr :=
  s <- make_strip level ;;
  pw <- shl1 level ;;
  set_loop (Z.to_nat (pw + 1)) s 0 value ;;;
  ret s.

(** ** Update kernels *)

Fixpoint side_loop (count : nat) (strip : ptr) (p : nat) (scale : Length) : M unit :=
  match count with
  | O => ret tt
  | S k =>
      g <- gaussian ;;
      x0 <- load strip p ;;
      x2 <- load strip (p + 2) ;;
      store strip (p + 1) (scale * g + (x0 + x2) / two)%H ;;;
      side_loop k strip (p + 2) scale
  end.

(** [void side_update(Strip *strip, Length scale)] *)
Definition side_update (strip : ptr) (scale : Length) : M unit :=
  s <- get_strip strip ;;
  count <- shl1 (s_level s - 1) ;;
  side_loop (Z.to_nat count) strip 0 scale.

Fixpoint mid_loop (count : nat) (left new right : ptr) (l n r : nat)
    (scale midscale : Length) : M (nat * nat * nat) :=
  match count with
  | O => ret (l, n, r)
  | S k =>
      g <- gaussian ;;
      l0 <- load left l ;;
      r0 <- load right r ;;
      store new n (scale * g + (l0 + r0) / two)%H ;;;
      g' <- gaussian ;;
      l0' <- load left l ;;
      l1 <- load left (l + 1) ;;
      r0' <- load right r ;;
      r2 <- load right (r + 2) ;;
      store new (n + 1) (midscale * g' + (l0' + l1 + r0' + r2) / four)%H ;;;
      mid_loop k left new right (l + 1) (n + 2) (r + 2) scale midscale
  end.

(** [void mid_update(Strip *left, Strip *new, Strip *right, Length scale,
    Length midscale)].  The [||] of the guard does not read [right->level]
    when its first operand holds. *)
Definition mid_update (left new right : ptr) (scale midscale : Length) : M unit :=
  sl <- get_strip left ;;
  sn <- get_strip new ;;
  bad <- (if decide (s_level sl ≠ s_level sn - 1) then ret true
          else sr <- get_strip right ;;
               ret (bool_decide (s_level sn ≠ s_level sr))) ;;
  if (bad : bool) then fatal msg_sizes 2
  else
    count <- shl1 (s_level sl) ;;
    c <- mid_loop (Z.to_nat count) left new right 0 0 0 scale midscale ;;
    let '(l, n, r) := c in
    g <- gaussian ;;
    l0 <- load left l ;;
    r0 <- load right r ;;
    store new n (scale * g + (l0 + r0) / two)%H.

Fixpoint recalc_loop (count : nat) (left regen right : ptr) (l g r : nat)
    (scale : Length) : M (nat * nat * nat) :=
  match count with
  | O => ret (l, g, r)
  | S k =>
      x <- gaussian ;;
      l0 <- load left l ;;
      g1 <- load regen (g + 1) ;;
      gm <- load regen (g - 1) ;;
      r0 <- load right r ;;
      store regen g (scale * x + (l0 + g1 + gm + r0) / four)%H ;;;
      recalc_loop k left regen right (l + 2) (g + 2) (r + 2) scale
  end.

(** [void recalc(Strip *left, Strip *regen, Strip *right, Length scale)];
    its message names [mid_update], as in the source. *)
Definition recalc (left regen right : ptr) (scale : Length) : M unit :=
  sl <- get_strip left ;;
  sg <- get_strip regen ;;
  bad <- (if decide (s_level sl ≠ s_level sg) then ret true
          else sr <- get_strip right ;;
               ret (bool_decide (s_level sg ≠ s_level sr))) ;;
  if (bad : bool) then fatal msg_sizes 2
  else
    pw <- shl1 (s_level sg - 1) ;;
    let count := pw - 1 in
    x <- gaussian ;;
    l0 <- load left 0 ;;
    g1 <- load regen 1 ;;
    r0 <- load right 0 ;;
    store regen 0 (scale * x + (l0 + g1 + r0) / three)%H ;;;
    c <- recalc_loop (Z.to_nat count) left regen right 2 2 2 scale ;;
    let '(l, g, r) := c in
    x' <- gaussian ;;
    l0' <- load left l ;;
    gm <- load regen (g - 1) ;;
    r0' <- load right r ;;
    store regen g (scale * x' + (l0' + gm + r0') / three)%H.

(** ** The generator *)

(** [Strip *next_strip(Fold *fold)].  The recursion follows the [next]
    pointers, so it is bounded by [fuel]. *)
Fixpoint next_strip_rec (fuel : nat) (fold : ptr) : M ptr :=
  match fuel with
  | O => out_of_fuel
  | S k =>
      emit (EvNextStrip fold) ;;;
      f <- get_fold fold ;;
      if decide (f_level f = 0) then
        result <- make_strip 0 ;;
        g0 <- gaussian ;;
        store result 0 (f_mean f + f_scale f * g0)%H ;;;
        g1 <- gaussian ;;
        store result 1 (f_mean f + f_scale f * g1)%H ;;;
        ret result
      else if decide (f_state f = START) then
        r <- next_strip_rec k (f_next f) ;;
        upd_fold fold (with_new r) ;;;
        f1 <- get_fold fold ;;
        lv <- peek (peek_level (f_regen f1)) ;;
        emit (EvSideUpdate (f_level f1) lv) ;;;
        side_update (f_regen f1) (f_scale f1) ;;;
        w <- make_strip (f_level f1) ;;
        upd_fold fold (with_working w) ;;;
        f2 <- get_fold fold ;;
        ll <- peek (peek_level (f_new f2)) ;;
        ln <- peek (peek_level (f_working f2)) ;;
        lr <- peek (peek_level (f_regen f2)) ;;
        emit (EvMidUpdate (f_level f2) ll ln lr) ;;;
        mid_update (f_new f2) (f_working f2) (f_regen f2) (f_scale f2) (f_midscale f2) ;;;
        (if decide (f_smooth f2 ≠ 0) then
           ll' <- peek (peek_level (f_working f2)) ;;
           lg' <- peek (peek_level (f_regen f2)) ;;
           lr' <- peek (peek_level (f_old f2)) ;;
           emit (EvRecalc (f_level f2) ll' lg' lr') ;;;
           recalc (f_working f2) (f_regen f2) (f_old f2) (f_scale f2)
         else ret tt) ;;;
        let result := f_old f2 in
        upd_fold fold (with_state STORE) ;;;
        ret result
      else if decide (f_state f = STORE) then
        let result := f_regen f in
        upd_fold fold (with_old (f_working f)) ;;;
        upd_fold fold (with_working None) ;;;
        f1 <- get_fold fold ;;
        d <- double_strip (f_new f1) ;;
        upd_fold fold (with_regen d) ;;;
        f2 <- get_fold fold ;;
        free_strip (f_new f2) ;;;
        upd_fold fold (with_new None) ;;;
        upd_fold fold (with_state START) ;;;
        ret result
      else fatal msg_state 3
  end.

(** Enough fuel for a chain of [level + 1] folds. *)
Definition fuel_for (fold : ptr) (st : state) : nat :=
  match fold ≫= (fun l => folds st !! l) with
  | Some f => S (Z.to_nat (f_level f))
  | None => 1
  end.

Definition next_strip (fold : ptr) : M ptr :=
  fun st => next_strip_rec (fuel_for fold st) fold st.

(** [Fold *make_fold(int levels, int smooth, Length length, Height start,
    Height mean, float fdim)].  The fold is entered in the store with the
    fields assigned before the [if]; [regen], [old] and [next] are
    assigned in its branches. *)
Fixpoint make_fold_rec (fuel : nat) (levels smooth : Z) (len : Length)
    (start mean : Height) (fdim : Height) : M ptr :=
  match fuel with
  | O => out_of_fuel
  | S k =>
      fun st =>
        let p := fresh (dom (folds st)) in
        let root2 := sqrt two in
        let scale := pow len (two * fdim)%H in
        let midscale := pow (len * root2)%H (two * fdim)%H in
        let f := mkFold levels 0 smooth mean scale midscale None None None None None in
        ((if decide (levels ≠ 0) then
            regen <- set_strip levels start ;;
            upd_fold (Some p) (with_regen regen) ;;;
            old <- set_strip levels start ;;
            upd_fold (Some p) (with_old old) ;;;
            next <- make_fold_rec k (levels - 1) smooth (two * len)%H start mean fdim ;;
            upd_fold (Some p) (with_next next)
          else
            upd_fold (Some p) (with_regen None) ;;;
            upd_fold (Some p) (with_old None) ;;;
            upd_fold (Some p) (with_next None)) ;;;
         ret (Some p)) (set_folds (<[p := f]> (folds st)) st)
  end.

Definition make_fold (levels smooth : Z) (len : Length) (start mean : Height)
    (fdim : Height) : M ptr :=
  make_fold_rec (S (Z.to_nat levels)) levels smooth len start mean fdim.

(** A driver: [n] successive calls of [next_strip] on one fold.  Each
    strip is read when it is returned; the result lists the returned
    pointers with the strips read, first call first. *)
Fixpoint next_strips (n : nat) (fold : ptr) : M (list (ptr * Strip)) :=
  match n with
  | O => ret []
  | S k =>
      r <- next_strip fold ;;
      s <- get_strip r ;;
      rs <- next_strips k fold ;;
      ret ((r, s) :: rs)
  end.

(** ** Giving the memory back *)

(** [free(f)] on a fold; [free(NULL)] does nothing. *)
Definition free_block (f : ptr) : M unit :=
  fun st =>
    match f with
    | Some l => match folds st !! l with
                | Some _ => Ok tt (set_folds (delete l (folds st)) st)
                | None => Undefined
                end
    | None => Ok tt st
    end.

(** [void free_fold(Fold *f)].  Each [if] reads its slot of [*f].  The
    recursion follows the [next] pointers, so it is bounded by [fuel]. *)
Fixpoint free_fold_rec (fuel : nat) (f : ptr) : M unit :=
  match fuel with
  | O => out_of_fuel
  | S k =>
      f1 <- get_fold f ;;
      (if decide (f_new f1 ≠ None) then free_strip (f_new f1) else ret tt) ;;;
      f2 <- get_fold f ;;
      (if decide (f_working f2 ≠ None) then free_strip (f_working f2) else ret tt) ;;;
      f3 <- get_fold f ;;
      (if decide (f_regen f3 ≠ None) then free_strip (f_regen f3) else ret tt) ;;;
      f4 <- get_fold f ;;
      (if decide (f_old f4 ≠ None) then free_strip (f_old f4) else ret tt) ;;;
      f5 <- get_fold f ;;
      (if decide (f_next f5 ≠ None) then free_fold_rec k (f_next f5) else ret tt) ;;;
      free_block f
  end.

(** No fold is freed before the calls below it return, so a run that
    nests more calls than the store has folds is on a fold for the
    second time: the fuel below is enough for every run that ends. *)
Definition free_fold (f : ptr) : M unit :=
  fun st => free_fold_rec (S (size (folds st))) f st.

(** A driver: one call of [next_strip] for each element of [frees]; the
    caller frees the returned strip at once where the element is [true]
    and keeps it otherwise.  The result lists the returned pointers,
    first call first. *)
Fixpoint next_strips_freeing (frees : list bool) (fold : ptr) : M (list ptr) :=
  match frees with
  | [] => ret []
  | b :: bs =>
      r <- next_strip fold ;;
      (if (b : bool) then free_strip r else ret tt) ;;;
      rs <- next_strips_freeing bs fold ;;
      ret (r :: rs)
  end.

End Program.


Local Close Scope Z_scope.

(** * Vocabulary of the specification *)

(** ** The loops as list functions

    Each loop of the program writes one strip; what it leaves there is
    given by a function on the data of the strips involved.  [count] and
    the offsets are those of the loop, [n0] is the number of samples drawn
    before it. *)

Fixpoint set_list (count h : nat) (v : Height) (d : list Height) : list Height :=
  match count with
  | O => d
  | S k => set_list k (h + 1) v (<[h := v]> d)
  end.

(** The cell [i] of strip data (0 outside the strip). *)
Definition cell (d : list Height) (i : nat) : Height := default (Fin 0) (d !! i).

Fixpoint double_list (count a b : nat) (sd pd : list Height) : list Height :=
  match count with
  | O => pd
  | S k => double_list k (a + 1) (b + 2) sd (<[b + 1 := Fin 0]> (<[b := cell sd a]> pd))
  end.

Section Data.
Context {E : Env}.

(** The data of the strip that [double_strip] builds from [sd]. *)
Definition doubled (p : loc) (n : nat) (sd : list Height) : list Height :=
  <[2 * 2 ^ n := cell sd (2 ^ n)]>
    (double_list (2 ^ n) 0 0 sd (indeterminate p <$> seq 0 (2 ^ S n + 1))).

Fixpoint side_list (count p : nat) (scale : Length) (n0 : nat) (d : list Height)
    : list Height :=
  match count with
  | O => d
  | S k =>
      side_list k (p + 2) scale (S n0)
        (<[p + 1 := (scale * noise n0 + (cell d p + cell d (p + 2)) / two)%H]> d)
  end.

Fixpoint mid_list (count l n r : nat) (scale midscale : Length) (n0 : nat)
    (ld rd nd : list Height) : list Height :=
  match count with
  | O => nd
  | S k =>
      mid_list k (l + 1) (n + 2) (r + 2) scale midscale (S (S n0)) ld rd
        (<[n + 1 := (midscale * noise (S n0) +
                     (cell ld l + cell ld (l + 1) + cell rd r + cell rd (r + 2)) / four)%H]>
           (<[n := (scale * noise n0 + (cell ld l + cell rd r) / two)%H]> nd))
  end.

(** The data [mid_update] leaves in [new]: the loop, then "the last one". *)
Definition mid_data (n : nat) (scale midscale : Length) (n0 : nat)
    (ld rd nd : list Height) : list Height :=
  <[2 * 2 ^ n := (scale * noise (n0 + 2 * 2 ^ n) +
                  (cell ld (2 ^ n) + cell rd (2 * 2 ^ n)) / two)%H]>
    (mid_list (2 ^ n) 0 0 0 scale midscale n0 ld rd nd).

Fixpoint recalc_list (count l g r : nat) (scale : Length) (n0 : nat)
    (ld rd gd : list Height) : list Height :=
  match count with
  | O => gd
  | S k =>
      recalc_list k (l + 2) (g + 2) (r + 2) scale (S n0) ld rd
        (<[g := (scale * noise n0 +
                 (cell ld l + cell gd (g + 1) + cell gd (g - 1) + cell rd r) / four)%H]> gd)
  end.

(** The data [recalc] leaves in [regen]: the first entry, the loop, then
    "the last one". *)
Definition recalc_data (n : nat) (scale : Length) (n0 : nat)
    (ld rd gd : list Height) : list Height :=
  let g1 := <[0 := (scale * noise n0 + (cell ld 0 + cell gd 1 + cell rd 0) / three)%H]> gd in
  let g2 := recalc_list (2 ^ n - 1) 2 2 2 scale (S n0) ld rd g1 in
  <[2 * 2 ^ n := (scale * noise (n0 + 2 ^ n) +
                  (cell ld (2 * 2 ^ n) + cell g2 (2 * 2 ^ n - 1) + cell rd (2 * 2 ^ n)) / three)%H]>
    g2.

(** The Gaussian source returns 0 at every draw. *)
Definition quiet : Prop := forall k, noise k = Fin 0.

End Data.

(** ** Strips and chains of folds *)

(** Every entry is [m]; every entry of even index is [m]. *)
Definition flat (m : Height) (d : list Height) : Prop :=
  forall i x, d !! i = Some x -> x = m.

Definition flat_even (m : Height) (d : list Height) : Prop :=
  forall i x, d !! (2 * i) = Some x -> x = m.

(** The size invariant of a strip of level [n]. *)
Definition sized (n : nat) (s : Strip) : Prop :=
  s_level s = Z.of_nat n /\ length (s_d s) = 2 ^ n + 1.

(** Every strip of the store has the size its level asks for. *)
Definition heap_ok (hs : gmap positive Strip) : Prop :=
  forall x s, hs !! x = Some s -> exists n, sized n s.

(** A property of strip data that is required only when a target height
    is given. *)
Definition holds (fl : option Height) (P : Height -> list Height -> Prop)
    (d : list Height) : Prop :=
  forall m, fl = Some m -> P m d.

(** [x] is a strip of level [n] of the store, of the right size; its
    level is one that [make_strip] builds. *)
Definition strip_at (hs : gmap positive Strip) (fl : option Height)
    (P : Height -> list Height -> Prop) (n : nat) (x : positive) : Prop :=
  exists s, hs !! x = Some s /\ sized n s /\ holds fl P (s_d s) /\ n <= 30.

(** A fold that aims at the height given, if one is: its mean is that
    height and its two scales are finite. *)
Definition aimed (fl : option Height) (f : Fold) : Prop :=
  forall m, fl = Some m -> f_mean f = m /\ finite (f_scale f) /\ finite (f_midscale f).

(** [chain fl n p fp hs fs]: [p] heads a chain of folds of levels
    [n, ..., 0], and [fp] lists the strips the chain owns.  In state
    [START] a fold owns [regen] (even entries final) and [old]; in state
    [STORE] it owns [regen], [working] and [new], while [old] still points
    to the strip it has handed out. *)
Fixpoint chain (fl : option Height) (n : nat) (p : positive) (fp : list positive)
    (hs : gmap positive Strip) (fs : gmap positive Fold) : Prop :=
  exists f, fs !! p = Some f /\ f_level f = Z.of_nat n /\
    aimed fl f /\
    match n with
    | O => fp = [] /\ f_next f = None
    | S k =>
        exists q fq, f_next f = Some q /\ chain fl k q fq hs fs /\
          ((f_state f = START /\
            exists r o, f_regen f = Some r /\ f_old f = Some o /\ fp = r :: o :: fq /\
              strip_at hs fl flat_even (S k) r /\ strip_at hs fl flat (S k) o)
           \/
           (f_state f = STORE /\
            exists r w nw, f_regen f = Some r /\ f_working f = Some w /\
              f_new f = Some nw /\ fp = r :: w :: nw :: fq /\
              strip_at hs fl flat (S k) r /\ strip_at hs fl flat (S k) w /\
              strip_at hs fl flat k nw))
    end.

(** ** Traces *)

Global Instance event_eq_dec : EqDecision event.
Proof. solve_decision. Defined.

(** How many times [next_strip] was entered on [fold]. *)
Definition calls_on (fold : option positive) (evs : list event) : nat :=
  length (filter (fun e => e = EvNextStrip fold) evs).

(** The kernel preconditions, read off an event: [side_update] on a strip
    of the caller's level, which is at least 1; [mid_update] on levels
    (L-1, L, L); [recalc] on levels (L, L, L). *)
Definition kernel_ok (e : event) : Prop :=
  match e with
  | EvNextStrip fold => is_Some fold
  | EvSideUpdate c (Some l) => (l = c /\ 1 <= l)%Z
  | EvMidUpdate c (Some l) (Some n) (Some r) => (l = c - 1 /\ n = c /\ r = c)%Z
  | EvRecalc c (Some l) (Some g) (Some r) => (l = c /\ g = c /\ r = c)%Z
  | _ => False
  end.

(** The fold [i] links below [p]. *)
Fixpoint nth_next (fs : gmap positive Fold) (i : nat) (p : positive) : option positive :=
  match i with
  | O => Some p
  | S k =>
      match fs !! p with
      | Some f => match f_next f with
                  | Some q => nth_next fs k q
                  | None => None
                  end
      | None => None
      end
  end.

(** Whether the next call on a fold runs the [START] case. *)
Definition is_start (f : Fold) : bool := bool_decide (f_state f = START).

(** [b] after [c] calls. *)
Definition flipn (c : nat) (b : bool) : bool := Nat.iter c negb b.

(** What [m] successive calls on a fold add, in order, to the calls on the
    fold ([q]) and on its next fold ([q']): a [START] call enters the next
    fold once, a [STORE] call does not, and the two alternate. *)
Fixpoint pat (q q' : event) (b : bool) (m : nat) : list event :=
  match m with
  | O => []
  | S k => if b then q :: q' :: pat q q' false k else q :: pat q q' true k
  end.

(** The events [q] and [q'] of a trace, oldest first. *)
Definition call_events (q q' : event) (evs : list event) : list event :=
  filter (fun e => e = q \/ e = q') (reverse evs).

(** How often [e] occurs. *)
Definition occurrences (e : event) (evs : list event) : nat :=
  length (filter (fun x => x = e) evs).

(** [w] starts with the event [e]. *)
Definition starts_with (e : event) (w : list event) : Prop :=
  exists w', w = e :: w'.

(** What a call on [p] does on the folds of its chain: the [next]
    pointers stay, and for each fold [q] of the chain above level 0, with
    [c] the number of calls made on it, the calls on [q] and on its next
    fold are those of [c] successive calls, and its state has flipped [c]
    times. *)
Definition chain_calls (p : positive) (fs fs' : gmap positive Fold) (evs : list event)
    : Prop :=
  (forall i, nth_next fs' i p = nth_next fs i p) /\
  forall i q fq,
    nth_next fs i p = Some q -> fs !! q = Some fq -> (0 < f_level fq)%Z ->
    exists fq' c,
      fs' !! q = Some fq' /\ f_next fq' = f_next fq /\ f_level fq' = f_level fq /\
      calls_on (Some q) evs = c /\
      call_events (EvNextStrip (Some q)) (EvNextStrip (f_next fq)) evs =
        pat (EvNextStrip (Some q)) (EvNextStrip (f_next fq)) (is_start fq) c /\
      is_start fq' = flipn c (is_start fq).

(** ** One call of [next_strip] *)

(** What a call changes in its fold.  [level], [smooth], [mean], [scale],
    [midscale] and [next] stay; at level 0 nothing changes; above, [START]
    hands out [old] and keeps pointing to it, [STORE] hands out [regen] and
    moves [working] into [old]. *)
Definition fold_step (n : nat) (f f' : Fold) (r : positive) : Prop :=
  f_level f' = f_level f /\ f_smooth f' = f_smooth f /\ f_mean f' = f_mean f /\
  f_scale f' = f_scale f /\ f_midscale f' = f_midscale f /\ f_next f' = f_next f /\
  match n with
  | O => f' = f
  | S _ =>
      (f_state f = START /\ f_state f' = STORE /\ f_old f = Some r /\ f_old f' = Some r)
      \/
      (f_state f = STORE /\ f_state f' = START /\ f_regen f = Some r /\
       f_old f' = f_working f)
  end.

(** What a call on a fold of level [n] adds to the trace. *)
Definition events_ok (n : nat) (p : positive) (f : Fold) (fs : gmap positive Fold)
    (evs : list event) : Prop :=
  Forall kernel_ok evs /\
  calls_on (Some p) evs = 1 /\
  (forall x, EvNextStrip (Some x) ∈ evs ->
     exists fx, fs !! x = Some fx /\ (f_level fx <= Z.of_nat n)%Z) /\
  match n with
  | O => evs = [EvNextStrip (Some p)]
  | S _ => calls_on (f_next f) evs = if decide (f_state f = START) then 1 else 0
  end.

(** What a call on the head [p] of a chain of level [n] with footprint
    [fp] does: it returns a strip [r] of level [n] which the chain no
    longer owns; the chain is again well formed, on a footprint made of
    old footprint and new locations; strips outside the footprint and
    folds above level [n] are as they were. *)
Definition next_post (fl : option Height) (n : nat) (p : positive) (fp : list positive)
    (hs : gmap positive Strip) (fs : gmap positive Fold) (t : list event)
    (o : outcome (option positive)) : Prop :=
  exists r hs' fs' k' evs fp' f f' s,
    o = Ok (Some r) (mkState hs' fs' k' (evs ++ t)) /\
    chain fl n p fp' hs' fs' /\ NoDup (r :: fp') /\ heap_ok hs' /\
    hs' !! r = Some s /\ sized n s /\ holds fl flat (s_d s) /\
    (r ∈ fp \/ hs !! r = None) /\
    (forall x, x ∈ fp' -> x ∈ fp \/ hs !! x = None) /\
    (forall x sx, hs !! x = Some sx -> x ∉ fp -> hs' !! x = Some sx) /\
    (forall x fx, fs !! x = Some fx -> (Z.of_nat n < f_level fx)%Z -> fs' !! x = Some fx) /\
    events_ok n p f fs evs /\
    fs !! p = Some f /\ fs' !! p = Some f' /\ fold_step n f f' r /\
    chain_calls p fs fs' evs.

(** ** Statements *)

(** The size invariant: a strip of level [L] has [2^L + 1] entries. *)
Definition size_invariant (s : Strip) : Prop :=
  (0 <= s_level s)%Z /\ length (s_d s) = Z.to_nat (2 ^ s_level s + 1).

(** Every strip of the store satisfies the size invariant. *)
Definition strips_ok (st : state) : Prop :=
  forall l s, strips st !! l = Some s -> size_invariant s.

(** A function of the rationals as a function of the floating-point
    numbers: finite on finite arguments. *)
Definition lift1 (f : Qc -> Qc) (x : Height) : Height :=
  match x with
  | Fin a => Fin (f a)
  | _ => NaN
  end.

Definition lift2 (f : Qc -> Qc -> Qc) (x y : Height) : Height :=
  match x, y with
  | Fin a, Fin b => Fin (f a b)
  | _, _ => NaN
  end.

(** The environment with the Gaussian source replaced by the constant 0,
    [pow] and [sqrt] with finite values on finite arguments, and finite
    values in fresh memory. *)
Definition zero_noise (pw : Qc -> Qc -> Qc) (sq : Qc -> Qc) (ind : positive -> nat -> Qc)
    : Env :=
  mkEnv (lift2 pw) (lift1 sq) (fun _ => Fin 0) (fun p i => Fin (ind p i)).


(** An environment with the Gaussian source fixed at 0. *)
Definition plain_env : Env :=
  zero_noise (fun _ _ => 1%Qc) (fun _ => 1%Qc) (fun _ _ => 0%Qc).

(** A store with a level-0 strip at 1 and level-1 strips at 2 and 3, and a
    fold of level 0 at 1. *)
Definition demo_state : state :=
  mkState
    (<[3%positive := mkStrip 1 [Fin 1; Fin 0; Fin 1]]>
       (<[2%positive := mkStrip 1 [Fin 0; Fin 0; Fin 0]]>
          (<[1%positive := mkStrip 0 [Fin 1; Fin 0]]> ∅)))
    (<[1%positive := mkFold 0 0 0 (Fin 1) (Fin 1) (Fin 1) None None None None None]> ∅)
    0 [].

(** ** Ownership of strips *)

(** The strips the folds of a chain of level [n] hold as their own:
    [regen] and [old] in state [START]; [regen], [working] and [new]
    otherwise; none at level 0. *)
Fixpoint footprint (n : nat) (fs : gmap positive Fold) (p : positive) : list positive :=
  match n with
  | O => []
  | S k =>
      match fs !! p with
      | Some f =>
          (if decide (f_state f = START) then omap id [f_regen f; f_old f]
           else omap id [f_regen f; f_working f; f_new f]) ++
          match f_next f with
          | Some q => footprint k fs q
          | None => []
          end
      | None => []
      end
  end.

(** No fold of the chain holds a strip in a slot that is not its own: at
    level 0 the four slots are [NULL], and in state [START] so are [new]
    and [working]. *)
Definition tidy (fs : gmap positive Fold) (p : positive) : Prop :=
  forall i q fq, nth_next fs i p = Some q -> fs !! q = Some fq ->
    (f_level fq = 0%Z ->
     f_new fq = None /\ f_working fq = None /\ f_regen fq = None /\ f_old fq = None) /\
    (f_level fq <> 0%Z -> f_state fq = START -> f_new fq = None /\ f_working fq = None).

(** Where a fold and the fold below it are both in state [STORE], [new]
    of the upper one and [old] of the lower one are the same strip. *)
Definition linked (fs : gmap positive Fold) (p : positive) : Prop :=
  forall i q fq c fc,
    nth_next fs i p = Some q -> fs !! q = Some fq ->
    f_next fq = Some c -> fs !! c = Some fc -> (0 < f_level fc)%Z ->
    f_state fq = STORE -> f_state fc = STORE -> f_new fq = f_old fc.

(** The returned strips that the caller has kept. *)
Fixpoint kept (frees : list bool) (rs : list ptr) : list positive :=
  match frees, rs with
  | b :: bs, r :: rs' =>
      (if (b : bool) then [] else omap id [r]) ++ kept bs rs'
  | _, _ => []
  end.

(** The length that [make_fold] is given [i] links below the first: the
    length of the side doubles at each link. *)
Definition side_length (i : nat) (len : Length) : Length :=
  Nat.iter i (fun l => two * l)%H len.

(** The scales that [make_fold] computes for the folds of a chain of
    level [n] are finite. *)
Definition finite_scales {E : Env} (n : nat) (len : Length) (fdim : Height) : Prop :=
  forall i, i <= n ->
    finite (pow (side_length i len) (two * fdim)%H) /\
    finite (pow (side_length i len * sqrt two)%H (two * fdim)%H).

(** The fold that [make_fold] builds [i] links below the first, for
    [levels = n]. *)
Definition made_fold {E : Env} (n i : nat) (smooth : Z) (len : Length)
    (start mean fdim : Height) (hs : gmap positive Strip) (f : Fold) : Prop :=
  f_level f = Z.of_nat (n - i) /\ f_state f = START /\ f_smooth f = smooth /\
  f_mean f = mean /\
  f_scale f = pow (side_length i len) (two * fdim)%H /\
  f_midscale f = pow (side_length i len * sqrt two)%H (two * fdim)%H /\
  f_new f = None /\ f_working f = None /\
  if decide (i = n) then f_regen f = None /\ f_old f = None /\ f_next f = None
  else
    exists r o,
      f_regen f = Some r /\ f_old f = Some o /\ r <> o /\
      hs !! r = Some (mkStrip (Z.of_nat (n - i)) (replicate (2 ^ (n - i) + 1) start)) /\
      hs !! o = Some (mkStrip (Z.of_nat (n - i)) (replicate (2 ^ (n - i) + 1) start)).

(** The number of samples a call on the head [p] of a chain of level [n]
    draws: 2 at level 0; none in state [STORE]; in state [START] what the
    call on the next fold draws, [2^(n-1)] for [side_update],
    [2^n + 1] for [mid_update] and, with smoothing, [2^(n-1) + 1] for
    [recalc]. *)
Fixpoint call_draws (n : nat) (fs : gmap positive Fold) (p : positive) : nat :=
  match n with
  | O => 2
  | S j =>
      match fs !! p with
      | Some f =>
          if decide (f_state f = START) then
            match f_next f with
            | Some q => call_draws j fs q
            | None => 0
            end + 2 ^ j + (2 * 2 ^ j + 1) +
            (if decide (f_smooth f ≠ 0%Z) then 2 ^ j + 1 else 0)
          else 0
      | None => 0
      end
  end.

(** Memory accounting for a call on the head [p] of a chain of level [n]:
    a strip of the store after the call is owned by the chain, or is the
    returned strip, or was in the store and not owned by the chain before
    the call; folds outside the chain are as they were; a [START] call
    does not touch the strip it returns. *)
Definition acct_post (n : nat) (p : positive) (hs : gmap positive Strip)
    (fs : gmap positive Fold) (k : nat) (o : outcome ptr) : Prop :=
  exists r hs' fs' k' t',
    o = Ok (Some r) (mkState hs' fs' k' t') /\
    (forall x, is_Some (hs' !! x) ->
       x ∈ footprint n fs' p \/ x = r \/ ((x ∉ footprint n fs p) /\ is_Some (hs !! x))) /\
    (forall x, (forall i, nth_next fs i p <> Some x) -> fs' !! x = fs !! x) /\
    (tidy fs p -> tidy fs' p) /\
    (linked fs p -> linked fs' p) /\
    (forall f, fs !! p = Some f -> f_level f <> 0%Z -> f_state f = START ->
               hs' !! r = hs !! r) /\
    k' = k + call_draws n fs p.

(** The environment [E] with other contents of fresh memory. *)
Definition with_indeterminate (E : Env) (ind : positive -> nat -> Height) : Env :=
  mkEnv pow sqrt noise ind.

(** * Reasoning about runs *)

Lemma bind_Ok {A B : Type} (m : M A) (k : A -> M B) st a st' :
  m st = Ok a st' -> bind m k st = k a st'.
Proof. intros H. unfold bind. now rewrite H. Qed.

Lemma bind_Fatal {A B : Type} (m : M A) (k : A -> M B) st msg code st' :
  m st = Fatal msg code st' -> bind m k st = Fatal msg code st'.
Proof. intros H. unfold bind. now rewrite H. Qed.

Lemma bind_Undefined {A B : Type} (m : M A) (k : A -> M B) st :
  m st = Undefined -> bind m k st = Undefined.
Proof. intros H. unfold bind. now rewrite H. Qed.

Lemma Ok_eq {A : Type} (a a' : A) hs hs' fs n n' t :
  a = a' -> hs = hs' -> n = n' ->
  Ok a (mkState hs fs n t) = Ok a' (mkState hs' fs n' t).
Proof. now intros -> -> ->. Qed.

(** Two runs that differ only in how their counters are written. *)
Ltac run_eq :=
  apply Ok_eq;
  [ first [reflexivity | repeat (apply (f_equal2 pair)); lia]
  | first [reflexivity | idtac]
  | first [reflexivity | lia] ].

(** Arithmetic on strip sizes, with [2 ^ S n] written [2 * 2 ^ n]. *)
Ltac pow_lia :=
  cbn [s_d s_level length] in *; rewrite ?Nat.pow_succ_r' in *; lia.

(** One step of a run: rewrite [bind m k st] with the result of [m st],
    which is proved first. *)
Ltac mstep := erewrite bind_Ok; cycle 1.

Lemma get_strip_ok hs fs n t l s :
  hs !! l = Some s ->
  get_strip (Some l) (mkState hs fs n t) = Ok s (mkState hs fs n t).
Proof. intros H. unfold get_strip. simpl. now rewrite H. Qed.

Lemma load_ok hs fs n t l s i v :
  hs !! l = Some s -> s_d s !! i = Some v ->
  load (Some l) i (mkState hs fs n t) = Ok v (mkState hs fs n t).
Proof.
  intros H Hi. unfold load.
  rewrite (bind_Ok _ _ _ _ _ (get_strip_ok hs fs n t l s H)).
  now rewrite Hi.
Qed.

Lemma store_ok hs fs n t l s i v :
  hs !! l = Some s -> i < length (s_d s) ->
  store (Some l) i v (mkState hs fs n t) =
  Ok tt (mkState (<[l := mkStrip (s_level s) (<[i := v]> (s_d s))]> hs) fs n t).
Proof.
  intros H Hi. unfold store. simpl. rewrite H.
  destruct (decide (i < length (s_d s))); [reflexivity | lia].
Qed.

Lemma get_fold_ok hs fs n t l f :
  fs !! l = Some f ->
  get_fold (Some l) (mkState hs fs n t) = Ok f (mkState hs fs n t).
Proof. intros H. unfold get_fold. simpl. now rewrite H. Qed.

Lemma upd_fold_ok hs fs n t l f g :
  fs !! l = Some f ->
  upd_fold (Some l) g (mkState hs fs n t) = Ok tt (mkState hs (<[l := g f]> fs) n t).
Proof. intros H. unfold upd_fold. simpl. now rewrite H. Qed.

Lemma shl1_ok (z : Z) st : (0 <= z <= 30)%Z -> shl1 z st = Ok (2 ^ z)%Z st.
Proof.
  intros H. unfold shl1, int_max, int_width.
  destruct (decide _) as [_|Hn]; [reflexivity|].
  exfalso. apply Hn. split; [lia|].
  change (2 ^ (32 - 1) - 1)%Z with (2 ^ 30 + (2 ^ 30 - 1))%Z.
  assert (2 ^ z <= 2 ^ 30)%Z by (apply Z.pow_le_mono_r; lia). lia.
Qed.

Lemma shl1_neg (z : Z) st : (z < 0)%Z -> shl1 z st = Undefined.
Proof. intros H. unfold shl1. destruct (decide _) as [[Hz _]|_]; [lia | reflexivity]. Qed.

Lemma shl1_big (z : Z) st : (31 <= z)%Z -> shl1 z st = Undefined.
Proof.
  intros H. unfold shl1, int_max, int_width.
  destruct (decide _) as [[_ Hz]|_]; [|reflexivity].
  exfalso.
  assert (2 ^ 31 <= 2 ^ z)%Z by (apply Z.pow_le_mono_r; lia).
  change (2 ^ (32 - 1))%Z with (2 ^ 31)%Z in Hz. lia.
Qed.

(** Sizes: [2^n] and [2^n + 1] as numbers of cells. *)
Lemma pow2_to_nat (n : nat) : Z.to_nat (2 ^ Z.of_nat n) = 2 ^ n.
Proof.
  rewrite <- (Nat2Z.id (2 ^ n)). f_equal.
  rewrite Nat2Z.inj_pow. reflexivity.
Qed.

Lemma points_to_nat (n : nat) : Z.to_nat (2 ^ Z.of_nat n + 1) = 2 ^ n + 1.
Proof.
  rewrite Z2Nat.inj_add by (try apply Z.pow_nonneg; lia).
  rewrite pow2_to_nat. reflexivity.
Qed.

(** ** The loops as list functions *)

Lemma set_list_length count : forall h v d, length (set_list count h v d) = length d.
Proof.
  induction count as [|k IH]; intros h v d; simpl; [reflexivity|].
  rewrite IH. apply length_insert.
Qed.

Lemma set_list_lookup count : forall h v d i,
  h + count <= length d ->
  set_list count h v d !! i =
  if decide (h <= i < h + count) then Some v else d !! i.
Proof.
  induction count as [|k IH]; intros h v d i Hb; simpl.
  - destruct (decide _); [lia | reflexivity].
  - rewrite IH by (rewrite length_insert; lia).
    destruct (decide (h + 1 <= i < h + 1 + k)), (decide (h <= i < h + S k)); try lia.
    + reflexivity.
    + destruct (decide (i = h)) as [->|].
      * apply list_lookup_insert_eq. lia.
      * lia.
    + apply list_lookup_insert_ne. lia.
Qed.

Lemma set_list_all (v : Height) (d : list Height) :
  set_list (length d) 0 v d = replicate (length d) v.
Proof.
  apply list_eq. intros i.
  rewrite set_list_lookup by lia.
  destruct (decide (0 <= i < 0 + length d)) as [Hi|Hi].
  - symmetry. apply lookup_replicate. split; [reflexivity | lia].
  - rewrite lookup_ge_None_2 by lia.
    symmetry. apply lookup_ge_None_2. rewrite length_replicate. lia.
Qed.

Lemma set_loop_ok count : forall h v l L d hs fs n t,
  hs !! l = Some (mkStrip L d) -> h + count <= length d ->
  set_loop count (Some l) h v (mkState hs fs n t) =
  Ok tt (mkState (<[l := mkStrip L (set_list count h v d)]> hs) fs n t).
Proof.
  induction count as [|k IH]; intros h v l L d hs fs n t Hl Hb; simpl.
  - unfold ret. now rewrite insert_id.
  - mstep. { eapply store_ok; [exact Hl | simpl; lia]. }
    simpl. erewrite IH.
    + now rewrite insert_insert_eq.
    + apply lookup_insert_eq.
    + rewrite length_insert. lia.
Qed.

Lemma lookup_cell (d : list Height) i : i < length d -> d !! i = Some (cell d i).
Proof.
  intros H. unfold cell.
  destruct (d !! i) eqn:Hd; [reflexivity|].
  apply lookup_ge_None_1 in Hd. lia.
Qed.

Lemma double_list_length count : forall a b sd pd,
  length (double_list count a b sd pd) = length pd.
Proof.
  induction count as [|k IH]; intros a b sd pd; simpl; [reflexivity|].
  rewrite IH. now rewrite !length_insert.
Qed.

Lemma double_list_outside count : forall a b sd pd j,
  j < b \/ b + 2 * count <= j ->
  double_list count a b sd pd !! j = pd !! j.
Proof.
  induction count as [|k IH]; intros a b sd pd j Hj; simpl; [reflexivity|].
  rewrite IH by lia.
  rewrite !list_lookup_insert_ne by lia. reflexivity.
Qed.

Lemma double_list_even count : forall a b sd pd i,
  b + 2 * count <= length pd -> i < count ->
  double_list count a b sd pd !! (b + 2 * i) = Some (cell sd (a + i)).
Proof.
  induction count as [|k IH]; intros a b sd pd i Hb Hi; [lia|].
  cbn [double_list].
  destruct i as [|i].
  - rewrite double_list_outside by lia.
    rewrite list_lookup_insert_ne by lia.
    replace (b + 2 * 0) with b by lia. replace (a + 0) with a by lia.
    apply list_lookup_insert_eq. lia.
  - replace (b + 2 * S i) with (b + 2 + 2 * i) by lia.
    replace (a + S i) with (a + 1 + i) by lia.
    apply IH; [|lia]. rewrite !length_insert. lia.
Qed.

Lemma double_list_odd count : forall a b sd pd i,
  b + 2 * count <= length pd -> i < count ->
  double_list count a b sd pd !! (b + 2 * i + 1) = Some (Fin 0).
Proof.
  induction count as [|k IH]; intros a b sd pd i Hb Hi; [lia|].
  cbn [double_list].
  destruct i as [|i].
  - rewrite double_list_outside by lia.
    replace (b + 2 * 0 + 1) with (b + 1) by lia.
    apply list_lookup_insert_eq. rewrite length_insert. lia.
  - replace (b + 2 * S i + 1) with (b + 2 + 2 * i + 1) by lia.
    apply IH; [|lia]. rewrite !length_insert. lia.
Qed.

Lemma double_loop_ok count : forall a b ls lp Ls Lp sd pd hs fs n t,
  ls <> lp ->
  hs !! ls = Some (mkStrip Ls sd) -> hs !! lp = Some (mkStrip Lp pd) ->
  a + count <= length sd -> b + 2 * count <= length pd ->
  double_loop count (Some ls) (Some lp) a b (mkState hs fs n t) =
  Ok (a + count, b + 2 * count)
     (mkState (<[lp := mkStrip Lp (double_list count a b sd pd)]> hs) fs n t).
Proof.
  induction count as [|k IH]; intros a b ls lp Ls Lp sd pd hs fs n t Hne Hs Hp Ha Hb;
    cbn [double_loop double_list].
  - unfold ret. rewrite insert_id by assumption.
    run_eq.
  - mstep. { eapply load_ok; [exact Hs | apply lookup_cell; simpl; lia]. }
    mstep. { eapply store_ok; [exact Hp | simpl; lia]. }
    mstep. { eapply store_ok; [apply lookup_insert_eq | simpl; rewrite length_insert; lia]. }
    cbn [s_level s_d]. rewrite insert_insert_eq.
    erewrite (IH (a + 1) (b + 2) ls lp Ls Lp sd).
    + rewrite insert_insert_eq. run_eq.
    + assumption.
    + rewrite lookup_insert_ne by congruence. exact Hs.
    + apply lookup_insert_eq.
    + lia.
    + rewrite !length_insert. lia.
Qed.

Lemma insert_other {A : Type} (m : gmap positive A) i w x v :
  m !! x = Some v -> m !! i <> Some v -> <[i := w]> m !! x = Some v.
Proof.
  intros Hx Hi. rewrite lookup_insert_ne; [assumption|]. intros ->. contradiction.
Qed.

Lemma fresh_strip_None (hs : gmap loc Strip) : hs !! fresh (dom hs) = None.
Proof. apply not_elem_of_dom. apply is_fresh. Qed.

Lemma fresh_fold_None (fs : gmap loc Fold) : fs !! fresh (dom fs) = None.
Proof. apply not_elem_of_dom. apply is_fresh. Qed.

Section Kernels.
Context {E : Env}.

Lemma gaussian_ok hs fs n t :
  gaussian (mkState hs fs n t) = Ok (noise n) (mkState hs fs (S n) t).
Proof. reflexivity. Qed.

Lemma make_strip_ok (level : Z) hs fs n t :
  (0 <= level <= 30)%Z ->
  make_strip level (mkState hs fs n t) =
  Ok (Some (fresh (dom hs)))
     (mkState (<[fresh (dom hs) :=
                 mkStrip level (indeterminate (fresh (dom hs)) <$>
                                seq 0 (Z.to_nat (2 ^ level + 1)))]> hs) fs n t).
Proof.
  intros H. unfold make_strip. simpl.
  rewrite (bind_Ok _ _ _ _ _ (shl1_ok level _ H)). reflexivity.
Qed.

Lemma make_strip_neg (level : Z) st : (level < 0)%Z -> make_strip level st = Undefined.
Proof.
  intros H. unfold make_strip. apply bind_Undefined. now apply shl1_neg.
Qed.

Lemma make_strip_big (level : Z) st : (31 <= level)%Z -> make_strip level st = Undefined.
Proof.
  intros H. unfold make_strip. apply bind_Undefined. now apply shl1_big.
Qed.

Lemma set_strip_ok (level : Z) (value : Height) hs fs n t :
  (0 <= level <= 30)%Z ->
  set_strip level value (mkState hs fs n t) =
  Ok (Some (fresh (dom hs)))
     (mkState (<[fresh (dom hs) :=
                 mkStrip level (replicate (Z.to_nat (2 ^ level + 1)) value)]> hs) fs n t).
Proof.
  intros H. unfold set_strip.
  mstep. { now apply make_strip_ok. }
  mstep. { now apply shl1_ok. }
  set (d := indeterminate (fresh (dom hs)) <$> seq 0 (Z.to_nat (2 ^ level + 1))).
  assert (Hd : length d = Z.to_nat (2 ^ level + 1))
    by (unfold d; now rewrite length_fmap, length_seq).
  mstep. { eapply (set_loop_ok _ 0 value _ level d); [apply lookup_insert_eq | lia]. }
  unfold ret. rewrite insert_insert_eq.
  rewrite <- Hd at 1. rewrite set_list_all. now rewrite Hd.
Qed.

Lemma set_strip_neg (level : Z) (value : Height) st :
  (level < 0)%Z -> set_strip level value st = Undefined.
Proof.
  intros H. unfold set_strip. apply bind_Undefined. now apply make_strip_neg.
Qed.

Lemma set_strip_big (level : Z) (value : Height) st :
  (31 <= level)%Z -> set_strip level value st = Undefined.
Proof.
  intros H. unfold set_strip. apply bind_Undefined. now apply make_strip_big.
Qed.

Lemma doubled_length p n sd : length (doubled p n sd) = 2 ^ S n + 1.
Proof.
  unfold doubled. rewrite length_insert, double_list_length, length_fmap, length_seq.
  reflexivity.
Qed.

Lemma doubled_even p n sd i :
  length sd = 2 ^ n + 1 -> i <= 2 ^ n -> doubled p n sd !! (2 * i) = sd !! i.
Proof.
  intros Hs Hi. unfold doubled.
  destruct (decide (i = 2 ^ n)) as [->|Hne].
  - rewrite list_lookup_insert_eq.
    + symmetry. apply lookup_cell. lia.
    + rewrite double_list_length, length_fmap, length_seq. simpl. lia.
  - rewrite list_lookup_insert_ne by lia.
    rewrite (double_list_even (2 ^ n) 0 0 sd _ i).
    + symmetry. apply lookup_cell. lia.
    + rewrite length_fmap, length_seq. simpl. lia.
    + lia.
Qed.

Lemma doubled_odd p n sd i :
  i < 2 ^ n -> doubled p n sd !! (2 * i + 1) = Some (Fin 0).
Proof.
  intros Hi. unfold doubled.
  rewrite list_lookup_insert_ne by lia.
  apply (double_list_odd (2 ^ n) 0 0 sd _ i); [|lia].
  rewrite length_fmap, length_seq. simpl. lia.
Qed.

Lemma double_strip_ok (n : nat) ls sd hs fs k t :
  hs !! ls = Some (mkStrip (Z.of_nat n) sd) -> length sd = 2 ^ n + 1 -> n < 30 ->
  double_strip (Some ls) (mkState hs fs k t) =
  Ok (Some (fresh (dom hs)))
     (mkState (<[fresh (dom hs) :=
                 mkStrip (Z.of_nat (S n)) (doubled (fresh (dom hs)) n sd)]> hs) fs k t).
Proof.
  intros Hs Hlen Hb. unfold double_strip.
  mstep. { eapply get_strip_ok. exact Hs. }
  cbn [s_level].
  mstep. { apply make_strip_ok. lia. }
  mstep. { apply shl1_ok. lia. }
  set (lp := fresh (dom hs)).
  assert (Hne : ls <> lp).
  { intros ->. pose proof (fresh_strip_None hs) as Hf. fold lp in Hf. congruence. }
  replace (Z.of_nat n + 1)%Z with (Z.of_nat (S n)) by lia.
  rewrite points_to_nat, pow2_to_nat.
  set (pd := indeterminate lp <$> seq 0 (2 ^ S n + 1)).
  assert (Hpd : length pd = 2 ^ S n + 1) by (unfold pd; now rewrite length_fmap, length_seq).
  mstep.
  { eapply (double_loop_ok (2 ^ n) 0 0 ls lp _ _ sd pd); [exact Hne | | apply lookup_insert_eq | lia | ].
    - rewrite lookup_insert_ne by congruence. exact Hs.
    - rewrite Hpd. simpl. lia. }
  rewrite insert_insert_eq. cbn [fst snd].
  mstep.
  { eapply load_ok.
    - rewrite lookup_insert_ne by congruence. exact Hs.
    - apply lookup_cell. simpl. lia. }
  mstep.
  { eapply store_ok; [apply lookup_insert_eq |].
    simpl. rewrite double_list_length, Hpd. simpl. lia. }
  unfold ret. cbn [s_level s_d]. rewrite insert_insert_eq. reflexivity.
Qed.

(** *** [side_update] *)

Lemma side_list_length count : forall p scale n0 d,
  length (side_list count p scale n0 d) = length d.
Proof.
  induction count as [|k IH]; intros p scale n0 d; cbn [side_list]; [reflexivity|].
  rewrite IH. apply length_insert.
Qed.

Lemma side_list_other count : forall p scale n0 d j,
  (forall i, i < count -> j <> p + 2 * i + 1) ->
  side_list count p scale n0 d !! j = d !! j.
Proof.
  induction count as [|k IH]; intros p scale n0 d j Hj; cbn [side_list]; [reflexivity|].
  rewrite IH.
  - apply list_lookup_insert_ne. specialize (Hj 0). lia.
  - intros i Hi. specialize (Hj (S i)). lia.
Qed.

Lemma cell_insert_ne (d : list Height) i j v : i <> j -> cell (<[i := v]> d) j = cell d j.
Proof. intros H. unfold cell. now rewrite list_lookup_insert_ne. Qed.

Lemma side_list_odd count : forall p scale n0 d i,
  p + 2 * count < length d -> i < count ->
  side_list count p scale n0 d !! (p + 2 * i + 1) =
  Some (scale * noise (n0 + i) + (cell d (p + 2 * i) + cell d (p + 2 * i + 2)) / two)%H.
Proof.
  induction count as [|k IH]; intros p scale n0 d i Hb Hi; [lia|].
  cbn [side_list].
  destruct i as [|i].
  - rewrite side_list_other by (intros; lia).
    replace (p + 2 * 0 + 1) with (p + 1) by lia.
    replace (p + 2 * 0 + 2) with (p + 2) by lia.
    replace (p + 2 * 0) with p by lia. replace (n0 + 0) with n0 by lia.
    apply list_lookup_insert_eq. lia.
  - replace (p + 2 * S i + 1) with (p + 2 + 2 * i + 1) by lia.
    rewrite IH by (rewrite ?length_insert; lia).
    rewrite !cell_insert_ne by lia.
    do 3 f_equal; [f_equal; lia | f_equal; f_equal; lia].
Qed.

Lemma side_loop_ok count : forall p scale l L d hs fs n t,
  hs !! l = Some (mkStrip L d) -> p + 2 * count < length d ->
  side_loop count (Some l) p scale (mkState hs fs n t) =
  Ok tt (mkState (<[l := mkStrip L (side_list count p scale n d)]> hs) fs (n + count) t).
Proof.
  induction count as [|k IH]; intros p scale l L d hs fs n t Hl Hb;
    cbn [side_loop side_list].
  - unfold ret. rewrite insert_id by assumption. run_eq.
  - mstep. { apply gaussian_ok. }
    mstep. { eapply load_ok; [exact Hl | apply lookup_cell; simpl; lia]. }
    mstep. { eapply load_ok; [exact Hl | apply lookup_cell; simpl; lia]. }
    mstep. { eapply store_ok; [exact Hl | simpl; lia]. }
    cbn [s_level s_d]. erewrite IH.
    + rewrite insert_insert_eq. run_eq.
    + apply lookup_insert_eq.
    + rewrite length_insert. lia.
Qed.

Lemma side_update_ok (n : nat) scale l d hs fs k t :
  hs !! l = Some (mkStrip (Z.of_nat (S n)) d) -> length d = 2 ^ S n + 1 -> n <= 30 ->
  side_update (Some l) scale (mkState hs fs k t) =
  Ok tt (mkState (<[l := mkStrip (Z.of_nat (S n)) (side_list (2 ^ n) 0 scale k d)]> hs)
                 fs (k + 2 ^ n) t).
Proof.
  intros Hl Hlen Hb. unfold side_update.
  mstep. { eapply get_strip_ok. exact Hl. }
  cbn [s_level].
  mstep. { apply shl1_ok. lia. }
  replace (Z.of_nat (S n) - 1)%Z with (Z.of_nat n) by lia.
  rewrite pow2_to_nat.
  apply side_loop_ok; [exact Hl |]. pow_lia.
Qed.

(** *** [mid_update] *)

Lemma mid_list_length count : forall l n r scale midscale n0 ld rd nd,
  length (mid_list count l n r scale midscale n0 ld rd nd) = length nd.
Proof.
  induction count as [|k IH]; intros; cbn [mid_list]; [reflexivity|].
  rewrite IH. now rewrite !length_insert.
Qed.

Lemma mid_list_outside count : forall l n r scale midscale n0 ld rd nd j,
  j < n \/ n + 2 * count <= j ->
  mid_list count l n r scale midscale n0 ld rd nd !! j = nd !! j.
Proof.
  induction count as [|k IH]; intros l n r scale midscale n0 ld rd nd j Hj;
    cbn [mid_list]; [reflexivity|].
  rewrite IH by lia.
  rewrite !list_lookup_insert_ne by lia. reflexivity.
Qed.

Lemma mid_list_even count : forall l n r scale midscale n0 ld rd nd i,
  n + 2 * count <= length nd -> i < count ->
  mid_list count l n r scale midscale n0 ld rd nd !! (n + 2 * i) =
  Some (scale * noise (n0 + 2 * i) + (cell ld (l + i) + cell rd (r + 2 * i)) / two)%H.
Proof.
  induction count as [|k IH]; intros l n r scale midscale n0 ld rd nd i Hb Hi; [lia|].
  cbn [mid_list].
  destruct i as [|i].
  - rewrite mid_list_outside by lia.
    rewrite list_lookup_insert_ne by lia.
    replace (n + 2 * 0) with n by lia. replace (n0 + 2 * 0) with n0 by lia.
    replace (l + 0) with l by lia. replace (r + 2 * 0) with r by lia.
    apply list_lookup_insert_eq. lia.
  - replace (n + 2 * S i) with (n + 2 + 2 * i) by lia.
    rewrite IH by (rewrite ?length_insert; lia).
    do 3 f_equal; [f_equal; lia | f_equal; f_equal; lia].
Qed.

Lemma mid_list_odd count : forall l n r scale midscale n0 ld rd nd i,
  n + 2 * count <= length nd -> i < count ->
  mid_list count l n r scale midscale n0 ld rd nd !! (n + 2 * i + 1) =
  Some (midscale * noise (n0 + 2 * i + 1) +
        (cell ld (l + i) + cell ld (l + i + 1) + cell rd (r + 2 * i) +
         cell rd (r + 2 * i + 2)) / four)%H.
Proof.
  induction count as [|k IH]; intros l n r scale midscale n0 ld rd nd i Hb Hi; [lia|].
  cbn [mid_list].
  destruct i as [|i].
  - rewrite mid_list_outside by lia.
    replace (n + 2 * 0 + 1) with (n + 1) by lia.
    replace (n0 + 2 * 0 + 1) with (S n0) by lia.
    replace (l + 0 + 1) with (l + 1) by lia. replace (l + 0) with l by lia.
    replace (r + 2 * 0 + 2) with (r + 2) by lia. replace (r + 2 * 0) with r by lia.
    apply list_lookup_insert_eq. rewrite length_insert. lia.
  - replace (n + 2 * S i + 1) with (n + 2 + 2 * i + 1) by lia.
    rewrite IH by (rewrite ?length_insert; lia).
    do 3 f_equal; [f_equal; lia |].
    f_equal; [f_equal; [f_equal|] |]; f_equal; lia.
Qed.

Lemma mid_loop_ok count : forall l n r scale midscale ll ln lr Ll Ln Lr ld nd rd hs fs k t,
  ll <> ln -> lr <> ln ->
  hs !! ll = Some (mkStrip Ll ld) -> hs !! ln = Some (mkStrip Ln nd) ->
  hs !! lr = Some (mkStrip Lr rd) ->
  l + count < length ld -> r + 2 * count < length rd -> n + 2 * count <= length nd ->
  mid_loop count (Some ll) (Some ln) (Some lr) l n r scale midscale (mkState hs fs k t) =
  Ok (l + count, n + 2 * count, r + 2 * count)
     (mkState (<[ln := mkStrip Ln (mid_list count l n r scale midscale k ld rd nd)]> hs)
              fs (k + 2 * count) t).
Proof.
  induction count as [|c IH];
    intros l n r scale midscale ll ln lr Ll Ln Lr ld nd rd hs fs k t Hln Hrn Hl Hn Hr Bl Br Bn;
    cbn [mid_loop mid_list].
  - unfold ret. rewrite insert_id by assumption. run_eq.
  - assert (Hl' : forall s, <[ln := s]> hs !! ll = Some (mkStrip Ll ld))
      by (intros; rewrite lookup_insert_ne by congruence; exact Hl).
    assert (Hr' : forall s, <[ln := s]> hs !! lr = Some (mkStrip Lr rd))
      by (intros; rewrite lookup_insert_ne by congruence; exact Hr).
    mstep. { apply gaussian_ok. }
    mstep. { eapply load_ok; [exact Hl | apply lookup_cell; simpl; lia]. }
    mstep. { eapply load_ok; [exact Hr | apply lookup_cell; simpl; lia]. }
    mstep. { eapply store_ok; [exact Hn | simpl; lia]. }
    mstep. { apply gaussian_ok. }
    mstep. { eapply load_ok; [apply Hl' | apply lookup_cell; simpl; lia]. }
    mstep. { eapply load_ok; [apply Hl' | apply lookup_cell; simpl; lia]. }
    mstep. { eapply load_ok; [apply Hr' | apply lookup_cell; simpl; lia]. }
    mstep. { eapply load_ok; [apply Hr' | apply lookup_cell; simpl; lia]. }
    mstep. { eapply store_ok; [apply lookup_insert_eq | simpl; rewrite length_insert; lia]. }
    cbn [s_level s_d]. rewrite insert_insert_eq.
    erewrite (IH (l + 1) (n + 2) (r + 2) scale midscale ll ln lr Ll Ln Lr ld _ rd).
    + rewrite insert_insert_eq. run_eq.
    + assumption.
    + assumption.
    + apply Hl'.
    + apply lookup_insert_eq.
    + apply Hr'.
    + lia.
    + lia.
    + rewrite !length_insert. lia.
Qed.

Lemma mid_update_ok (n : nat) scale midscale ll ln lr ld nd rd hs fs k t :
  lr <> ln ->
  hs !! ll = Some (mkStrip (Z.of_nat n) ld) -> length ld = 2 ^ n + 1 ->
  hs !! ln = Some (mkStrip (Z.of_nat (S n)) nd) -> length nd = 2 ^ S n + 1 ->
  hs !! lr = Some (mkStrip (Z.of_nat (S n)) rd) -> length rd = 2 ^ S n + 1 ->
  n <= 30 ->
  mid_update (Some ll) (Some ln) (Some lr) scale midscale (mkState hs fs k t) =
  Ok tt (mkState (<[ln := mkStrip (Z.of_nat (S n)) (mid_data n scale midscale k ld rd nd)]> hs)
                 fs (k + 2 * 2 ^ n + 1) t).
Proof.
  intros Hrn Hl Ll Hn Ln Hr Lr Hb.
  assert (Hln : ll <> ln).
  { intros ->. rewrite Hl in Hn. inversion Hn. lia. }
  unfold mid_update.
  mstep. { eapply get_strip_ok. exact Hl. }
  mstep. { eapply get_strip_ok. exact Hn. }
  cbn [s_level].
  destruct (decide (Z.of_nat n <> (Z.of_nat (S n) - 1)%Z)) as [Hbad|_]; [lia|].
  mstep. { mstep. { eapply get_strip_ok. exact Hr. } reflexivity. }
  cbn [s_level]. rewrite bool_decide_eq_false_2 by (intros Hx; now apply Hx).
  mstep. { apply shl1_ok. lia. }
  rewrite pow2_to_nat.
  mstep.
  { eapply (mid_loop_ok (2 ^ n) 0 0 0 scale midscale ll ln lr); try eassumption; pow_lia. }
  cbn [plus].
  assert (Hl' : forall s, <[ln := s]> hs !! ll = Some (mkStrip (Z.of_nat n) ld))
    by (intros; rewrite lookup_insert_ne by congruence; exact Hl).
  assert (Hr' : forall s, <[ln := s]> hs !! lr = Some (mkStrip (Z.of_nat (S n)) rd))
    by (intros; rewrite lookup_insert_ne by congruence; exact Hr).
  mstep. { apply gaussian_ok. }
  mstep. { eapply load_ok; [apply Hl' | apply lookup_cell; pow_lia]. }
  mstep. { eapply load_ok; [apply Hr' | apply lookup_cell; pow_lia]. }
  erewrite store_ok.
  2: apply lookup_insert_eq.
  2: { cbn [s_d]. rewrite mid_list_length. pow_lia. }
  cbn [s_level s_d]. rewrite insert_insert_eq. unfold mid_data.
  run_eq.
Qed.

(** *** [recalc] *)

Lemma recalc_list_length count : forall l g r scale n0 ld rd gd,
  length (recalc_list count l g r scale n0 ld rd gd) = length gd.
Proof.
  induction count as [|k IH]; intros; cbn [recalc_list]; [reflexivity|].
  rewrite IH. apply length_insert.
Qed.

Lemma recalc_loop_ok count : forall l g r scale ll lg lr Ll Lg Lr ld gd rd hs fs k t,
  ll <> lg -> lr <> lg ->
  hs !! ll = Some (mkStrip Ll ld) -> hs !! lg = Some (mkStrip Lg gd) ->
  hs !! lr = Some (mkStrip Lr rd) ->
  l + 2 * count <= length ld -> r + 2 * count <= length rd ->
  g + 2 * count <= length gd ->
  recalc_loop count (Some ll) (Some lg) (Some lr) l g r scale (mkState hs fs k t) =
  Ok (l + 2 * count, g + 2 * count, r + 2 * count)
     (mkState (<[lg := mkStrip Lg (recalc_list count l g r scale k ld rd gd)]> hs)
              fs (k + count) t).
Proof.
  induction count as [|c IH];
    intros l g r scale ll lg lr Ll Lg Lr ld gd rd hs fs k t Hlg Hrg Hl Hg Hr Bl Br Bg;
    cbn [recalc_loop recalc_list].
  - unfold ret. rewrite insert_id by assumption. run_eq.
  - mstep. { apply gaussian_ok. }
    mstep. { eapply load_ok; [exact Hl | apply lookup_cell; pow_lia]. }
    mstep. { eapply load_ok; [exact Hg | apply lookup_cell; pow_lia]. }
    mstep. { eapply load_ok; [exact Hg | apply lookup_cell; pow_lia]. }
    mstep. { eapply load_ok; [exact Hr | apply lookup_cell; pow_lia]. }
    mstep. { eapply store_ok; [exact Hg | pow_lia]. }
    cbn [s_level s_d].
    erewrite (IH (l + 2) (g + 2) (r + 2) scale ll lg lr Ll Lg Lr ld _ rd).
    + rewrite insert_insert_eq. run_eq.
    + assumption.
    + assumption.
    + rewrite lookup_insert_ne by congruence. exact Hl.
    + apply lookup_insert_eq.
    + rewrite lookup_insert_ne by congruence. exact Hr.
    + lia.
    + lia.
    + rewrite length_insert. lia.
Qed.

Lemma recalc_data_length n scale n0 ld rd gd :
  length (recalc_data n scale n0 ld rd gd) = length gd.
Proof.
  unfold recalc_data. cbv zeta.
  now rewrite length_insert, recalc_list_length, length_insert.
Qed.

Lemma pow2_pos (n : nat) : 1 <= 2 ^ n.
Proof. induction n; simpl; lia. Qed.

Lemma recalc_ok (n : nat) scale ll lg lr ld gd rd hs fs k t :
  ll <> lg -> lr <> lg ->
  hs !! ll = Some (mkStrip (Z.of_nat (S n)) ld) -> length ld = 2 ^ S n + 1 ->
  hs !! lg = Some (mkStrip (Z.of_nat (S n)) gd) -> length gd = 2 ^ S n + 1 ->
  hs !! lr = Some (mkStrip (Z.of_nat (S n)) rd) -> length rd = 2 ^ S n + 1 ->
  n <= 30 ->
  recalc (Some ll) (Some lg) (Some lr) scale (mkState hs fs k t) =
  Ok tt (mkState (<[lg := mkStrip (Z.of_nat (S n)) (recalc_data n scale k ld rd gd)]> hs)
                 fs (k + 2 ^ n + 1) t).
Proof.
  intros Hlg Hrg Hl Ll Hg Lg Hr Lr Hb.
  pose proof (pow2_pos n) as Hpos.
  unfold recalc.
  mstep. { eapply get_strip_ok. exact Hl. }
  mstep. { eapply get_strip_ok. exact Hg. }
  cbn [s_level].
  destruct (decide (Z.of_nat (S n) <> Z.of_nat (S n))) as [Hbad|_]; [congruence|].
  mstep. { mstep. { eapply get_strip_ok. exact Hr. } reflexivity. }
  cbn [s_level]. rewrite bool_decide_eq_false_2 by (intros Hx; now apply Hx).
  mstep. { apply shl1_ok. lia. }
  replace (Z.of_nat (S n) - 1)%Z with (Z.of_nat n) by lia.
  replace (Z.to_nat (2 ^ Z.of_nat n - 1)) with (2 ^ n - 1)
    by (rewrite Z2Nat.inj_sub by lia; now rewrite pow2_to_nat).
  assert (Hl' : forall s, <[lg := s]> hs !! ll = Some (mkStrip (Z.of_nat (S n)) ld))
    by (intros; rewrite lookup_insert_ne by congruence; exact Hl).
  assert (Hr' : forall s, <[lg := s]> hs !! lr = Some (mkStrip (Z.of_nat (S n)) rd))
    by (intros; rewrite lookup_insert_ne by congruence; exact Hr).
  mstep. { apply gaussian_ok. }
  mstep. { eapply load_ok; [exact Hl | apply lookup_cell; pow_lia]. }
  mstep. { eapply load_ok; [exact Hg | apply lookup_cell; pow_lia]. }
  mstep. { eapply load_ok; [exact Hr | apply lookup_cell; pow_lia]. }
  mstep. { eapply store_ok; [exact Hg | pow_lia]. }
  cbn [s_level s_d].
  mstep.
  { eapply (recalc_loop_ok (2 ^ n - 1) 2 2 2 scale ll lg lr);
      [exact Hlg | exact Hrg | apply Hl' | apply lookup_insert_eq | apply Hr' | | | ].
    - pow_lia.
    - pow_lia.
    - rewrite length_insert. pow_lia. }
  rewrite insert_insert_eq.
  replace (2 + 2 * (2 ^ n - 1)) with (2 * 2 ^ n) by lia.
  mstep. { apply gaussian_ok. }
  mstep. { eapply load_ok; [apply Hl' | apply lookup_cell; pow_lia]. }
  mstep.
  { eapply load_ok; [apply lookup_insert_eq |].
    apply lookup_cell. cbn [s_d]. rewrite recalc_list_length, length_insert. pow_lia. }
  mstep. { eapply load_ok; [apply Hr' | apply lookup_cell; pow_lia]. }
  erewrite store_ok.
  2: apply lookup_insert_eq.
  2: { cbn [s_d]. rewrite recalc_list_length, length_insert. pow_lia. }
  cbn [s_level s_d]. rewrite insert_insert_eq. unfold recalc_data. cbv zeta.
  replace (S k + (2 ^ n - 1)) with (k + 2 ^ n) by lia.
  run_eq.
Qed.

(** ** Flat data *)

Lemma flat_flat_even m d : flat m d -> flat_even m d.
Proof. intros H i x. apply H. Qed.

Lemma flat_cell m d i : flat m d -> i < length d -> cell d i = m.
Proof.
  intros H Hi. apply (H i). now apply lookup_cell.
Qed.

Lemma flat_even_cell m d i : flat_even m d -> 2 * i < length d -> cell d (2 * i) = m.
Proof.
  intros H Hi. apply (H i). now apply lookup_cell.
Qed.

Lemma flat_insert m d i : flat m d -> flat m (<[i := m]> d).
Proof.
  intros H j x Hj.
  destruct (decide (i = j)) as [->|Hne].
  - destruct (decide (j < length d)).
    + rewrite list_lookup_insert_eq in Hj by assumption. congruence.
    + rewrite list_insert_ge in Hj by lia. eauto.
  - rewrite list_lookup_insert_ne in Hj by assumption. eauto.
Qed.

Lemma flat_replicate m k : flat m (replicate k m).
Proof. intros i x [-> _]%lookup_replicate. reflexivity. Qed.

(** A finite scale times the sample 0 is 0, and the mean of equal
    values, finite or not, is that value. *)
Lemma avg2 (s m : Height) : finite s -> (s * Fin 0 + (m + m) / two = m)%H.
Proof.
  intros [q ->]. destruct m as [a| | |]; try reflexivity.
  unfold two. cbn [hadd hmul hdiv].
  change (0 ?= 1 + 1)%Qc with Lt. cbn [hadd]. f_equal. field. discriminate.
Qed.

Lemma avg3 (s m : Height) : finite s -> (s * Fin 0 + (m + m + m) / three = m)%H.
Proof.
  intros [q ->]. destruct m as [a| | |]; try reflexivity.
  unfold three. cbn [hadd hmul hdiv].
  change (0 ?= 1 + 1 + 1)%Qc with Lt. cbn [hadd]. f_equal. field. discriminate.
Qed.

Lemma avg4 (s m : Height) : finite s -> (s * Fin 0 + (m + m + m + m) / four = m)%H.
Proof.
  intros [q ->]. destruct m as [a| | |]; try reflexivity.
  unfold four. cbn [hadd hmul hdiv].
  change (0 ?= 1 + 1 + 1 + 1)%Qc with Lt. cbn [hadd]. f_equal. field. discriminate.
Qed.

Lemma flat_even_doubled m p n sd :
  length sd = 2 ^ n + 1 -> flat m sd -> flat_even m (doubled p n sd).
Proof.
  intros Hlen Hf i x Hi.
  assert (Hb : 2 * i < length (doubled p n sd)) by (eapply lookup_lt_Some; eauto).
  rewrite doubled_length in Hb.
  rewrite doubled_even in Hi by pow_lia. eauto.
Qed.

Lemma flat_side_list m n scale n0 d :
  quiet -> finite scale -> length d = 2 ^ S n + 1 -> flat_even m d ->
  flat m (side_list (2 ^ n) 0 scale n0 d).
Proof.
  intros Hq Hsc Hlen Hf j x Hj.
  assert (Hb : j < length d).
  { rewrite <- (side_list_length (2 ^ n) 0 scale n0 d). eapply lookup_lt_Some; eauto. }
  destruct (Nat.Even_or_Odd j) as [[i ->]|[i ->]].
  - rewrite side_list_other in Hj by (intros; lia). eauto.
  - replace (2 * i + 1) with (0 + 2 * i + 1) in Hj by lia.
    rewrite side_list_odd in Hj by pow_lia.
    assert (C0 : cell d (0 + 2 * i) = m)
      by (apply (flat_even_cell m d i Hf); pow_lia).
    assert (C2 : cell d (0 + 2 * i + 2) = m).
    { replace (0 + 2 * i + 2) with (2 * (i + 1)) by lia.
      apply flat_even_cell; [assumption | pow_lia]. }
    rewrite C0, C2, Hq, avg2 in Hj by assumption. congruence.
Qed.

Lemma flat_mid_data m n scale midscale n0 ld rd nd :
  quiet -> finite scale -> finite midscale -> length ld = 2 ^ n + 1 -> length rd = 2 ^ S n + 1 -> length nd = 2 ^ S n + 1 ->
  flat m ld -> flat m rd ->
  flat m (mid_data n scale midscale n0 ld rd nd).
Proof.
  intros Hq Hsc Hmsc Ll Lr Ln Fl Fr j x Hj.
  assert (Hb : j < length nd).
  { apply lookup_lt_Some in Hj. unfold mid_data in Hj.
    now rewrite length_insert, mid_list_length in Hj. }
  unfold mid_data in Hj.
  destruct (decide (j = 2 * 2 ^ n)) as [->|Hne].
  - rewrite list_lookup_insert_eq in Hj by (rewrite mid_list_length; pow_lia).
    injection Hj as <-. rewrite Hq.
    rewrite !(flat_cell m) by (assumption || pow_lia). now apply avg2.
  - rewrite list_lookup_insert_ne in Hj by lia.
    destruct (Nat.Even_or_Odd j) as [[i ->]|[i ->]].
    + replace (2 * i) with (0 + 2 * i) in Hj by lia.
      rewrite mid_list_even in Hj by pow_lia.
      injection Hj as <-. rewrite Hq.
      rewrite !(flat_cell m) by (assumption || pow_lia). now apply avg2.
    + replace (2 * i + 1) with (0 + 2 * i + 1) in Hj by lia.
      rewrite mid_list_odd in Hj by pow_lia.
      injection Hj as <-. rewrite Hq.
      rewrite !(flat_cell m) by (assumption || pow_lia). now apply avg4.
Qed.

Lemma flat_recalc_list m count : forall l g r scale n0 ld rd gd,
  quiet -> finite scale -> 1 <= g ->
  l + 2 * count <= length ld -> r + 2 * count <= length rd -> g + 2 * count <= length gd ->
  flat m ld -> flat m rd -> flat m gd ->
  flat m (recalc_list count l g r scale n0 ld rd gd).
Proof.
  induction count as [|c IH]; intros l g r scale n0 ld rd gd Hq Hsc Hg Bl Br Bg Fl Fr Fg;
    cbn [recalc_list]; [assumption|].
  apply IH; try assumption; try lia.
  - rewrite length_insert. lia.
  - rewrite Hq. rewrite !(flat_cell m) by (assumption || lia).
    rewrite avg4 by assumption. now apply flat_insert.
Qed.

Lemma flat_recalc_data m n scale n0 ld rd gd :
  quiet -> finite scale -> length ld = 2 ^ S n + 1 -> length rd = 2 ^ S n + 1 -> length gd = 2 ^ S n + 1 ->
  flat m ld -> flat m rd -> flat m gd ->
  flat m (recalc_data n scale n0 ld rd gd).
Proof.
  intros Hq Hsc Ll Lr Lg Fl Fr Fg.
  pose proof (pow2_pos n) as Hpos.
  unfold recalc_data. cbv zeta.
  rewrite !Hq.
  rewrite !(flat_cell m ld), !(flat_cell m rd), (flat_cell m gd) by (assumption || pow_lia).
  rewrite avg3 by assumption.
  assert (F2 : flat m (recalc_list (2 ^ n - 1) 2 2 2 scale (S n0) ld rd (<[0 := m]> gd))).
  { apply flat_recalc_list; try assumption; try lia; try pow_lia.
    - rewrite length_insert. pow_lia.
    - now apply flat_insert. }
  rewrite (flat_cell m _ _ F2) by (rewrite recalc_list_length, length_insert; pow_lia).
  rewrite avg3 by assumption. now apply flat_insert.
Qed.

End Kernels.

(** ** Further steps of a run *)

Lemma emit_ok e hs fs n t :
  emit e (mkState hs fs n t) = Ok tt (mkState hs fs n (e :: t)).
Proof. reflexivity. Qed.

Lemma peek_level_ok hs fs n t l s :
  hs !! l = Some s ->
  peek (peek_level (Some l)) (mkState hs fs n t) = Ok (Some (s_level s)) (mkState hs fs n t).
Proof. intros H. unfold peek, peek_level. simpl. now rewrite H. Qed.

Lemma free_strip_ok hs fs n t l s :
  hs !! l = Some s ->
  free_strip (Some l) (mkState hs fs n t) = Ok tt (mkState (delete l hs) fs n t).
Proof. intros H. unfold free_strip. simpl. now rewrite H. Qed.

(** ** Well-formed chains of folds *)

Lemma chain_fold fl n p fp hs fs :
  chain fl n p fp hs fs ->
  exists f, fs !! p = Some f /\ f_level f = Z.of_nat n /\ aimed fl f.
Proof. destruct n; intros (f & H1 & H2 & H3 & _); eauto. Qed.

Lemma strip_at_alloc hs fl P n x : strip_at hs fl P n x -> is_Some (hs !! x).
Proof. intros (s & H & _). eauto. Qed.

Lemma strip_at_frame hs hs' fl P n x :
  hs' !! x = hs !! x -> strip_at hs fl P n x -> strip_at hs' fl P n x.
Proof. intros He (s & H & Hs). exists s. rewrite He. auto. Qed.

Lemma strip_at_bound hs fl P n x : strip_at hs fl P n x -> n <= 30.
Proof. intros (s & _ & _ & _ & H). exact H. Qed.

Lemma chain_alloc fl n : forall p fp hs fs,
  chain fl n p fp hs fs -> forall x, x ∈ fp -> is_Some (hs !! x).
Proof.
  induction n as [|k IH]; intros p fp hs fs (f & _ & _ & _ & H) x Hx.
  - destruct H as [-> _]. inversion Hx.
  - destruct H as (q & fq & _ & Hq & [(_ & r & o & _ & _ & -> & Hr & Ho)
                                     |(_ & r & w & nw & _ & _ & _ & -> & Hr & Hw & Hn)]).
    + rewrite !elem_of_cons in Hx. destruct Hx as [->|[->|Hx]];
        eauto using strip_at_alloc.
    + rewrite !elem_of_cons in Hx. destruct Hx as [->|[->|[->|Hx]]];
        eauto using strip_at_alloc.
Qed.

Lemma chain_frame fl n : forall p fp hs fs hs' fs',
  chain fl n p fp hs fs ->
  (forall x, x ∈ fp -> hs' !! x = hs !! x) ->
  (forall x fx, fs !! x = Some fx -> (f_level fx <= Z.of_nat n)%Z -> fs' !! x = Some fx) ->
  chain fl n p fp hs' fs'.
Proof.
  induction n as [|k IH]; intros p fp hs fs hs' fs' (f & Hf & Hl & Hm & H) Hs Hfs.
  - exists f. split; [apply (Hfs p f Hf); lia | auto].
  - exists f. split; [apply (Hfs p f Hf); lia|]. split; [assumption|]. split; [assumption|].
    destruct H as (q & fq & Hn & Hq & Hcase).
    exists q, fq. split; [assumption|].
    assert (Hsub : forall x, x ∈ fq -> x ∈ fp).
    { intros x Hx.
      destruct Hcase as [(_ & r & o & _ & _ & -> & _)|(_ & r & w & nw & _ & _ & _ & -> & _)];
        rewrite !elem_of_cons; auto. }
    split.
    + apply (IH q fq hs fs); auto.
      intros x fx Hx Hlx. apply (Hfs x fx Hx). lia.
    + destruct Hcase as [(Hst & r & o & Hr & Ho & -> & Sr & So)
                        |(Hst & r & w & nw & Hr & Hw & Hnw & -> & Sr & Sw & Sn)].
      * left. split; [assumption|]. exists r, o. repeat split; auto;
          (eapply strip_at_frame; [|eassumption]); apply Hs; rewrite !elem_of_cons; auto.
      * right. split; [assumption|]. exists r, w, nw. repeat split; auto;
          (eapply strip_at_frame; [|eassumption]); apply Hs; rewrite !elem_of_cons; auto.
Qed.

Lemma heap_ok_insert hs x s n : heap_ok hs -> sized n s -> heap_ok (<[x := s]> hs).
Proof.
  intros H Hs y sy Hy.
  destruct (decide (x = y)) as [->|Hne].
  - rewrite lookup_insert_eq in Hy. injection Hy as <-. eauto.
  - rewrite lookup_insert_ne in Hy by assumption. eauto.
Qed.

Lemma heap_ok_delete hs x : heap_ok hs -> heap_ok (delete x hs).
Proof.
  intros H y sy Hy.
  destruct (decide (x = y)) as [->|Hne].
  - rewrite lookup_delete_eq in Hy. discriminate.
  - rewrite lookup_delete_ne in Hy by assumption. eauto.
Qed.

(** ** The trace of a call *)

Lemma calls_on_app q evs1 evs2 :
  calls_on q (evs1 ++ evs2) = calls_on q evs1 + calls_on q evs2.
Proof. unfold calls_on. now rewrite filter_app, length_app. Qed.

Lemma calls_on_cons_eq q evs : calls_on q (EvNextStrip q :: evs) = S (calls_on q evs).
Proof. unfold calls_on. now rewrite filter_cons_True. Qed.

Lemma calls_on_cons_ne q e evs : e <> EvNextStrip q -> calls_on q (e :: evs) = calls_on q evs.
Proof. intros H. unfold calls_on. now rewrite filter_cons_False. Qed.

(** ** Calls on the folds of a chain *)

Lemma calls_on_occurrences q evs : calls_on q evs = occurrences (EvNextStrip q) evs.
Proof. reflexivity. Qed.

Lemma occurrences_app e l1 l2 : occurrences e (l1 ++ l2) = occurrences e l1 + occurrences e l2.
Proof. unfold occurrences. now rewrite filter_app, length_app. Qed.

Lemma occurrences_cons_eq e l : occurrences e (e :: l) = S (occurrences e l).
Proof. unfold occurrences. now rewrite filter_cons_True. Qed.

Lemma occurrences_cons_ne e x l : x <> e -> occurrences e (x :: l) = occurrences e l.
Proof. intros H. unfold occurrences. now rewrite filter_cons_False. Qed.

Lemma occurrences_reverse e l : occurrences e (reverse l) = occurrences e l.
Proof. unfold occurrences. now rewrite filter_reverse, length_reverse. Qed.

Lemma flipn_S c b : flipn (S c) b = flipn c (negb b).
Proof.
  induction c as [|c IH]; [reflexivity|].
  change (flipn (S (S c)) b) with (negb (flipn (S c) b)).
  rewrite IH. reflexivity.
Qed.

Lemma flipn_add c1 c2 b : flipn (c1 + c2) b = flipn c2 (flipn c1 b).
Proof.
  revert b. induction c1 as [|c IH]; intros b; [reflexivity|].
  replace (S c + c2) with (S (c + c2)) by lia.
  now rewrite !flipn_S, IH.
Qed.

Lemma pat_app q q' c1 : forall b c2,
  pat q q' b (c1 + c2) = pat q q' b c1 ++ pat q q' (flipn c1 b) c2.
Proof.
  induction c1 as [|c IH]; intros b c2; [reflexivity|].
  rewrite flipn_S. cbn [plus pat].
  destruct b; cbn [negb]; rewrite IH; reflexivity.
Qed.

Lemma pat_occurrences_q q q' m : forall b,
  q <> q' -> occurrences q (pat q q' b m) = m.
Proof.
  induction m as [|m IH]; intros b Hne; [reflexivity|].
  cbn [pat]. destruct b.
  - rewrite occurrences_cons_eq, occurrences_cons_ne by congruence. now rewrite IH.
  - rewrite occurrences_cons_eq. now rewrite IH.
Qed.

Lemma pat_occurrences_q' q q' k : forall b,
  q <> q' -> occurrences q' (pat q q' b (2 * k)) = k.
Proof.
  induction k as [|k IH]; intros b Hne; [reflexivity|].
  replace (2 * S k) with (S (S (2 * k))) by lia.
  cbn [pat]. destruct b.
  - rewrite occurrences_cons_ne, occurrences_cons_eq, occurrences_cons_ne by congruence.
    now rewrite IH.
  - rewrite !occurrences_cons_ne by congruence. rewrite occurrences_cons_eq.
    now rewrite IH.
Qed.

(** Cutting the calls where a call on the fold begins cuts between two
    calls. *)
Lemma pat_split q q' m : forall b X Y,
  q <> q' ->
  pat q q' b m = X ++ Y -> (Y = [] \/ starts_with q Y) ->
  exists a, X = pat q q' b a /\ Y = pat q q' (flipn a b) (m - a) /\ a <= m.
Proof.
  induction m as [|m IH]; intros b X Y Hne Heq HY.
  - cbn [pat] in Heq. symmetry in Heq. apply app_eq_nil in Heq as [-> ->].
    exists 0. auto.
  - destruct X as [|x X].
    { exists 0. cbn [app] in Heq. subst Y. split; [reflexivity|].
      split; [reflexivity | lia]. }
    cbn [pat] in Heq. destruct b.
    + injection Heq as <- Heq.
      destruct X as [|x' X].
      { cbn [app] in Heq. subst Y. destruct HY as [HY|[w HY]]; [discriminate|].
        injection HY as HY _. congruence. }
      injection Heq as <- Heq.
      destruct (IH false X Y Hne Heq HY) as (a & -> & -> & Ha).
      exists (S a). rewrite flipn_S. cbn [negb pat]. split; [reflexivity|].
      split; [reflexivity | lia].
    + injection Heq as <- Heq.
      destruct (IH true X Y Hne Heq HY) as (a & -> & -> & Ha).
      exists (S a). rewrite flipn_S. cbn [negb pat]. split; [reflexivity|].
      split; [reflexivity | lia].
Qed.

(** In the calls made by [m] calls on a fold, any window that begins with
    a call on the fold, ends before one (or at the end) and holds [2 * k]
    calls on the fold holds [k] calls on its next fold. *)
Lemma pat_window q q' b m A W B k :
  q <> q' ->
  pat q q' b m = A ++ W ++ B ->
  starts_with q W -> (B = [] \/ starts_with q B) ->
  occurrences q W = 2 * k -> occurrences q' W = k.
Proof.
  intros Hne Heq HW HB Hcount.
  destruct (pat_split q q' m b A (W ++ B) Hne Heq) as (a & _ & Heq2 & _).
  { right. destruct HW as [w ->]. exists (w ++ B). reflexivity. }
  destruct (pat_split q q' (m - a) (flipn a b) W B Hne (eq_sym Heq2) HB) as (c & -> & _ & _).
  rewrite pat_occurrences_q in Hcount by assumption. subst c.
  now apply pat_occurrences_q'.
Qed.

Lemma call_events_app q q' evs2 evs1 :
  call_events q q' (evs2 ++ evs1) = call_events q q' evs1 ++ call_events q q' evs2.
Proof. unfold call_events. now rewrite reverse_app, filter_app. Qed.

Lemma call_events_cons_other q q' e evs :
  e <> q -> e <> q' -> call_events q q' (e :: evs) = call_events q q' evs.
Proof.
  intros H1 H2. unfold call_events. rewrite reverse_cons, filter_app.
  rewrite (filter_cons_False _ e) by tauto. rewrite filter_nil. apply app_nil_r.
Qed.

Lemma call_events_singleton q q' : q <> q' -> call_events q q' [q] = [q].
Proof.
  intros H. unfold call_events. cbn [reverse rev_append].
  rewrite filter_cons_True by tauto. reflexivity.
Qed.

Lemma filter_or_length (q q' : event) (l : list event) :
  q <> q' ->
  length (filter (fun e => e = q \/ e = q') l) = occurrences q l + occurrences q' l.
Proof.
  intros Hne. unfold occurrences. induction l as [|x l IH]; [reflexivity|].
  destruct (decide (x = q)) as [->|Hq].
  - rewrite (filter_cons_True (fun e => e = q \/ e = q')) by tauto.
    rewrite (filter_cons_True (fun y => y = q)) by reflexivity.
    rewrite (filter_cons_False (fun y => y = q')) by assumption.
    cbn [length]. lia.
  - rewrite (filter_cons_False (fun y => y = q)) by assumption.
    destruct (decide (x = q')) as [->|Hq'].
    + rewrite (filter_cons_True (fun e => e = q \/ e = q')) by tauto.
      rewrite (filter_cons_True (fun y => y = q')) by reflexivity.
      cbn [length]. lia.
    + rewrite (filter_cons_False (fun e => e = q \/ e = q')) by tauto.
      rewrite (filter_cons_False (fun y => y = q')) by assumption.
      exact IH.
Qed.

Lemma occurrences_zero e l : occurrences e l = 0 -> e ∉ l.
Proof.
  intros Hx Hin. unfold occurrences in Hx. apply length_zero_iff_nil in Hx.
  eapply filter_nil_not_elem_of; [exact Hx | reflexivity | exact Hin].
Qed.

(** One call on [q'] and none on [q]. *)
Lemma call_events_one q q' evs :
  q <> q' -> occurrences q evs = 0 -> occurrences q' evs = 1 ->
  call_events q q' evs = [q'].
Proof.
  intros Hne H0 H1. unfold call_events.
  assert (Hlen : length (filter (fun e => e = q \/ e = q') (reverse evs)) = 1)
    by (rewrite filter_or_length, !occurrences_reverse by assumption; lia).
  destruct (filter _ (reverse evs)) as [|e [|e' l]] eqn:Hfil; try discriminate.
  f_equal.
  assert (He : e ∈ filter (fun e => e = q \/ e = q') (reverse evs)) by (rewrite Hfil; left).
  apply list_elem_of_filter in He as [[->| ->] Hin]; [|reflexivity].
  exfalso. rewrite elem_of_reverse in Hin. now apply (occurrences_zero q evs).
Qed.

Lemma call_events_skip q q' evs :
  (forall e, e ∈ evs -> e <> q /\ e <> q') -> call_events q q' evs = [].
Proof.
  intros H. unfold call_events.
  destruct (filter _ (reverse evs)) as [|e l] eqn:Hfil; [reflexivity|].
  assert (He : e ∈ filter (fun e => e = q \/ e = q') (reverse evs)) by (rewrite Hfil; left).
  apply list_elem_of_filter in He as [Hor Hin]. rewrite elem_of_reverse in Hin.
  destruct (H e Hin). tauto.
Qed.

Lemma nth_next_top fs p f q i :
  fs !! p = Some f -> f_next f = Some q -> nth_next fs (S i) p = nth_next fs i q.
Proof. intros Hf Hn. cbn [nth_next]. now rewrite Hf, Hn. Qed.

Lemma nth_next_bottom fs p f i :
  fs !! p = Some f -> f_next f = None -> nth_next fs (S i) p = None.
Proof. intros Hf Hn. cbn [nth_next]. now rewrite Hf, Hn. Qed.

Lemma nth_next_snoc fs i : forall p q f x,
  nth_next fs i p = Some q -> fs !! q = Some f -> f_next f = Some x ->
  nth_next fs (S i) p = Some x.
Proof.
  induction i as [|i IH]; intros p q f x Hq Hf Hx.
  - cbn [nth_next] in Hq. injection Hq as ->. cbn [nth_next]. now rewrite Hf, Hx.
  - cbn [nth_next] in Hq. destruct (fs !! p) as [fp|] eqn:Hp; [|discriminate].
    destruct (f_next fp) as [p'|] eqn:Hp'; [|discriminate].
    rewrite (nth_next_top fs p fp p') by assumption. eapply IH; eauto.
Qed.

(** The folds of a chain of level [n]: the fold [i] links below the head
    has level [n - i]. *)
Lemma chain_nth fl n : forall p fp hs fs i q,
  chain fl n p fp hs fs -> nth_next fs i p = Some q ->
  i <= n /\ exists fq, fs !! q = Some fq /\ f_level fq = Z.of_nat (n - i).
Proof.
  induction n as [|k IH]; intros p fp hs fs i q Hch Hq.
  - destruct Hch as (f & Hf & Hl & _ & _ & Hn).
    destruct i as [|i].
    + injection Hq as <-. split; [lia|]. exists f. auto.
    + rewrite (nth_next_bottom fs p f) in Hq by assumption. discriminate.
  - destruct Hch as (f & Hf & Hl & _ & p' & fq & Hn & Hch' & _).
    destruct i as [|i].
    + injection Hq as <-. split; [lia|]. exists f. split; [assumption|].
      rewrite Hl. reflexivity.
    + rewrite (nth_next_top fs p f p') in Hq by assumption.
      destruct (IH p' fq hs fs i q Hch' Hq) as (Hi & fq' & Hfq' & Hlq).
      split; [lia|]. exists fq'. split; [assumption|]. rewrite Hlq. reflexivity.
Qed.

Lemma nth_next_frame fl n : forall p fp hs fs fs',
  chain fl n p fp hs fs ->
  (forall x fx, fs !! x = Some fx -> (f_level fx <= Z.of_nat n)%Z -> fs' !! x = Some fx) ->
  forall i, nth_next fs' i p = nth_next fs i p.
Proof.
  induction n as [|k IH]; intros p fp hs fs fs' Hch Hfr i.
  - destruct Hch as (f & Hf & Hl & _ & _ & Hn).
    destruct i as [|i]; [reflexivity|].
    rewrite (nth_next_bottom fs p f), (nth_next_bottom fs' p f); auto.
    apply Hfr; [assumption | lia].
  - destruct Hch as (f & Hf & Hl & _ & p' & fq & Hn & Hch' & _).
    destruct i as [|i]; [reflexivity|].
    rewrite (nth_next_top fs p f p'), (nth_next_top fs' p f p'); auto.
    + apply (IH p' fq hs fs fs' Hch'). intros x fx Hx Hlx. apply Hfr; [assumption | lia].
    + apply Hfr; [assumption | lia].
Qed.

(** A fold of a chain above level 0 has a next fold, which is another
    fold. *)
Lemma chain_nth_next fl n : forall p fp hs fs i q fq,
  chain fl n p fp hs fs -> nth_next fs i p = Some q -> fs !! q = Some fq ->
  (0 < f_level fq)%Z ->
  exists x, f_next fq = Some x /\ x <> q.
Proof.
  induction n as [|k IH]; intros p fp hs fs i q fq Hch Hq Hfq Hl.
  - destruct Hch as (f & Hf & Hlf & _ & _ & Hn). exfalso.
    destruct i as [|i].
    + injection Hq as <-. rewrite Hf in Hfq. injection Hfq as <-. lia.
    + rewrite (nth_next_bottom fs p f) in Hq by assumption. discriminate.
  - destruct Hch as (f & Hf & Hlf & _ & p' & fq0 & Hn & Hch' & _).
    destruct i as [|i].
    + injection Hq as <-. rewrite Hf in Hfq. injection Hfq as <-.
      exists p'. split; [assumption|]. intros ->.
      destruct (chain_fold _ _ _ _ _ _ Hch') as (f' & Hf' & Hl' & _).
      rewrite Hf in Hf'. injection Hf' as <-. lia.
    + rewrite (nth_next_top fs p f p') in Hq by assumption.
      now apply (IH p' fq0 hs fs i q fq Hch').
Qed.

(** The fold below a fold of a chain is not the fold above the chain. *)
Lemma chain_next_below fl j q1 fq hs fs i q f p fp_ :
  chain fl j q1 fq hs fs -> nth_next fs i q1 = Some q -> fs !! q = Some f ->
  fs !! p = Some fp_ -> f_level fp_ = Z.of_nat (S j) ->
  q <> p /\ f_next f <> Some p.
Proof.
  intros Hch Hq Hf Hp Hl.
  destruct (chain_nth _ _ _ _ _ _ _ _ Hch Hq) as (Hi & f0 & Hf0 & Hl0).
  split.
  - intros ->. rewrite Hp in Hf0. injection Hf0 as <-. lia.
  - intros Hx. pose proof (nth_next_snoc fs i q1 q f p Hq Hf Hx) as Hp'.
    destruct (chain_nth _ _ _ _ _ _ _ _ Hch Hp') as (_ & f1 & Hf1 & Hl1).
    rewrite Hp in Hf1. injection Hf1 as <-. lia.
Qed.

(** ** One call of [next_strip] *)

Ltac fsimpl :=
  cbn [f_level f_state f_smooth f_mean f_scale f_midscale f_new f_working f_regen
       f_old f_next with_state with_new with_working with_regen with_old with_next
       s_level s_d] in *.

Section Generator.
Context {E : Env}.

(** The base case: a fold of level 0. *)
Lemma next_strip_rec_level0 fuel p f hs fs k t :
  fs !! p = Some f -> f_level f = 0%Z ->
  next_strip_rec (S fuel) (Some p) (mkState hs fs k t) =
  Ok (Some (fresh (dom hs)))
     (mkState (<[fresh (dom hs) :=
                 mkStrip 0 [(f_mean f + f_scale f * noise k)%H;
                            (f_mean f + f_scale f * noise (S k))%H]]> hs)
              fs (S (S k)) (EvNextStrip (Some p) :: t)).
Proof.
  intros Hf Hl. cbn [next_strip_rec].
  mstep. { apply emit_ok. }
  mstep. { apply get_fold_ok. exact Hf. }
  destruct (decide (f_level f = 0%Z)) as [_|Hne]; [|contradiction].
  mstep. { apply make_strip_ok. lia. }
  change (Z.to_nat (2 ^ 0 + 1)) with 2. cbn [seq fmap list_fmap].
  mstep. { apply gaussian_ok. }
  mstep. { eapply store_ok; [apply lookup_insert_eq | cbn; lia]. }
  mstep. { apply gaussian_ok. }
  mstep. { eapply store_ok; [apply lookup_insert_eq | cbn; lia]. }
  unfold ret. fsimpl. rewrite !insert_insert_eq. reflexivity.
Qed.

Lemma plus_zero (m s : Height) : finite s -> (m + s * Fin 0 = m)%H.
Proof.
  intros [q ->]. destruct m as [a| | |]; try reflexivity.
  cbn [hadd hmul]. f_equal. ring.
Qed.

Lemma next_post_level0 fl fuel p hs fs k t :
  (fl <> None -> quiet) ->
  chain fl 0 p [] hs fs -> heap_ok hs ->
  next_post fl 0 p [] hs fs t (next_strip_rec (S fuel) (Some p) (mkState hs fs k t)).
Proof.
  intros Hq (f & Hf & Hl & Hm & _ & Hnx) Hok.
  set (r := fresh (dom hs)).
  set (s := mkStrip 0 [(f_mean f + f_scale f * noise k)%H;
                       (f_mean f + f_scale f * noise (S k))%H]).
  assert (Hr : hs !! r = None) by apply fresh_strip_None.
  assert (Hs : sized 0 s) by (split; reflexivity).
  exists r, (<[r := s]> hs), fs, (S (S k)), [EvNextStrip (Some p)], [], f, f, s.
  split; [now apply next_strip_rec_level0|].
  split; [exists f; auto|].
  split; [repeat constructor; apply not_elem_of_nil|].
  split; [now apply (heap_ok_insert _ _ _ 0)|].
  split; [apply lookup_insert_eq|].
  split; [assumption|].
  split.
  { intros m Hfl i x Hi. unfold s in Hi. cbn [s_d] in Hi.
    rewrite !Hq in Hi by congruence.
    destruct (Hm m Hfl) as (Hmean & Hsc & _).
    rewrite !plus_zero, Hmean in Hi by assumption.
    destruct i as [|[|i]]; simpl in Hi;
      [injection Hi as <-; reflexivity | injection Hi as <-; reflexivity | discriminate]. }
  split; [now right|].
  split; [intros x Hx; inversion Hx|].
  split.
  { intros x sx Hx _. rewrite lookup_insert_ne; [assumption|]. intros <-. congruence. }
  split; [auto|].
  split.
  { split; [apply Forall_singleton; simpl; eauto|].
    split; [apply calls_on_cons_eq|].
    split; [|reflexivity].
    intros x Hx. apply list_elem_of_singleton in Hx. injection Hx as ->.
    exists f. split; [assumption | lia]. }
  split; [assumption|]. split; [assumption|].
  split; [repeat split; reflexivity|].
  split; [reflexivity|].
  intros i q fq Hx Hfq Hlq. exfalso. destruct i as [|i].
  - injection Hx as <-. rewrite Hf in Hfq. injection Hfq as <-. lia.
  - rewrite (nth_next_bottom fs p f) in Hx by assumption. discriminate.
Qed.

Lemma not_elem_of_alloc (hs : gmap positive Strip) (x y : positive) :
  is_Some (hs !! x) -> hs !! y = None -> x <> y.
Proof. intros [s Hs] Hy ->. congruence. Qed.

(** The [STORE] case. *)
Lemma next_post_store fl fuel j p hs fs k t f q fq r0 w nw :
  fs !! p = Some f -> f_level f = Z.of_nat (S j) ->
  aimed fl f ->
  f_next f = Some q -> chain fl j q fq hs fs ->
  f_state f = STORE -> f_regen f = Some r0 -> f_working f = Some w -> f_new f = Some nw ->
  strip_at hs fl flat (S j) r0 -> strip_at hs fl flat (S j) w -> strip_at hs fl flat j nw ->
  NoDup (r0 :: w :: nw :: fq) -> heap_ok hs ->
  next_post fl (S j) p (r0 :: w :: nw :: fq) hs fs t
    (next_strip_rec (S fuel) (Some p) (mkState hs fs k t)).
Proof.
  intros Hf Hl Hm Hn Hq Hst Hr Hw Hnw Sr0 Sw0 Sn0 Hnd Hok.
  pose proof Sr0 as (sr & Hsr & [Lr Sr] & Fr & Bj).
  pose proof Sw0 as (sw & Hsw & [Lw Sw] & Fw & _).
  pose proof Sn0 as (sn & Hsn & [Ln Sn] & Fn & _).
  destruct f as [lv stt sm mn sc msc fnew fwork fregen fold_ fnext]. fsimpl. subst.
  destruct sn as [ln dn]. fsimpl. subst ln.
  apply NoDup_cons in Hnd as [Hr0 Hnd]. apply NoDup_cons in Hnd as [Hw0 Hnd].
  apply NoDup_cons in Hnd as [Hnw0 Hnd].
  rewrite !not_elem_of_cons in Hr0. destruct Hr0 as (Hr0w & Hr0n & Hr0q).
  rewrite !not_elem_of_cons in Hw0. destruct Hw0 as (Hwn & Hwq).
  pose proof (chain_alloc _ _ _ _ _ _ Hq) as Hqa.
  destruct (chain_fold _ _ _ _ _ _ Hq) as (f0 & Hf0 & Hl0 & _).
  assert (Hpq : p <> q).
  { intros ->. rewrite Hf in Hf0. injection Hf0 as <-. fsimpl. lia. }
  set (d := fresh (dom hs)).
  assert (Hd : hs !! d = None) by apply fresh_strip_None.
  assert (Hdr : r0 <> d) by (eapply not_elem_of_alloc; eauto).
  assert (Hdw : w <> d) by (eapply not_elem_of_alloc; eauto).
  assert (Hdn : nw <> d) by (eapply not_elem_of_alloc; eauto).
  assert (Hdq : forall x, x ∈ fq -> x <> d)
    by (intros x Hx; eapply not_elem_of_alloc; eauto).
  eassert (Hrun : next_strip_rec (S fuel) (Some p) (mkState hs fs k t) = Ok _ _).
  { cbn [next_strip_rec].
    mstep. { apply emit_ok. }
    mstep. { apply get_fold_ok. exact Hf. }
    fsimpl.
    destruct (decide (Z.of_nat (S j) = 0%Z)); [lia|].
    destruct (decide (STORE = START)); [discriminate|].
    destruct (decide (STORE = STORE)); [|contradiction].
    mstep. { eapply upd_fold_ok. exact Hf. }
    mstep. { eapply upd_fold_ok. apply lookup_insert_eq. }
    rewrite insert_insert_eq.
    mstep. { apply get_fold_ok. apply lookup_insert_eq. }
    fsimpl.
    mstep. { eapply double_strip_ok; [exact Hsn | exact Sn | lia]. }
    mstep. { eapply upd_fold_ok. apply lookup_insert_eq. }
    rewrite insert_insert_eq.
    mstep. { apply get_fold_ok. apply lookup_insert_eq. }
    fsimpl. fold d.
    mstep. { eapply free_strip_ok. rewrite lookup_insert_ne by congruence. exact Hsn. }
    mstep. { eapply upd_fold_ok. apply lookup_insert_eq. }
    mstep. { eapply upd_fold_ok. apply lookup_insert_eq. }
    unfold ret. fsimpl. rewrite !insert_insert_eq. reflexivity. }
  set (sd := mkStrip (Z.of_nat (S j)) (doubled d j dn)) in *.
  set (f' := mkFold (Z.of_nat (S j)) START sm mn sc msc None None (Some d) (Some w) (Some q)) in *.
  set (f := mkFold (Z.of_nat (S j)) STORE sm mn sc msc (Some nw) (Some w) (Some r0) fold_ (Some q)) in *.
  assert (Hsd : sized (S j) sd) by (split; [reflexivity | apply doubled_length]).
  assert (Hkeep : forall x, x <> nw -> x <> d -> delete nw (<[d := sd]> hs) !! x = hs !! x).
  { intros x H1 H2. rewrite lookup_delete_ne by congruence. now rewrite lookup_insert_ne by congruence. }
  exists r0, (delete nw (<[d := sd]> hs)), (<[p := f']> fs), k, [EvNextStrip (Some p)],
    (d :: w :: fq), f, f', sr.
  split; [exact Hrun|].
  split.
  { exists f'. split; [apply lookup_insert_eq|]. split; [reflexivity|]. split; [exact Hm|].
    exists q, fq. split; [reflexivity|]. split.
    - apply (chain_frame fl j q fq hs fs); [assumption | |].
      + intros x Hx. apply Hkeep; [intros ->; contradiction | now apply Hdq].
      + intros x fx Hx Hlx. rewrite lookup_insert_ne; [assumption|].
        intros <-. rewrite Hf in Hx. injection Hx as <-. unfold f in Hlx. fsimpl. lia.
    - left. split; [reflexivity|]. exists d, w. repeat split; try reflexivity.
      + exists sd. split; [|split; [assumption|split; [|assumption]]].
        * rewrite lookup_delete_ne by congruence. apply lookup_insert_eq.
        * intros m Hfl. apply flat_even_doubled; [assumption | now apply Fn].
      + eapply strip_at_frame; [|exact Sw0]. apply Hkeep; congruence. }
  split.
  { repeat (apply NoDup_cons; split); try assumption;
      rewrite ?not_elem_of_cons; repeat split; try congruence; try assumption.
    intros Hx. now apply (Hdq d Hx). }
  split; [apply heap_ok_delete; now apply (heap_ok_insert _ _ _ (S j))|].
  split; [rewrite Hkeep by congruence; exact Hsr|].
  split; [split; assumption|].
  split; [assumption|].
  split; [left; rewrite !elem_of_cons; auto|].
  split.
  { intros x Hx. rewrite !elem_of_cons in Hx. destruct Hx as [->|[->|Hx]].
    - now right.
    - left. rewrite !elem_of_cons. auto.
    - left. rewrite !elem_of_cons. auto. }
  split.
  { intros x sx Hx Hnin. rewrite !not_elem_of_cons in Hnin.
    rewrite Hkeep; [assumption | tauto |]. intros ->. congruence. }
  split.
  { intros x fx Hx Hlx. rewrite lookup_insert_ne; [assumption|].
    intros <-. rewrite Hf in Hx. injection Hx as <-. unfold f in Hlx. fsimpl. lia. }
  split.
  { split; [apply Forall_singleton; simpl; eauto|].
    split; [apply calls_on_cons_eq|].
    split.
    - intros x Hx. apply list_elem_of_singleton in Hx. injection Hx as ->.
      exists f. split; [assumption | unfold f; fsimpl; lia].
    - unfold f. fsimpl. destruct (decide (STORE = START)); [discriminate|].
      apply calls_on_cons_ne. congruence. }
  split; [assumption|]. split; [apply lookup_insert_eq|].
  split.
  { unfold fold_step, f, f'. fsimpl. repeat split; try reflexivity.
    right. repeat split; reflexivity. }
  assert (Hfr : forall x fx, fs !! x = Some fx -> (f_level fx <= Z.of_nat j)%Z ->
                  <[p := f']> fs !! x = Some fx).
  { intros x fx Hx Hlx. rewrite lookup_insert_ne; [assumption|].
    intros <-. rewrite Hf in Hx. injection Hx as <-. unfold f in Hlx. fsimpl. lia. }
  split.
  { intros [|i]; [reflexivity|].
    rewrite (nth_next_top _ p f' q), (nth_next_top fs p f q);
      [|assumption|reflexivity|apply lookup_insert_eq|reflexivity].
    now apply (nth_next_frame fl j q fq hs fs). }
  intros [|i] x fx Hx Hfx Hlx.
  - injection Hx as <-. rewrite Hf in Hfx. injection Hfx as <-.
    exists f', 1. split; [apply lookup_insert_eq|].
    split; [reflexivity|]. split; [reflexivity|].
    split; [apply calls_on_cons_eq|]. split; [|reflexivity].
    unfold f. fsimpl. apply call_events_singleton. congruence.
  - rewrite (nth_next_top fs p f q) in Hx by (assumption || reflexivity).
    destruct (chain_next_below _ _ _ _ _ _ _ _ _ p f Hq Hx Hfx Hf eq_refl) as [Hxp Hnp].
    exists fx, 0. split; [rewrite lookup_insert_ne by congruence; assumption|].
    split; [reflexivity|]. split; [reflexivity|].
    split; [apply calls_on_cons_ne; congruence|]. split; [|reflexivity].
    apply call_events_skip. intros e He. apply list_elem_of_singleton in He. subst e.
    split; congruence.
Qed.

(** The [START] case, given what the call on the next fold does. *)
Lemma next_post_start fl fuel j p hs fs k t f q fq r0 o :
  (fl <> None -> quiet) ->
  fs !! p = Some f -> f_level f = Z.of_nat (S j) ->
  aimed fl f ->
  f_next f = Some q -> chain fl j q fq hs fs ->
  f_state f = START -> f_regen f = Some r0 -> f_old f = Some o ->
  strip_at hs fl flat_even (S j) r0 -> strip_at hs fl flat (S j) o ->
  NoDup (r0 :: o :: fq) -> heap_ok hs ->
  (forall k1 t1,
     next_post fl j q fq hs fs t1 (next_strip_rec fuel (Some q) (mkState hs fs k1 t1))) ->
  next_post fl (S j) p (r0 :: o :: fq) hs fs t
    (next_strip_rec (S fuel) (Some p) (mkState hs fs k t)).
Proof.
  intros Hq Hf Hl Hm Hn Hch Hst Hr Ho Sr0 So0 Hnd Hok IH.
  pose proof Sr0 as (sr & Hsr & [Lr Sr] & Fr & Bj).
  pose proof So0 as (so & Hso & [Lo So] & Fo & _).
  destruct f as [lv stt sm mn sc msc fnew fwork fregen fold_ fnext]. fsimpl. subst.
  destruct sr as [lr dr], so as [lo do_]. fsimpl. subst lr lo.
  apply NoDup_cons in Hnd as [Hr0 Hnd]. apply NoDup_cons in Hnd as [Hoq Hndq].
  rewrite !not_elem_of_cons in Hr0. destruct Hr0 as (Hr0o & Hr0q).
  destruct (chain_fold _ _ _ _ _ _ Hch) as (f0 & Hf0 & Hl0 & _).
  assert (Hpq : p <> q).
  { intros ->. rewrite Hf in Hf0. injection Hf0 as <-. fsimpl. lia. }
  destruct (IH k (EvNextStrip (Some p) :: t))
    as (nw & hs1 & fs1 & k1 & evs1 & fq' & g & g' & snw & Hrun1 & Hch1 & Hnd1 & Hok1 &
        Hnw & [Lnw Snw] & Fnw & Pnw & Pfq & Frs & Frf & Hev1 & Hg & Hg' & Hstep1 & Hcc1).
  destruct snw as [lnw dnw]. fsimpl. subst lnw.
  assert (H1r : hs1 !! r0 = Some (mkStrip (Z.of_nat (S j)) dr)) by (now apply Frs).
  assert (H1o : hs1 !! o = Some (mkStrip (Z.of_nat (S j)) do_)) by (now apply Frs).
  assert (H1p : fs1 !! p = Some (mkFold (Z.of_nat (S j)) START sm mn sc msc fnew fwork
                                   (Some r0) (Some o) (Some q)))
    by (apply Frf; [assumption | fsimpl; lia]).
  assert (Hfresh : forall x, x ∈ fq \/ hs !! x = None -> x <> r0 /\ x <> o).
  { intros x [Hx|Hx]; split; intros ->; try contradiction; congruence. }
  destruct (Hfresh nw Pnw) as [Hnwr Hnwo].
  apply NoDup_cons in Hnd1 as [Hnwq' Hndq'].
  pose proof (chain_alloc _ _ _ _ _ _ Hch1) as Hq'a.
  set (side := side_list (2 ^ j) 0 sc k1 dr).
  set (hs2 := <[r0 := mkStrip (Z.of_nat (S j)) side]> hs1).
  set (w := fresh (dom hs2)).
  assert (Hw2 : hs2 !! w = None) by apply fresh_strip_None.
  assert (Hwr : w <> r0).
  { intros Hx. rewrite Hx in Hw2. unfold hs2 in Hw2. rewrite lookup_insert_eq in Hw2. discriminate. }
  assert (Hw1 : hs1 !! w = None).
  { unfold hs2 in Hw2. now rewrite lookup_insert_ne in Hw2 by congruence. }
  assert (Hwo : w <> o) by (intros Hx; rewrite Hx in Hw1; congruence).
  assert (Hwnw : w <> nw) by (intros Hx; rewrite Hx in Hw1; congruence).
  assert (Hwq' : forall x, x ∈ fq' -> x <> w).
  { intros x Hx ->. destruct (Hq'a w Hx). congruence. }
  set (junk := indeterminate w <$> seq 0 (Z.to_nat (2 ^ (Z.of_nat (S j)) + 1))).
  assert (Hjunk : length junk = 2 ^ S j + 1).
  { unfold junk. now rewrite length_fmap, length_seq, points_to_nat. }
  set (mid := mid_data j sc msc (k1 + 2 ^ j) dnw side junk).
  assert (Hside : length side = 2 ^ S j + 1) by (unfold side; now rewrite side_list_length).
  assert (Hmid : length mid = 2 ^ S j + 1).
  { unfold mid, mid_data. now rewrite length_insert, mid_list_length. }
  set (f' := mkFold (Z.of_nat (S j)) STORE sm mn sc msc (Some nw) (Some w) (Some r0) (Some o) (Some q)).
  set (emid := EvMidUpdate (Z.of_nat (S j)) (Some (Z.of_nat j)) (Some (Z.of_nat (S j))) (Some (Z.of_nat (S j)))).
  set (eside := EvSideUpdate (Z.of_nat (S j)) (Some (Z.of_nat (S j)))).
  assert (Hrun : exists dr' evr k',
    next_strip_rec (S fuel) (Some p) (mkState hs fs k t) =
    Ok (Some o)
       (mkState (<[r0 := mkStrip (Z.of_nat (S j)) dr']> (<[w := mkStrip (Z.of_nat (S j)) mid]> hs1)) (<[p := f']> fs1) k'
                (evr ++ emid :: eside :: evs1 ++ EvNextStrip (Some p) :: t)) /\
    length dr' = 2 ^ S j + 1 /\
    (evr = [] \/ evr = [EvRecalc (Z.of_nat (S j)) (Some (Z.of_nat (S j))) (Some (Z.of_nat (S j))) (Some (Z.of_nat (S j)))]) /\
    (forall m, flat m side -> flat m mid -> flat m do_ -> quiet -> finite sc ->
               flat m dr')).
  { cbn [next_strip_rec].
    mstep. { apply emit_ok. }
    mstep. { apply get_fold_ok. exact Hf. }
    fsimpl.
    destruct (decide ((Z.of_nat (S j)) = 0%Z)); [lia|].
    destruct (decide (START = START)); [|contradiction].
    mstep. { exact Hrun1. }
    mstep. { eapply upd_fold_ok. exact H1p. }
    mstep. { apply get_fold_ok. apply lookup_insert_eq. }
    fsimpl.
    mstep. { eapply peek_level_ok. exact H1r. }
    mstep. { apply emit_ok. }
    fsimpl.
    mstep. { eapply side_update_ok; [exact H1r | assumption | lia]. }
    fold side. fold hs2.
    mstep. { apply make_strip_ok. lia. }
    fold w. fold junk.
    mstep. { eapply upd_fold_ok. apply lookup_insert_eq. }
    rewrite insert_insert_eq.
    mstep. { apply get_fold_ok. apply lookup_insert_eq. }
    fsimpl.
    assert (H3n : <[w := mkStrip (Z.of_nat (S j)) junk]> hs2 !! nw = Some (mkStrip (Z.of_nat j) dnw)).
    { unfold hs2. rewrite !lookup_insert_ne by congruence. exact Hnw. }
    assert (H3r : <[w := mkStrip (Z.of_nat (S j)) junk]> hs2 !! r0 = Some (mkStrip (Z.of_nat (S j)) side)).
    { unfold hs2. rewrite lookup_insert_ne by congruence. apply lookup_insert_eq. }
    mstep. { eapply peek_level_ok. exact H3n. }
    mstep. { eapply peek_level_ok. apply lookup_insert_eq. }
    mstep. { eapply peek_level_ok. exact H3r. }
    mstep. { apply emit_ok. }
    fsimpl. fold emid. fold eside.
    mstep.
    { eapply (mid_update_ok j sc msc nw w r0 dnw junk side);
        [congruence | exact H3n | exact Snw | apply lookup_insert_eq | exact Hjunk
        | exact H3r | exact Hside | lia]. }
    fold mid. rewrite insert_insert_eq.
    assert (Hcanon : <[w := mkStrip (Z.of_nat (S j)) mid]> hs2 =
                     <[r0 := mkStrip (Z.of_nat (S j)) side]> (<[w := mkStrip (Z.of_nat (S j)) mid]> hs1)).
    { unfold hs2. apply insert_insert_ne. congruence. }
    rewrite Hcanon.
    destruct (decide (sm <> 0%Z)) as [Hsm|Hsm].
    - assert (H4w : <[r0 := mkStrip (Z.of_nat (S j)) side]> (<[w := mkStrip (Z.of_nat (S j)) mid]> hs1) !! w =
                    Some (mkStrip (Z.of_nat (S j)) mid)).
      { rewrite lookup_insert_ne by congruence. apply lookup_insert_eq. }
      assert (H4o : <[r0 := mkStrip (Z.of_nat (S j)) side]> (<[w := mkStrip (Z.of_nat (S j)) mid]> hs1) !! o =
                    Some (mkStrip (Z.of_nat (S j)) do_)).
      { rewrite !lookup_insert_ne by congruence. exact H1o. }
      mstep.
      { mstep. { eapply peek_level_ok. exact H4w. }
        mstep. { eapply peek_level_ok. apply lookup_insert_eq. }
        mstep. { eapply peek_level_ok. exact H4o. }
        mstep. { apply emit_ok. }
        fsimpl.
        eapply (recalc_ok j sc w r0 o mid side do_);
          [congruence | congruence | exact H4w | exact Hmid | apply lookup_insert_eq
          | exact Hside | exact H4o | exact So | lia]. }
      mstep. { eapply upd_fold_ok. apply lookup_insert_eq. }
      unfold ret. fsimpl. rewrite !insert_insert_eq.
      eexists _, [EvRecalc (Z.of_nat (S j)) (Some (Z.of_nat (S j))) (Some (Z.of_nat (S j))) (Some (Z.of_nat (S j)))], _.
      split; [reflexivity|]. split; [now rewrite recalc_data_length|].
      split; [now right|].
      intros m F1 F2 F3 Hquiet Hfin. now apply flat_recalc_data.
    - mstep. { reflexivity. }
      mstep. { eapply upd_fold_ok. apply lookup_insert_eq. }
      unfold ret. fsimpl. rewrite !insert_insert_eq.
      eexists side, [], _.
      split; [reflexivity|]. split; [assumption|]. split; [now left|].
      intros m F1 _ _ _ _. exact F1. }
  destruct Hrun as (dr' & evr & k' & Hrun & Hdr' & Hevr & Hflat).
  set (hs' := <[r0 := mkStrip (Z.of_nat (S j)) dr']> (<[w := mkStrip (Z.of_nat (S j)) mid]> hs1)) in *.
  assert (Hkeep : forall x, x <> r0 -> x <> w -> hs' !! x = hs1 !! x).
  { intros x H1 H2. unfold hs'. now rewrite !lookup_insert_ne by congruence. }
  assert (Hfin : forall m, fl = Some m -> finite sc /\ finite msc).
  { intros m Hfl. destruct (Hm m Hfl) as (_ & H1 & H2). fsimpl. now split. }
  assert (Fside : holds fl flat side).
  { intros m Hfl. destruct (Hfin m Hfl) as [Hsc _].
    apply flat_side_list; [apply Hq; congruence | assumption | assumption | now apply Fr]. }
  assert (Fmid : holds fl flat mid).
  { intros m Hfl. destruct (Hfin m Hfl) as [Hsc Hmsc].
    apply flat_mid_data; try assumption;
      [apply Hq; congruence | now apply Fnw | now apply Fside]. }
  assert (Fdr' : holds fl flat dr').
  { intros m Hfl. destruct (Hfin m Hfl) as [Hsc _].
    apply Hflat; [now apply Fside | now apply Fmid | now apply Fo
                 | apply Hq; congruence | assumption]. }
  exists o, hs', (<[p := f']> fs1), k', (evr ++ emid :: eside :: evs1 ++ [EvNextStrip (Some p)]),
    (r0 :: w :: nw :: fq'),
    (mkFold (Z.of_nat (S j)) START sm mn sc msc fnew fwork (Some r0) (Some o) (Some q)), f',
    (mkStrip (Z.of_nat (S j)) do_).
  split.
  { rewrite Hrun. do 2 f_equal. rewrite <- !app_assoc. cbn [app]. now rewrite <- app_assoc. }
  split.
  { exists f'. split; [apply lookup_insert_eq|]. split; [reflexivity|]. split; [exact Hm|].
    exists q, fq'. split; [reflexivity|]. split.
    - apply (chain_frame fl j q fq' hs1 fs1); [assumption | |].
      + intros x Hx. apply Hkeep; [apply (Hfresh x (Pfq x Hx)) | now apply Hwq'].
      + intros x fx Hx Hlx. rewrite lookup_insert_ne; [assumption|].
        intros <-. rewrite H1p in Hx. injection Hx as <-. fsimpl. lia.
    - right. split; [reflexivity|]. exists r0, w, nw. repeat split; try reflexivity.
      + exists (mkStrip (Z.of_nat (S j)) dr'). split; [apply lookup_insert_eq|].
        repeat split; try assumption; lia.
      + exists (mkStrip (Z.of_nat (S j)) mid). split.
        * unfold hs'. rewrite lookup_insert_ne by congruence. apply lookup_insert_eq.
        * repeat split; try assumption; lia.
      + exists (mkStrip (Z.of_nat j) dnw). split; [rewrite Hkeep by congruence; exact Hnw|].
        repeat split; try assumption; lia. }
  split.
  { repeat (apply NoDup_cons; split); try assumption;
      rewrite ?not_elem_of_cons; repeat split; try congruence.
    - intros Hx. destruct (Hfresh o (Pfq o Hx)) as [_ H]. now apply H.
    - intros Hx. destruct (Hfresh r0 (Pfq r0 Hx)) as [H _]. now apply H.
    - intros Hx. now apply (Hwq' w Hx). }
  split.
  { unfold hs'. apply (heap_ok_insert _ _ _ (S j)); [|now split].
    apply (heap_ok_insert _ _ _ (S j)); [assumption | now split]. }
  split; [rewrite Hkeep by congruence; exact H1o|].
  split; [now split|].
  split; [exact Fo|].
  split; [left; rewrite !elem_of_cons; auto|].
  split.
  { intros x Hx. rewrite !elem_of_cons in Hx. destruct Hx as [->|[->|[->|Hx]]].
    - left. rewrite !elem_of_cons. auto.
    - destruct (hs !! w) as [sw|] eqn:Hw; [|now right].
      left. rewrite !elem_of_cons. right. right.
      destruct (decide (w ∈ fq)) as [Hin|Hnin]; [assumption|].
      rewrite (Frs w sw Hw Hnin) in Hw1. discriminate.
    - destruct Pnw as [Hin|Hnone]; [left; rewrite !elem_of_cons; auto | now right].
    - destruct (Pfq x Hx) as [Hin|Hnone]; [left; rewrite !elem_of_cons; auto | now right]. }
  split.
  { intros x sx Hx Hnin. rewrite !not_elem_of_cons in Hnin. destruct Hnin as (H1 & H2 & H3).
    rewrite Hkeep; [now apply Frs | assumption |].
    intros ->. rewrite (Frs w sx Hx H3) in Hw1. discriminate. }
  split.
  { intros x fx Hx Hlx. rewrite lookup_insert_ne.
    - apply Frf; [assumption | lia].
    - intros <-. rewrite Hf in Hx. injection Hx as <-. fsimpl. lia. }
  destruct Hev1 as (Hk1 & Hc1 & Hlev1 & _).
  assert (Hkevr : Forall kernel_ok evr).
  { destruct Hevr as [->| ->]; [constructor|].
    apply Forall_singleton. simpl. lia. }
  assert (Hcevr : forall x, calls_on x evr = 0).
  { intros x. destruct Hevr as [->| ->]; [reflexivity|].
    now rewrite calls_on_cons_ne by discriminate. }
  assert (Hnevr : forall x, EvNextStrip x ∉ evr).
  { intros x Hx. destruct Hevr as [->| ->]; [inversion Hx|].
    apply list_elem_of_singleton in Hx. discriminate. }
  assert (Hcq : calls_on (Some p) evs1 = 0).
  { unfold calls_on. apply length_zero_iff_nil.
    destruct (filter _ evs1) as [|e l] eqn:Hfil; [reflexivity|].
    assert (He : e ∈ filter (fun e => e = EvNextStrip (Some p)) evs1)
      by (rewrite Hfil; left).
    apply list_elem_of_filter in He as [-> Hin].
    destruct (Hlev1 p Hin) as (fx & Hfx & Hlx).
    rewrite Hf in Hfx. injection Hfx as <-. fsimpl. lia. }
  split.
  { split.
    - apply Forall_app. split; [assumption|].
      apply Forall_cons. split; [simpl; lia|].
      apply Forall_cons. split; [simpl; lia|].
      apply Forall_app. split; [assumption|].
      apply Forall_singleton. simpl. eauto.
    - split.
      + rewrite calls_on_app, Hcevr. rewrite !calls_on_cons_ne by discriminate.
        rewrite calls_on_app, Hcq. apply calls_on_cons_eq.
      + split.
        * intros x Hx. rewrite elem_of_app in Hx. destruct Hx as [Hx|Hx];
            [now apply Hnevr in Hx|].
          rewrite !elem_of_cons in Hx. destruct Hx as [Hx|[Hx|Hx]]; try discriminate.
          rewrite elem_of_app in Hx. destruct Hx as [Hx|Hx].
          -- destruct (Hlev1 x Hx) as (fx & Hfx & Hlx). exists fx. split; [assumption | lia].
          -- apply list_elem_of_singleton in Hx. injection Hx as ->.
             eexists. split; [exact Hf | fsimpl; lia].
        * fsimpl. destruct (decide (START = START)); [|contradiction].
          rewrite calls_on_app, Hcevr. rewrite !calls_on_cons_ne by discriminate.
          rewrite calls_on_app, Hc1. rewrite calls_on_cons_ne by congruence.
          reflexivity. }
  split; [assumption|]. split; [apply lookup_insert_eq|].
  split.
  { unfold fold_step, f'. fsimpl. repeat split; try reflexivity.
    left. repeat split; reflexivity. }
  destruct Hcc1 as [Hnn1 Hcc1].
  assert (Hfr1 : forall x fx, fs1 !! x = Some fx -> (f_level fx <= Z.of_nat j)%Z ->
                   <[p := f']> fs1 !! x = Some fx).
  { intros x fx Hx Hlx. rewrite lookup_insert_ne; [assumption|].
    intros <-. rewrite H1p in Hx. injection Hx as <-. fsimpl. lia. }
  assert (Hdec : forall x y,
    call_events (EvNextStrip x) (EvNextStrip y)
      (evr ++ emid :: eside :: evs1 ++ [EvNextStrip (Some p)]) =
    call_events (EvNextStrip x) (EvNextStrip y) [EvNextStrip (Some p)] ++
    call_events (EvNextStrip x) (EvNextStrip y) evs1).
  { intros x y. rewrite call_events_app.
    rewrite (call_events_skip _ _ evr), app_nil_r.
    - rewrite !call_events_cons_other by discriminate. apply call_events_app.
    - intros e He. split; intros ->; now apply Hnevr in He. }
  assert (Hcnt : forall x,
    calls_on x (evr ++ emid :: eside :: evs1 ++ [EvNextStrip (Some p)]) =
    calls_on x evs1 + calls_on x [EvNextStrip (Some p)]).
  { intros x. rewrite calls_on_app, Hcevr. rewrite !calls_on_cons_ne by discriminate.
    now rewrite calls_on_app. }
  split.
  { intros [|i]; [reflexivity|].
    rewrite (nth_next_top _ p f' q) by (apply lookup_insert_eq || reflexivity).
    rewrite (nth_next_top fs p _ q _ Hf eq_refl).
    rewrite (nth_next_frame fl j q fq' hs1 fs1 _ Hch1 Hfr1). apply Hnn1. }
  intros [|i] x fx Hx Hfx Hlx.
  - injection Hx as <-. rewrite Hf in Hfx. injection Hfx as <-.
    exists f', 1. split; [apply lookup_insert_eq|].
    split; [reflexivity|]. split; [reflexivity|].
    split; [rewrite Hcnt, Hcq; apply calls_on_cons_eq|]. split; [|reflexivity].
    fsimpl. rewrite Hdec.
    rewrite call_events_singleton by congruence.
    rewrite (call_events_one _ _ evs1); [reflexivity | congruence | exact Hcq | exact Hc1].
  - rewrite (nth_next_top fs p _ q _ Hf eq_refl) in Hx.
    destruct (Hcc1 i x fx Hx Hfx Hlx) as (fx' & c & Hfx' & Hnx & Hlvx & Hcx & Hpat & Hflip).
    destruct (chain_next_below _ _ _ _ _ _ _ _ _ p _ Hch Hx Hfx Hf eq_refl) as [Hxp Hnp].
    exists fx', c. split; [rewrite lookup_insert_ne by congruence; assumption|].
    split; [assumption|]. split; [assumption|].
    split; [rewrite Hcnt, Hcx, calls_on_cons_ne by congruence; cbn; lia|].
    split; [|assumption].
    rewrite Hdec, (call_events_skip _ _ [EvNextStrip (Some p)]); [exact Hpat|].
    intros e He. apply list_elem_of_singleton in He. subst e. split; congruence.
Qed.

(** Every call on a well-formed chain returns, and keeps the chain
    well formed. *)
Lemma next_strip_rec_post fl :
  (fl <> None -> quiet) ->
  forall n fuel p fp hs fs k t,
    n < fuel -> chain fl n p fp hs fs -> NoDup fp -> heap_ok hs ->
    next_post fl n p fp hs fs t (next_strip_rec fuel (Some p) (mkState hs fs k t)).
Proof.
  intros Hq n.
  induction n as [|j IH]; intros fuel p fp hs fs k t Hfuel Hch Hnd Hok;
    (destruct fuel as [|fuel]; [lia|]).
  - pose proof Hch as (f & _ & _ & _ & -> & _).
    now apply next_post_level0.
  - pose proof Hch as (f & Hf & Hl & Hm & q & fq & Hn & Hchq & Hcase).
    destruct Hcase as [(Hst & r & o & Hr & Ho & -> & Sr & So)
                      |(Hst & r & w & nw & Hr & Hw & Hnw & -> & Sr & Sw & Sn)].
    + eapply next_post_start; eauto.
      intros k1 t1. apply IH; [lia | assumption | | assumption].
      apply NoDup_cons in Hnd as [_ Hnd]. now apply NoDup_cons in Hnd as [_ Hnd].
    + eapply next_post_store; eauto.
Qed.

Lemma fuel_for_chain fl n p fp hs fs k t :
  chain fl n p fp hs fs -> fuel_for (Some p) (mkState hs fs k t) = S n.
Proof.
  intros Hch. destruct (chain_fold _ _ _ _ _ _ Hch) as (f & Hf & Hl & _).
  unfold fuel_for. simpl. rewrite Hf, Hl. now rewrite Nat2Z.id.
Qed.

Lemma next_strip_post fl :
  (fl <> None -> quiet) ->
  forall n p fp hs fs k t,
    chain fl n p fp hs fs -> NoDup fp -> heap_ok hs ->
    next_post fl n p fp hs fs t (next_strip (Some p) (mkState hs fs k t)).
Proof.
  intros Hq n p fp hs fs k t Hch Hnd Hok.
  unfold next_strip. rewrite (fuel_for_chain _ _ _ _ _ _ k t Hch).
  apply next_strip_rec_post; auto.
Qed.

(** ** Building the chain *)

Lemma side_length_succ (i : nat) (len : Length) :
  side_length i (two * len)%H = side_length (S i) len.
Proof. unfold side_length. symmetry. apply Nat.iter_succ_r. Qed.

Lemma finite_scales_next n len fdim :
  finite_scales (S n) len fdim -> finite_scales n (two * len)%H fdim.
Proof.
  intros H i Hi. rewrite side_length_succ. apply H. lia.
Qed.

Lemma make_fold_rec_post fl n : forall fuel smooth len start mean fdim hs fs k t,
  n < fuel -> n <= 30 ->
  (forall m, fl = Some m -> start = m /\ mean = m /\ finite_scales n len fdim) ->
  heap_ok hs ->
  exists p fp hs' fs',
    make_fold_rec fuel (Z.of_nat n) smooth len start mean fdim (mkState hs fs k t) =
      Ok (Some p) (mkState hs' fs' k t) /\
    chain fl n p fp hs' fs' /\ NoDup fp /\ heap_ok hs' /\
    fs !! p = None /\
    (forall x, x ∈ fp -> hs !! x = None) /\
    (forall x sx, hs !! x = Some sx -> hs' !! x = Some sx) /\
    (forall x fx, fs !! x = Some fx -> fs' !! x = Some fx) /\
    (forall i q fq, nth_next fs' i p = Some q -> fs' !! q = Some fq -> f_state fq = START).
Proof.
  induction n as [|j IH]; intros fuel smooth len start mean fdim hs fs k t Hfuel Hb Hfl Hok;
    (destruct fuel as [|fuel]; [lia|]); cbn [make_fold_rec].
  - set (p := fresh (dom fs)).
    assert (Hp : fs !! p = None) by apply fresh_fold_None.
    destruct (decide (Z.of_nat 0 ≠ 0%Z)) as [Hne|_]; [exfalso; now apply Hne|].
    eexists p, [], hs, _.
    split.
    { mstep.
      { mstep. { eapply upd_fold_ok. apply lookup_insert_eq. }
        mstep. { eapply upd_fold_ok. apply lookup_insert_eq. }
        eapply upd_fold_ok. apply lookup_insert_eq. }
      unfold ret. cbn [strips folds draws trace set_folds]. fsimpl.
      rewrite !insert_insert_eq. reflexivity. }
    split.
    { eexists. split; [apply lookup_insert_eq|]. fsimpl.
      split; [reflexivity|]. split; [|split; reflexivity].
      intros m Hm. destruct (Hfl m Hm) as (_ & Hmean & Hfin).
      destruct (Hfin 0 ltac:(lia)) as [H1 H2]. fsimpl. auto. }
    split; [constructor|]. split; [assumption|]. split; [assumption|].
    split; [intros x Hx; inversion Hx|]. split; [auto|].
    split.
    { intros x fx Hx.
      apply insert_other; [assumption | unfold p in Hp; rewrite Hp; discriminate]. }
    intros [|i] x fx Hx Hfx.
    + injection Hx as <-. rewrite lookup_insert_eq in Hfx. injection Hfx as <-. reflexivity.
    + erewrite nth_next_bottom in Hx; [discriminate | apply lookup_insert_eq | reflexivity].
  - set (p := fresh (dom fs)).
    assert (Hp : fs !! p = None) by apply fresh_fold_None.
    destruct (decide (Z.of_nat (S j) ≠ 0%Z)) as [_|Heq]; [|lia].
    set (r := fresh (dom hs)).
    assert (Hr : hs !! r = None) by apply fresh_strip_None.
    set (sr := mkStrip (Z.of_nat (S j)) (replicate (Z.to_nat (2 ^ Z.of_nat (S j) + 1)) start)).
    set (hs1 := <[r := sr]> hs).
    set (o := fresh (dom hs1)).
    assert (Ho1 : hs1 !! o = None) by apply fresh_strip_None.
    assert (Hor : o <> r).
    { intros Hx. rewrite Hx in Ho1. unfold hs1 in Ho1. rewrite lookup_insert_eq in Ho1.
      discriminate. }
    assert (Ho : hs !! o = None).
    { unfold hs1 in Ho1. now rewrite lookup_insert_ne in Ho1 by congruence. }
    set (hs2 := <[o := sr]> hs1).
    assert (Hsr : sized (S j) sr).
    { split; [reflexivity|]. unfold sr. cbn [s_d].
      now rewrite length_replicate, points_to_nat. }
    assert (Hok2 : heap_ok hs2).
    { unfold hs2, hs1. apply (heap_ok_insert _ _ _ (S j)); [|assumption].
      now apply (heap_ok_insert _ _ _ (S j)). }
    set (f0 := mkFold (Z.of_nat (S j)) 0 smooth mean (pow len (two * fdim)%H)
                 (pow (len * sqrt two)%H (two * fdim)%H) None None None None None).
    set (f2 := with_old (Some o) (with_regen (Some r) f0)).
    assert (Hfl' : forall m, fl = Some m ->
                     start = m /\ mean = m /\ finite_scales j (two * len)%H fdim).
    { intros m Hm. destruct (Hfl m Hm) as (H1 & H2 & H3).
      split; [assumption|]. split; [assumption|]. now apply finite_scales_next. }
    destruct (IH fuel smooth (two * len)%H start mean fdim hs2 (<[p := f2]> fs) k t
                ltac:(lia) ltac:(lia) Hfl' Hok2)
      as (q & fq & hs3 & fs3 & Hrun & Hch & Hnd & Hok3 & Hq & Hfq & Frs & Frf & Hst).
    assert (H3p : fs3 !! p = Some f2) by (apply Frf; apply lookup_insert_eq).
    assert (H3r : hs3 !! r = Some sr).
    { apply Frs. unfold hs2, hs1. rewrite lookup_insert_ne by congruence.
      apply lookup_insert_eq. }
    assert (H3o : hs3 !! o = Some sr) by (apply Frs; apply lookup_insert_eq).
    assert (Hflat : holds fl flat (s_d sr)).
    { intros m Hm. destruct (Hfl m Hm) as [-> _]. apply flat_replicate. }
    exists p, (r :: o :: fq), hs3, (<[p := with_next (Some q) f2]> fs3).
    split.
    { mstep.
      { mstep. { apply set_strip_ok. lia. }
        cbn [strips folds draws trace set_folds]. fold r. fold sr. fold hs1.
        mstep. { eapply upd_fold_ok. apply lookup_insert_eq. }
        rewrite insert_insert_eq.
        mstep. { apply set_strip_ok. lia. }
        fold o. fold sr. fold hs2.
        mstep. { eapply upd_fold_ok. apply lookup_insert_eq. }
        rewrite insert_insert_eq.
        replace (Z.of_nat (S j) - 1)%Z with (Z.of_nat j) by lia.
        mstep. { exact Hrun. }
        eapply upd_fold_ok. exact H3p. }
      reflexivity. }
    split.
    { eexists. split; [apply lookup_insert_eq|]. split; [reflexivity|].
      split.
      { intros m Hm. destruct (Hfl m Hm) as (_ & Hmean & Hfin).
        destruct (Hfin 0 ltac:(lia)) as [H1 H2]. unfold f2, f0. fsimpl. auto. }
      exists q, fq. split; [reflexivity|]. split.
      - apply (chain_frame fl j q fq hs3 fs3); [assumption | auto |].
        intros x fx Hx Hlx. rewrite lookup_insert_ne; [assumption|].
        intros <-. rewrite H3p in Hx. injection Hx as <-. unfold f2, f0 in Hlx. fsimpl. lia.
      - left. split; [reflexivity|]. exists r, o. repeat split; try reflexivity.
        + exists sr. split; [assumption|]. split; [assumption|]. split; [|assumption].
          intros m Hm. apply flat_flat_even. now apply Hflat.
        + exists sr. auto. }
    split.
    { repeat (apply NoDup_cons; split); try assumption;
        rewrite ?not_elem_of_cons; repeat split; try congruence.
      - intros Hx. apply Hfq in Hx. unfold hs2, hs1 in Hx.
        rewrite lookup_insert_ne, lookup_insert_eq in Hx by congruence. discriminate.
      - intros Hx. apply Hfq in Hx. unfold hs2 in Hx.
        rewrite lookup_insert_eq in Hx. discriminate. }
    split; [assumption|]. split; [assumption|].
    split.
    { intros x Hx. rewrite !elem_of_cons in Hx. destruct Hx as [->|[->|Hx]]; try assumption.
      apply Hfq in Hx. unfold hs2, hs1 in Hx.
      destruct (decide (x = o)) as [->|]; [assumption|].
      destruct (decide (x = r)) as [->|]; [assumption|].
      now rewrite !lookup_insert_ne in Hx by congruence. }
    split.
    { intros x sx Hx. apply Frs. unfold hs2, hs1.
      rewrite !lookup_insert_ne; [assumption | congruence | congruence]. }
    split.
    { intros x fx Hx. rewrite lookup_insert_ne by congruence.
      apply Frf. rewrite lookup_insert_ne; [assumption | congruence]. }
    assert (Hfr3 : forall x fx, fs3 !! x = Some fx -> (f_level fx <= Z.of_nat j)%Z ->
                     <[p := with_next (Some q) f2]> fs3 !! x = Some fx).
    { intros x fx Hx Hlx. rewrite lookup_insert_ne; [assumption|].
      intros <-. rewrite H3p in Hx. injection Hx as <-. unfold f2, f0 in Hlx. fsimpl. lia. }
    intros [|i] x fx Hx Hfx.
    + injection Hx as <-. rewrite lookup_insert_eq in Hfx. injection Hfx as <-. reflexivity.
    + rewrite (nth_next_top _ p (with_next (Some q) f2) q i) in Hx
        by (apply lookup_insert_eq || reflexivity).
      rewrite (nth_next_frame fl j q fq hs3 fs3 _ Hch Hfr3) in Hx.
      destruct (chain_nth _ _ _ _ _ _ _ _ Hch Hx) as (_ & fx' & Hfx' & Hlx').
      rewrite (Hfr3 x fx' Hfx') in Hfx by lia. injection Hfx as <-.
      now apply (Hst i x).
Qed.

Lemma make_fold_post fl n smooth len start mean fdim hs fs k t :
  n <= 30 ->
  (forall m, fl = Some m -> start = m /\ mean = m /\ finite_scales n len fdim) ->
  heap_ok hs ->
  exists p fp hs' fs',
    make_fold (Z.of_nat n) smooth len start mean fdim (mkState hs fs k t) =
      Ok (Some p) (mkState hs' fs' k t) /\
    chain fl n p fp hs' fs' /\ NoDup fp /\ heap_ok hs' /\
    (forall i q fq, nth_next fs' i p = Some q -> fs' !! q = Some fq -> f_state fq = START).
Proof.
  intros Hb Hfl Hok. unfold make_fold. rewrite Nat2Z.id.
  destruct (make_fold_rec_post fl n (S n) smooth len start mean fdim hs fs k t
              ltac:(lia) Hb Hfl Hok)
    as (p & fp & hs' & fs' & Hrun & Hch & Hnd & Hok' & _ & _ & _ & _ & Hst).
  exists p, fp, hs', fs'. auto.
Qed.

Lemma chain_calls_refl p fs : chain_calls p fs fs [].
Proof.
  split; [reflexivity|]. intros i q fq Hq Hfq Hl.
  exists fq, 0. repeat split; auto.
Qed.

Lemma chain_calls_trans p fs fs1 fs2 evs1 evs2 :
  chain_calls p fs fs1 evs1 -> chain_calls p fs1 fs2 evs2 ->
  chain_calls p fs fs2 (evs2 ++ evs1).
Proof.
  intros [Hn1 Hc1] [Hn2 Hc2]. split; [intros i; now rewrite Hn2|].
  intros i q fq Hq Hfq Hl.
  destruct (Hc1 i q fq Hq Hfq Hl) as (fq1 & c1 & Hfq1 & Hnx1 & Hl1 & Hcnt1 & Hpat1 & Hfl1).
  destruct (Hc2 i q fq1) as (fq2 & c2 & Hfq2 & Hnx2 & Hl2 & Hcnt2 & Hpat2 & Hfl2);
    [now rewrite Hn1 | assumption | lia |].
  exists fq2, (c1 + c2). split; [assumption|]. split; [congruence|]. split; [congruence|].
  split; [rewrite calls_on_app; lia|].
  split.
  - rewrite call_events_app, pat_app, Hpat1. f_equal.
    rewrite <- Hfl1, <- Hnx1. exact Hpat2.
  - rewrite flipn_add, <- Hfl1. exact Hfl2.
Qed.

(** ** Sessions *)

Lemma next_strips_post fl :
  (fl <> None -> quiet) ->
  forall cnt n p fp hs fs k t,
    chain fl n p fp hs fs -> NoDup fp -> heap_ok hs ->
    exists rs hs' fs' k' evs fp' f f',
      next_strips cnt (Some p) (mkState hs fs k t) =
        Ok rs (mkState hs' fs' k' (evs ++ t)) /\
      chain fl n p fp' hs' fs' /\ NoDup fp' /\ heap_ok hs' /\ length rs = cnt /\
      Forall (fun e => exists l, fst e = Some l /\ (l ∉ fp') /\ hs' !! l = Some (snd e) /\
                         sized n (snd e) /\ holds fl flat (s_d (snd e))) rs /\
      (forall x, x ∈ fp' -> x ∈ fp \/ hs !! x = None) /\
      (forall x sx, hs !! x = Some sx -> x ∉ fp -> hs' !! x = Some sx) /\
      Forall kernel_ok evs /\ calls_on (Some p) evs = cnt /\
      fs !! p = Some f /\ fs' !! p = Some f' /\ f_next f' = f_next f /\
      chain_calls p fs fs' evs.
Proof.
  intros Hq cnt.
  induction cnt as [|c IH]; intros n p fp hs fs k t Hch Hnd Hok.
  - destruct (chain_fold _ _ _ _ _ _ Hch) as (f & Hf & _).
    exists [], hs, fs, k, [], fp, f, f. cbn [next_strips].
    repeat split; auto; try constructor; try (now apply chain_calls_refl).
  - destruct (next_strip_post fl Hq n p fp hs fs k t Hch Hnd Hok)
      as (r & hs1 & fs1 & k1 & evs1 & fp1 & f & f1 & s & Hrun1 & Hch1 & Hnd1 & Hok1 &
          Hr & Sr & Fr & Pr & Pfp & Frs & Frf & Hev1 & Hf & Hf1 & Hstep & Hcc1).
    apply NoDup_cons in Hnd1 as [Hrfp1 Hnd1].
    destruct (IH n p fp1 hs1 fs1 k1 (evs1 ++ t) Hch1 Hnd1 Hok1)
      as (rs & hs' & fs' & k' & evs2 & fp' & g & f' & Hrun2 & Hch' & Hnd' & Hok' & Hlen &
          Hrs & Pfp' & Frs' & Hev2 & Hc2 & Hg & Hf' & Hnext & Hcc2).
    rewrite Hf1 in Hg. injection Hg as <-.
    destruct Hev1 as (Hk1 & Hc1 & _).
    destruct Hstep as (_ & _ & _ & _ & _ & Hn1 & _).
    exists ((Some r, s) :: rs), hs', fs', k', (evs2 ++ evs1), fp', f, f'.
    split.
    { cbn [next_strips].
      mstep. { exact Hrun1. }
      mstep. { eapply get_strip_ok. exact Hr. }
      mstep. { exact Hrun2. }
      unfold ret. now rewrite app_assoc. }
    split; [assumption|]. split; [assumption|]. split; [assumption|].
    split; [simpl; now rewrite Hlen|].
    split.
    { apply Forall_cons. split; [|assumption].
      exists r. cbn [fst snd]. split; [reflexivity|]. split.
      - intros Hx. destruct (Pfp' r Hx) as [Hin|Hnone]; [contradiction | congruence].
      - split; [now apply Frs'|]. now split. }
    split.
    { intros x Hx. destruct (Pfp' x Hx) as [Hin|Hnone]; [now apply Pfp|].
      destruct (hs !! x) as [sx|] eqn:Hsx; [|now right].
      left. destruct (decide (x ∈ fp)) as [Hin|Hnin]; [assumption|].
      rewrite (Frs x sx Hsx Hnin) in Hnone. discriminate. }
    split.
    { intros x sx Hx Hnin. apply Frs'; [now apply Frs|].
      intros Hin. destruct (Pfp x Hin) as [Hin'|Hnone]; [contradiction | congruence]. }
    split; [apply Forall_app; now split|].
    split; [rewrite calls_on_app, Hc1, Hc2; lia|].
    split; [assumption|]. split; [assumption|]. split; [congruence|].
    now apply (chain_calls_trans p fs fs1 fs').
Qed.

End Generator.

(** * The properties of the specification *)

Lemma size_invariant_sized s : size_invariant s <-> exists n, sized n s.
Proof.
  split.
  - intros [H0 Hlen]. exists (Z.to_nat (s_level s)). split; [lia|].
    rewrite Hlen. rewrite <- (Z2Nat.id (s_level s)) at 1 by assumption.
    apply points_to_nat.
  - intros (n & Hl & Hlen). split; [lia|].
    rewrite Hlen, Hl. symmetry. apply points_to_nat.
Qed.

Lemma strips_ok_heap_ok st : strips_ok st <-> heap_ok (strips st).
Proof.
  split; intros H l s Hl; apply size_invariant_sized; eauto.
Qed.

Lemma strips_ok_empty : strips_ok empty_state.
Proof. intros l s Hl. cbn in Hl. rewrite lookup_empty in Hl. discriminate. Qed.

Lemma zero_noise_quiet pw sq ind : @quiet (zero_noise pw sq ind).
Proof. intros k. reflexivity. Qed.

Lemma side_length_finite (i : nat) (len : Qc) : finite (side_length i (Fin len)).
Proof.
  induction i as [|i [q IH]]; [now exists len|].
  change (side_length (S i) (Fin len)) with (two * side_length i (Fin len))%H.
  rewrite IH. unfold two. now eexists.
Qed.

(** With [pow] and [sqrt] finite on finite arguments, the scales are
    finite when the length and the dimension are. *)
Lemma zero_noise_finite_scales pw sq ind (n : nat) (len fdim : Qc) :
  finite_scales (E := zero_noise pw sq ind) n (Fin len) (Fin fdim).
Proof.
  intros i _. destruct (side_length_finite i len) as [q ->].
  unfold two. cbn. split; now eexists.
Qed.

(** The folds of a chain below a fold of the chain form a chain. *)
Lemma chain_sub fl n : forall p fp hs fs i q,
  chain fl n p fp hs fs -> NoDup fp -> nth_next fs i p = Some q ->
  exists fq, chain fl (n - i) q fq hs fs /\ NoDup fq.
Proof.
  induction n as [|k IH]; intros p fp hs fs i q Hch Hnd Hq.
  - destruct i as [|i].
    + injection Hq as <-. exists fp. now split.
    + destruct Hch as (f & Hf & _ & _ & _ & Hn).
      rewrite (nth_next_bottom fs p f) in Hq by assumption. discriminate.
  - destruct i as [|i].
    + injection Hq as <-. exists fp. now split.
    + pose proof Hch as (f & Hf & _ & _ & p' & fq & Hn & Hch' & Hcase).
      rewrite (nth_next_top fs p f p') in Hq by assumption.
      apply (IH p' fq hs fs i q Hch'); [|assumption].
      destruct Hcase as [(_ & r & o & _ & _ & -> & _)|(_ & r & w & nw & _ & _ & _ & -> & _)].
      * apply NoDup_cons in Hnd as [_ Hnd]. now apply NoDup_cons in Hnd as [_ Hnd].
      * apply NoDup_cons in Hnd as [_ Hnd]. apply NoDup_cons in Hnd as [_ Hnd].
        now apply NoDup_cons in Hnd as [_ Hnd].
Qed.

(** A session from [make_fold] on, for any setting of [smooth]. *)
Lemma session_post {E : Env} fl (levels smooth : Z) (len start mean fdim : Height)
    (cnt : nat) (st0 : state) :
  (fl <> None -> quiet) ->
  (forall m, fl = Some m ->
     start = m /\ mean = m /\ finite_scales (Z.to_nat levels) len fdim) ->
  (0 <= levels <= 30)%Z -> strips_ok st0 ->
  exists p st1 rs st2 evs f f2,
    make_fold levels smooth len start mean fdim st0 = Ok (Some p) st1 /\
    next_strips cnt (Some p) st1 = Ok rs st2 /\
    length rs = cnt /\
    strips_ok st1 /\ strips_ok st2 /\
    trace st2 = evs ++ trace st1 /\ Forall kernel_ok evs /\
    calls_on (Some p) evs = cnt /\
    Forall (fun e => exists l, fst e = Some l /\ strips st2 !! l = Some (snd e) /\
                       sized (Z.to_nat levels) (snd e) /\ holds fl flat (s_d (snd e))) rs /\
    folds st1 !! p = Some f /\ folds st2 !! p = Some f2 /\ f_next f2 = f_next f /\
    f_level f = levels /\
    chain_calls p (folds st1) (folds st2) evs /\
    (forall i q fq, nth_next (folds st1) i p = Some q -> folds st1 !! q = Some fq ->
                    f_state fq = START) /\
    exists fp, chain fl (Z.to_nat levels) p fp (strips st2) (folds st2) /\ NoDup fp.
Proof.
  intros Hq Hfl Hlev Hok. destruct st0 as [hs fs k t].
  apply strips_ok_heap_ok in Hok. cbn [strips] in Hok.
  set (n := Z.to_nat levels).
  assert (Hn : levels = Z.of_nat n) by (unfold n; lia).
  destruct (make_fold_post fl n smooth len start mean fdim hs fs k t ltac:(lia) Hfl Hok)
    as (p & fp & hs1 & fs1 & Hmk & Hch & Hnd & Hok1 & Hst).
  destruct (next_strips_post fl Hq cnt n p fp hs1 fs1 k t Hch Hnd Hok1)
    as (rs & hs2 & fs2 & k2 & evs & fp2 & f & f2 & Hrun & Hch2 & Hnd2 & Hok2 & Hlen &
        Hrs & _ & _ & Hev & Hcalls & Hf & Hf2 & Hnext & Hcc).
  exists p, (mkState hs1 fs1 k t), rs, (mkState hs2 fs2 k2 (evs ++ t)), evs, f, f2.
  rewrite Hn. split; [assumption|]. split; [assumption|]. split; [assumption|].
  split; [now apply strips_ok_heap_ok|]. split; [now apply strips_ok_heap_ok|].
  split; [reflexivity|]. split; [assumption|]. split; [assumption|].
  split.
  { eapply Forall_impl; [exact Hrs|]. cbn [strips].
    intros e (l & H1 & _ & H2 & H3 & H4). exists l. auto. }
  split; [assumption|]. split; [assumption|]. split; [assumption|].
  split.
  { destruct (chain_fold _ _ _ _ _ _ Hch) as (f0 & Hf0 & Hl0 & _).
    cbn [folds] in Hf. rewrite Hf in Hf0. injection Hf0 as <-. exact Hl0. }
  split; [assumption|]. split; [assumption|].
  exists fp2. auto.
Qed.

(** ** Strip utilities and kernels *)

(** C4, as amended (doubling law).  For a strip [s] of level [n < 30]
    with [2^n + 1] entries, [double_strip] returns a strip at a location
    that was not allocated, of level [n + 1] with [2^(n+1) + 1] entries,
    whose even entries are the entries of [s] in order and whose odd
    entries are 0; every strip of the store, [s] included, is left as it
    was, and nothing else changes. *)
Theorem double_strip_law {E : Env} (n : nat) (st : state) (l : positive) (s : Strip) :
  strips st !! l = Some s -> sized n s -> n < 30 ->
  exists r d' st',
    double_strip (Some l) st = Ok (Some r) st' /\
    strips st !! r = None /\
    strips st' !! r = Some (mkStrip (Z.of_nat n + 1) d') /\
    length d' = 2 ^ (n + 1) + 1 /\
    (forall i, i <= 2 ^ n -> d' !! (2 * i) = s_d s !! i) /\
    (forall i, i < 2 ^ n -> d' !! (2 * i + 1) = Some (Fin 0)) /\
    strips st' !! l = Some s /\
    (forall x sx, strips st !! x = Some sx -> strips st' !! x = Some sx) /\
    folds st' = folds st /\ draws st' = draws st /\ trace st' = trace st.
Proof.
  intros Hl [Hlev Hlen] Hb. destruct st as [hs fs k t]. destruct s as [lv d].
  cbn [strips s_level s_d] in *. subst lv.
  set (r := fresh (dom hs)).
  assert (Hr : hs !! r = None) by apply fresh_strip_None.
  assert (Hkeep : forall x sx v, hs !! x = Some sx -> <[r := v]> hs !! x = Some sx).
  { intros x sx v Hx. apply insert_other; [assumption|]. rewrite Hr. discriminate. }
  exists r, (doubled r n d). eexists.
  split; [apply double_strip_ok; eassumption|].
  cbn [strips folds draws trace].
  split; [assumption|].
  split; [rewrite lookup_insert_eq; do 2 f_equal; lia|].
  replace (n + 1) with (S n) by lia.
  split; [apply doubled_length|].
  split; [intros i Hi; now apply doubled_even|].
  split; [intros i Hi; now apply doubled_odd|].
  split; [now apply Hkeep|].
  split; [intros x sx Hx; now apply Hkeep|].
  repeat split; reflexivity.
Qed.

(** C6, as amended ([mid_update]).  With [left] of level [n <= 30] and
    [new], [right] of level [n + 1], each of its size, and [new] another
    strip than [right]: [mid_update] returns, drawing [2 * 2^n + 1]
    samples in order, and leaves in [new], for each [i < 2^n], at [2i] the sample scaled by
    [scale] plus the mean of [left[i]] and [right[2i]], at [2i+1] the
    sample scaled by [midscale] plus the mean of [left[i]], [left[i+1]],
    [right[2i]] and [right[2i+2]], and at the last index [2 * 2^n] the
    same midpoint formula on [left[2^n]] and [right[2 * 2^n]]. *)
Theorem mid_update_formulas {E : Env} (n : nat) (scale midscale : Length) (st : state)
    (ll ln lr : positive) (sl sn sr : Strip) :
  lr <> ln ->
  strips st !! ll = Some sl -> sized n sl ->
  strips st !! ln = Some sn -> sized (S n) sn ->
  strips st !! lr = Some sr -> sized (S n) sr ->
  n <= 30 ->
  exists d',
    mid_update (Some ll) (Some ln) (Some lr) scale midscale st =
      Ok tt (mkState (<[ln := mkStrip (Z.of_nat (S n)) d']> (strips st)) (folds st)
                     (draws st + 2 * 2 ^ n + 1) (trace st)) /\
    length d' = 2 ^ S n + 1 /\
    (forall i, i < 2 ^ n ->
       d' !! (2 * i) =
         Some (scale * noise (draws st + 2 * i) +
               (cell (s_d sl) i + cell (s_d sr) (2 * i)) / two)%H /\
       d' !! (2 * i + 1) =
         Some (midscale * noise (draws st + 2 * i + 1) +
               (cell (s_d sl) i + cell (s_d sl) (i + 1) +
                cell (s_d sr) (2 * i) + cell (s_d sr) (2 * i + 2)) / four)%H) /\
    d' !! (2 * 2 ^ n) =
      Some (scale * noise (draws st + 2 * 2 ^ n) +
            (cell (s_d sl) (2 ^ n) + cell (s_d sr) (2 * 2 ^ n)) / two)%H.
Proof.
  intros Hne Hl [Ll Sl] Hn [Ln Sn] Hr [Lr Sr] Hb.
  destruct st as [hs fs k t]. destruct sl as [vl dl], sn as [vn dn], sr as [vr dr].
  cbn [strips folds draws trace s_level s_d] in *. subst vl vn vr.
  exists (mid_data n scale midscale k dl dr dn).
  split; [now apply mid_update_ok|].
  split; [unfold mid_data; now rewrite length_insert, mid_list_length|].
  split.
  - intros i Hi. unfold mid_data.
    rewrite !list_lookup_insert_ne by lia. split.
    + apply (mid_list_even (2 ^ n) 0 0 0 scale midscale k dl dr dn i); pow_lia.
    + apply (mid_list_odd (2 ^ n) 0 0 0 scale midscale k dl dr dn i); pow_lia.
  - unfold mid_data. apply list_lookup_insert_eq. rewrite mid_list_length. pow_lia.
Qed.

(** C7 (level-0 base case).  On a fold of level 0, whatever its [state]
    and its other fields hold, [next_strip] returns a strip at a location
    that was not allocated, of level 0, with the two entries
    [mean + scale * g] for the next two samples [g] of the source; the
    folds are not changed, and the trace records this one call and no
    other. *)
Theorem next_strip_level0 {E : Env} (st : state) (p : positive) (f : Fold) :
  folds st !! p = Some f -> f_level f = 0%Z ->
  exists l,
    strips st !! l = None /\
    next_strip (Some p) st =
      Ok (Some l)
         (mkState (<[l := mkStrip 0 [(f_mean f + f_scale f * noise (draws st))%H;
                                     (f_mean f + f_scale f * noise (S (draws st)))%H]]>
                     (strips st))
                  (folds st) (S (S (draws st))) (EvNextStrip (Some p) :: trace st)).
Proof.
  intros Hf Hl. destruct st as [hs fs k t]. cbn [strips folds draws trace] in *.
  exists (fresh (dom hs)). split; [apply fresh_strip_None|].
  unfold next_strip, fuel_for. cbn [mbind option_bind folds]. rewrite Hf, Hl.
  now apply next_strip_rec_level0.
Qed.

(** C8 (consistency enforcement).  On three strips of the store whose
    levels do not fit, [mid_update] and [recalc] stop in
    [printf("mid_update: inconsistant sizes\n"); exit(2)], in the state
    they were called in: no entry was written and no sample drawn. *)
Theorem level_mismatch_is_fatal {E : Env} (st : state) (ll ln lr : positive)
    (sl sn sr : Strip) (scale midscale : Length) :
  strips st !! ll = Some sl -> strips st !! ln = Some sn -> strips st !! lr = Some sr ->
  (s_level sl <> (s_level sn - 1)%Z \/ s_level sn <> s_level sr ->
   mid_update (Some ll) (Some ln) (Some lr) scale midscale st = Fatal msg_sizes 2 st) /\
  (s_level sl <> s_level sn \/ s_level sn <> s_level sr ->
   recalc (Some ll) (Some ln) (Some lr) scale st = Fatal msg_sizes 2 st).
Proof.
  intros Hl Hn Hr. destruct st as [hs fs k t]. cbn [strips] in *.
  split; intros Hbad.
  - unfold mid_update.
    mstep. { eapply get_strip_ok. exact Hl. }
    mstep. { eapply get_strip_ok. exact Hn. }
    destruct (decide (s_level sl <> (s_level sn - 1)%Z)) as [H1|H1].
    + mstep. { reflexivity. } reflexivity.
    + mstep. { mstep. { eapply get_strip_ok. exact Hr. } reflexivity. }
      rewrite bool_decide_eq_true_2 by tauto. reflexivity.
  - unfold recalc.
    mstep. { eapply get_strip_ok. exact Hl. }
    mstep. { eapply get_strip_ok. exact Hn. }
    destruct (decide (s_level sl <> s_level sn)) as [H1|H1].
    + mstep. { reflexivity. } reflexivity.
    + mstep. { mstep. { eapply get_strip_ok. exact Hr. } reflexivity. }
      rewrite bool_decide_eq_true_2 by tauto. reflexivity.
Qed.

(** ** Sessions *)


(** C3 (scenario).  [make_fold(1, false, 1.0, 0, 0, 0.5)] with the
    Gaussian source fixed at 0: every call of [next_strip] returns a
    strip of level 1 whose three entries are 0: the first, the second,
    and every one after them. *)
Theorem scenario_level1_all_zero (pw : Qc -> Qc -> Qc) (sq : Qc -> Qc)
    (ind : positive -> nat -> Qc) (cnt : nat) :
  exists p st1 rs st2,
    make_fold (E := zero_noise pw sq ind) 1 0 1%Qc 0%Qc 0%Qc (Q2Qc (1 # 2)) empty_state =
      Ok (Some p) st1 /\
    next_strips (E := zero_noise pw sq ind) cnt (Some p) st1 = Ok rs st2 /\
    length rs = cnt /\
    Forall (fun e => is_Some (fst e) /\ s_level (snd e) = 1%Z /\
                     s_d (snd e) = [Fin 0; Fin 0; Fin 0]) rs.
Proof.
  destruct (session_post (E := zero_noise pw sq ind) (Some (Fin 0)) 1 0 1%Qc 0%Qc 0%Qc
              (Q2Qc (1 # 2)) cnt empty_state)
    as (p & st1 & rs & st2 & evs & f & f2 & Hmk & Hrun & Hlen & _ & _ & _ & _ & _ & Hrs & _).
  - intros _. apply zero_noise_quiet.
  - intros m Hm. injection Hm as <-.
    split; [reflexivity|]. split; [reflexivity|]. apply zero_noise_finite_scales.
  - lia.
  - apply strips_ok_empty.
  - exists p, st1, rs, st2. repeat split; try assumption.
    eapply Forall_impl; [exact Hrs|].
    intros e (l & Hl & _ & [Hlev Hsize] & Hflat).
    split; [rewrite Hl; eauto|]. split; [exact Hlev|].
    change (Z.to_nat 1) with 1 in Hsize. cbn in Hsize.
    specialize (Hflat (Fin 0) eq_refl).
    destruct (s_d (snd e)) as [|a [|b [|c [|? ?]]]]; try discriminate.
    rewrite (Hflat 0 a eq_refl), (Hflat 1 b eq_refl), (Hflat 2 c eq_refl).
    reflexivity.
Qed.

(** C9 (kernel preconditions).  On a chain built by [make_fold], which
    builds one for [levels] from 0 to 30, any number of calls of
    [next_strip] return: no run ends in [exit] or in undefined
    behaviour.  Every kernel call they make is on strips of the
    store with the levels the kernel expects: [side_update] on a strip of
    the caller's level [L >= 1], [mid_update] on levels [(L-1, L, L)],
    [recalc] on [(L, L, L)]. *)
Theorem kernel_preconditions_hold {E : Env} (levels smooth : Z)
    (len start mean fdim : Height) (cnt : nat) (st0 : state) :
  (0 <= levels <= 30)%Z -> strips_ok st0 ->
  exists p st1 rs st2 evs,
    make_fold levels smooth len start mean fdim st0 = Ok (Some p) st1 /\
    next_strips cnt (Some p) st1 = Ok rs st2 /\
    trace st2 = evs ++ trace st1 /\
    calls_on (Some p) evs = cnt /\
    Forall kernel_ok evs.
Proof.
  intros Hlev Hok.
  destruct (session_post None levels smooth len start mean fdim cnt st0)
    as (p & st1 & rs & st2 & evs & f & f2 & Hmk & Hrun & _ & _ & _ & Htr & Hev & Hc & _);
    try assumption; try discriminate; try congruence.
  exists p, st1, rs, st2, evs. auto.
Qed.

(** C2 (amortization ratio).  Take the trace of a session: [make_fold]
    with [levels] from 1 to 30, then any number of calls of [next_strip].
    For every fold [q] of the chain above level 0, the fold returned by
    [make_fold] included, and every window [W] of the trace, oldest event
    first, that begins with a call on [q] and ends before a call on [q]
    or with the session: if [W] holds [2 * k] calls on [q], it holds
    exactly [k] calls on the [next] fold of [q]. *)
Theorem amortization_ratio {E : Env} (levels smooth : Z) (len start mean fdim : Height)
    (cnt : nat) (st0 : state) :
  (1 <= levels <= 30)%Z -> strips_ok st0 ->
  exists p st1 rs st2 evs,
    make_fold levels smooth len start mean fdim st0 = Ok (Some p) st1 /\
    next_strips cnt (Some p) st1 = Ok rs st2 /\
    trace st2 = evs ++ trace st1 /\
    calls_on (Some p) evs = cnt /\
    forall i q fq,
      nth_next (folds st1) i p = Some q -> folds st1 !! q = Some fq ->
      (0 < f_level fq)%Z ->
      is_Some (f_next fq) /\
      forall A W B k,
        reverse evs = A ++ W ++ B ->
        starts_with (EvNextStrip (Some q)) W ->
        (B = [] \/ starts_with (EvNextStrip (Some q)) B) ->
        calls_on (Some q) W = 2 * k ->
        calls_on (f_next fq) W = k.
Proof.
  intros Hlev Hok.
  destruct (session_post None levels smooth len start mean fdim cnt st0)
    as (p & st1 & rs & st2 & evs & f0 & f2 & Hmk & Hrun & _ & _ & _ & Htr & _ & Hcnt & _ &
        _ & _ & _ & _ & [Hnn Hcc] & Hst & fp & Hch & Hnd);
    try assumption; try discriminate; try congruence; try lia.
  exists p, st1, rs, st2, evs.
  split; [assumption|]. split; [assumption|]. split; [assumption|]. split; [assumption|].
  intros i q fq Hq Hfq Hl.
  destruct (Hcc i q fq Hq Hfq Hl) as (fq' & c & Hfq' & Hnx & Hlq & _ & Hpat & _).
  destruct (chain_nth_next _ _ _ _ _ _ i q fq' Hch) as (x & Hx & Hxq);
    [now rewrite Hnn | assumption | lia |].
  rewrite Hnx in Hx.
  split; [rewrite Hx; eauto|].
  intros A W B k HAWB HW HB Hcount.
  assert (Hne : EvNextStrip (Some q) <> EvNextStrip (f_next fq)) by (rewrite Hx; congruence).
  unfold call_events in Hpat. rewrite HAWB, !filter_app in Hpat.
  rewrite !calls_on_occurrences in *.
  set (P := fun e : event => e = EvNextStrip (Some q) \/ e = EvNextStrip (f_next fq)) in *.
  assert (Hocc : forall e l, P e -> occurrences e (filter P l) = occurrences e l).
  { intros e l He. unfold occurrences. f_equal. apply list_filter_filter_l.
    intros y ->. exact He. }
  rewrite <- (Hocc (EvNextStrip (f_next fq)) W) by (right; reflexivity).
  rewrite <- (Hocc (EvNextStrip (Some q)) W) in Hcount by (left; reflexivity).
  eapply (pat_window _ _ _ _ _ _ _ k Hne (eq_sym Hpat)); [| |exact Hcount].
  - destruct HW as [w ->]. exists (filter P w). apply filter_cons_True. now left.
  - destruct HB as [->|[w ->]]; [now left|].
    right. exists (filter P w). apply filter_cons_True. now left.
Qed.

(** C10 (the [old] slot after a [START] call).  Take any state reached
    from [make_fold], with [levels] from 1 to 30, by calls of [next_strip]
    on the fold it returned, and any fold of the chain of a level above 0
    (the calls that [next_strip] makes on the folds further down the
    chain are made in such states, the trace apart).
    A call of [next_strip] on that fold returns a strip [r] of the store
    and leaves [level], [smooth], [mean], [scale], [midscale] and [next]
    of the fold as they were.  If it ran the [START] case, the [old] slot
    was [r] before the call and still is after it, and the fold is in
    state [STORE]; if it ran the [STORE] case, [r] was [regen], [old] now
    holds what [working] held, and the fold is in state [START]. *)
Theorem start_call_keeps_old {E : Env} (levels smooth : Z) (len start mean fdim : Height)
    (c0 : nat) (st0 : state) :
  (1 <= levels <= 30)%Z -> strips_ok st0 ->
  exists p st1 rs0 st2,
    make_fold levels smooth len start mean fdim st0 = Ok (Some p) st1 /\
    next_strips c0 (Some p) st1 = Ok rs0 st2 /\
    forall i q f,
      nth_next (folds st2) i p = Some q -> folds st2 !! q = Some f ->
      (0 < f_level f)%Z ->
      exists r st3 f' s,
        next_strip (Some q) st2 = Ok (Some r) st3 /\
        folds st3 !! q = Some f' /\ strips st3 !! r = Some s /\
        f_level f' = f_level f /\ f_smooth f' = f_smooth f /\ f_mean f' = f_mean f /\
        f_scale f' = f_scale f /\ f_midscale f' = f_midscale f /\ f_next f' = f_next f /\
        ((f_state f = START /\ f_state f' = STORE /\ f_old f = Some r /\ f_old f' = Some r)
         \/
         (f_state f = STORE /\ f_state f' = START /\ f_regen f = Some r /\
          f_old f' = f_working f)).
Proof.
  intros Hlev Hok.
  destruct (session_post None levels smooth len start mean fdim c0 st0)
    as (p & st1 & rs0 & st2 & evs0 & f0 & f2 & Hmk & Hrun0 & _ & _ & Hok2 & _ & _ & _ & _ &
        _ & _ & _ & _ & _ & _ & fp & Hch & Hnd);
    try assumption; try discriminate; try congruence; try lia.
  exists p, st1, rs0, st2.
  split; [assumption|]. split; [assumption|].
  intros i q f Hq Hf Hl.
  destruct st2 as [hs2 fs2 k2 t2]. cbn [strips folds trace] in *.
  apply strips_ok_heap_ok in Hok2. cbn [strips] in Hok2.
  destruct (chain_nth _ _ _ _ _ _ _ _ Hch Hq) as (Hi & f1 & Hf1 & Hl1).
  rewrite Hf in Hf1. injection Hf1 as <-.
  destruct (chain_sub _ _ _ _ _ _ _ _ Hch Hnd Hq) as (fq & Hchq & Hndq).
  destruct (next_strip_post None ltac:(congruence) _ q fq hs2 fs2 k2 t2 Hchq Hndq Hok2)
    as (r & hs3 & fs3 & k3 & evs & fp3 & g & f' & s & Hrun & _ & _ & _ & Hr & _ & _ & _ & _ &
        _ & _ & _ & Hg & Hf' & Hstep & _).
  rewrite Hf in Hg. injection Hg as <-.
  destruct (Z.to_nat levels - i) as [|j] eqn:Hn; [lia|].
  destruct Hstep as (H1 & H2 & H3 & H4 & H5 & H6 & Hcase).
  exists r, (mkState hs3 fs3 k3 (evs ++ t2)), f', s.
  cbn [strips folds]. tauto.
Qed.

(** * Further properties of the code *)

(** ** Strip utilities *)

Section Utilities.
Context {E : Env}.

(** X1 ([set_strip]).  For a level [n] from 0 to 30, [set_strip] returns
    a strip at a location that was not allocated, of level [n], whose
    [2^n + 1] entries all hold [value]; every other strip, the folds, the number of
    samples drawn and the trace are as they were. *)
Theorem set_strip_law (n : nat) (value : Height) (st : state) :
  n <= 30 ->
  exists l,
    strips st !! l = None /\
    set_strip (Z.of_nat n) value st =
      Ok (Some l)
         (mkState (<[l := mkStrip (Z.of_nat n) (replicate (2 ^ n + 1) value)]> (strips st))
                  (folds st) (draws st) (trace st)).
Proof.
  intros Hb. destruct st as [hs fs k t]. cbn [strips folds draws trace].
  exists (fresh (dom hs)). split; [apply fresh_strip_None|].
  rewrite set_strip_ok by lia. now rewrite points_to_nat.
Qed.

(** X3 (negative levels).  Nothing checks the sign of a level: with a
    negative level, [make_strip] shifts by a negative count, which is
    undefined behaviour, and so do [set_strip], which calls it first, and
    [make_fold], whose first action at a level other than 0 is a call of
    [set_strip]. *)
Theorem negative_level_is_undefined (level : Z) (st : state) :
  (level < 0)%Z ->
  make_strip level st = Undefined /\
  (forall value, set_strip level value st = Undefined) /\
  (forall smooth len start mean fdim,
     make_fold level smooth len start mean fdim st = Undefined).
Proof.
  intros Hneg. split; [now apply make_strip_neg|].
  split; [intros value; now apply set_strip_neg|].
  intros smooth len start mean fdim. unfold make_fold.
  replace (Z.to_nat level) with 0 by lia. cbn [make_fold_rec].
  destruct (decide (level ≠ 0%Z)) as [_|Heq]; [|lia].
  apply bind_Undefined. apply bind_Undefined. now apply set_strip_neg.
Qed.

(** X2 ([free_strip]).  Freeing the strip that [make_strip] or
    [set_strip] (at a level from 0 to 30) or [double_strip] (on a strip of
    a level below 30) has just returned leaves the state exactly as it
    was before the allocation.  [free_strip] does not check its argument:
    a second [free_strip] on the same pointer, and [free_strip(NULL)], are
    undefined behaviour. *)
Theorem free_strip_undoes_allocation (st : state) :
  (forall level, (0 <= level <= 30)%Z ->
     (p <- make_strip level ;; free_strip p) st = Ok tt st) /\
  (forall level value, (0 <= level <= 30)%Z ->
     (p <- set_strip level value ;; free_strip p) st = Ok tt st) /\
  (forall l s n, strips st !! l = Some s -> sized n s -> n < 30 ->
     (p <- double_strip (Some l) ;; free_strip p) st = Ok tt st) /\
  (forall l st', free_strip (Some l) st = Ok tt st' ->
     free_strip (Some l) st' = Undefined) /\
  free_strip None st = Undefined.
Proof.
  destruct st as [hs fs k t].
  pose proof (fresh_strip_None hs) as Hfresh.
  split; [|split; [|split; [|split]]].
  - intros level Hl.
    mstep. { now apply make_strip_ok. }
    erewrite free_strip_ok by apply lookup_insert_eq.
    now rewrite delete_insert_id.
  - intros level value Hl.
    mstep. { now apply set_strip_ok. }
    erewrite free_strip_ok by apply lookup_insert_eq.
    now rewrite delete_insert_id.
  - intros l [ls sd] n Hs [Hlev Hlen] Hb. cbn [strips s_level s_d] in *. subst ls.
    mstep. { eapply double_strip_ok; eassumption. }
    erewrite free_strip_ok by apply lookup_insert_eq.
    now rewrite delete_insert_id.
  - intros l st' Hfree. unfold free_strip in *. cbn [strips] in *.
    destruct (hs !! l) as [s|]; [|discriminate].
    injection Hfree as <-. cbn [strips set_strips].
    now rewrite lookup_delete_eq.
  - reflexivity.
Qed.

End Utilities.

Section KernelLaws.
Context {E : Env}.

(** X4 ([side_update]).  On a strip of level [n + 1] with [2^(n+1) + 1]
    entries, [n] being at most 30, [side_update] returns, draws [2^n]
    samples, leaves the even entries as they are, and sets the odd entry [2i + 1] to
    [scale * g_i + (d[2i] + d[2i+2]) / 2], [g_i] being the [i]-th sample
    drawn by the call; no other strip changes. *)
Theorem side_update_formulas (n : nat) (scale : Length) (st : state) (l : positive)
    (s : Strip) :
  strips st !! l = Some s -> sized (S n) s -> n <= 30 ->
  exists d',
    side_update (Some l) scale st =
      Ok tt (mkState (<[l := mkStrip (Z.of_nat (S n)) d']> (strips st)) (folds st)
                     (draws st + 2 ^ n) (trace st)) /\
    length d' = 2 ^ S n + 1 /\
    (forall i, i <= 2 ^ n -> d' !! (2 * i) = s_d s !! (2 * i)) /\
    (forall i, i < 2 ^ n ->
       d' !! (2 * i + 1) =
       Some (scale * noise (draws st + i) +
             (cell (s_d s) (2 * i) + cell (s_d s) (2 * i + 2)) / two)%H).
Proof.
  destruct st as [hs fs k t], s as [ls d]. cbn [strips folds draws trace s_level s_d].
  intros Hl [Hlev Hlen] Hb. cbn [s_level s_d] in *. subst ls.
  exists (side_list (2 ^ n) 0 scale k d).
  split; [now apply side_update_ok|].
  split; [now rewrite side_list_length|].
  split.
  - intros i Hi. apply side_list_other. intros; lia.
  - intros i Hi. apply (side_list_odd (2 ^ n) 0 scale k d i); pow_lia.
Qed.

(** Two expressions that differ only in how their indices are written. *)
Ltac idx_eq := repeat first [reflexivity | lia | progress f_equal].

Lemma recalc_list_other count : forall l g r scale n0 ld rd gd j,
  (forall i, i < count -> j <> g + 2 * i) ->
  recalc_list count l g r scale n0 ld rd gd !! j = gd !! j.
Proof.
  induction count as [|c IH]; intros l g r scale n0 ld rd gd j Hj;
    cbn [recalc_list]; [reflexivity|].
  rewrite IH.
  - apply list_lookup_insert_ne. specialize (Hj 0). lia.
  - intros i Hi. specialize (Hj (S i)). lia.
Qed.

Lemma recalc_list_at count : forall l g r scale n0 ld rd gd i,
  1 <= g -> g + 2 * count <= length gd -> i < count ->
  recalc_list count l g r scale n0 ld rd gd !! (g + 2 * i) =
  Some (scale * noise (n0 + i) +
        (cell ld (l + 2 * i) + cell gd (g + 2 * i + 1) + cell gd (g + 2 * i - 1) +
         cell rd (r + 2 * i)) / four)%H.
Proof.
  induction count as [|c IH]; intros l g r scale n0 ld rd gd i Hg Hb Hi; [lia|].
  cbn [recalc_list].
  destruct i as [|i].
  - rewrite recalc_list_other by (intros; lia).
    replace (g + 2 * 0) with g by lia. replace (l + 2 * 0) with l by lia.
    replace (r + 2 * 0) with r by lia. replace (n0 + 0) with n0 by lia.
    apply list_lookup_insert_eq. lia.
  - replace (g + 2 * S i) with (g + 2 + 2 * i) by lia.
    rewrite IH by (rewrite ?length_insert; lia).
    rewrite !cell_insert_ne by lia.
    idx_eq.
Qed.

(** X5 ([recalc]).  On three strips of level [n + 1] with [2^(n+1) + 1]
    entries, [n] being at most 30 and [regen] being neither [left] nor
    [right], [recalc] returns,
    draws [2^n + 1] samples and rewrites the even entries of [regen] only:
    the first and the last one from three neighbours divided by 3, the
    others from four neighbours divided by 4, each plus [scale] times the
    next sample.  The neighbours in [regen] are odd entries, which the
    call does not change. *)
Theorem recalc_formulas (n : nat) (scale : Length) (st : state) (ll lg lr : positive)
    (sl sg sr : Strip) :
  ll <> lg -> lr <> lg ->
  strips st !! ll = Some sl -> sized (S n) sl ->
  strips st !! lg = Some sg -> sized (S n) sg ->
  strips st !! lr = Some sr -> sized (S n) sr ->
  n <= 30 ->
  exists d',
    recalc (Some ll) (Some lg) (Some lr) scale st =
      Ok tt (mkState (<[lg := mkStrip (Z.of_nat (S n)) d']> (strips st)) (folds st)
                     (draws st + 2 ^ n + 1) (trace st)) /\
    length d' = 2 ^ S n + 1 /\
    (forall i, i < 2 ^ n -> d' !! (2 * i + 1) = s_d sg !! (2 * i + 1)) /\
    d' !! 0 =
      Some (scale * noise (draws st) +
            (cell (s_d sl) 0 + cell (s_d sg) 1 + cell (s_d sr) 0) / three)%H /\
    (forall i, 1 <= i < 2 ^ n ->
       d' !! (2 * i) =
       Some (scale * noise (draws st + i) +
             (cell (s_d sl) (2 * i) + cell (s_d sg) (2 * i + 1) +
              cell (s_d sg) (2 * i - 1) + cell (s_d sr) (2 * i)) / four)%H) /\
    d' !! (2 * 2 ^ n) =
      Some (scale * noise (draws st + 2 ^ n) +
            (cell (s_d sl) (2 * 2 ^ n) + cell (s_d sg) (2 * 2 ^ n - 1) +
             cell (s_d sr) (2 * 2 ^ n)) / three)%H.
Proof.
  destruct st as [hs fs k t], sl as [l1 ld], sg as [l2 gd], sr as [l3 rd].
  cbn [strips folds draws trace s_level s_d].
  intros Hlg Hrg Hl [Ll Sl] Hg [Lg Sg] Hr [Lr Sr] Hb. cbn [s_level s_d] in *. subst l1 l2 l3.
  pose proof (pow2_pos n) as Hpos.
  exists (recalc_data n scale k ld rd gd).
  split; [now apply recalc_ok|].
  split; [now rewrite recalc_data_length|].
  unfold recalc_data. cbv zeta.
  set (a := (scale * noise k + (cell ld 0 + cell gd 1 + cell rd 0) / three)%H).
  set (g2 := recalc_list (2 ^ n - 1) 2 2 2 scale (S k) ld rd (<[0 := a]> gd)).
  assert (Hodd : forall j, g2 !! (2 * j + 1) = gd !! (2 * j + 1)).
  { intros j. unfold g2. rewrite recalc_list_other by (intros; lia).
    apply list_lookup_insert_ne. lia. }
  assert (Hlen2 : length g2 = 2 ^ S n + 1).
  { unfold g2. now rewrite recalc_list_length, length_insert. }
  split.
  { intros i Hi. rewrite list_lookup_insert_ne by lia. apply Hodd. }
  split.
  { rewrite list_lookup_insert_ne by lia. unfold g2.
    rewrite recalc_list_other by (intros; lia).
    apply list_lookup_insert_eq. pow_lia. }
  split.
  { intros i Hi. rewrite list_lookup_insert_ne by lia. unfold g2.
    replace (2 * i) with (2 + 2 * (i - 1)) at 1 by lia.
    rewrite recalc_list_at by (rewrite ?length_insert; pow_lia).
    rewrite !cell_insert_ne by lia.
    idx_eq. }
  rewrite list_lookup_insert_eq by pow_lia.
  do 4 f_equal. unfold cell.
  replace (2 * 2 ^ n - 1) with (2 * (2 ^ n - 1) + 1) by lia.
  now rewrite Hodd.
Qed.

(** X6 (kernels at level 0).  [side_update] and [recalc] compute
    [1 << (level - 1)]: on strips of level 0 or below (for [recalc]: three
    strips of one such level, so that the size check passes) the shift
    count is negative and the call has undefined behaviour. *)
Theorem kernels_need_level_1 (st : state) :
  (forall l s scale,
     strips st !! l = Some s -> (s_level s <= 0)%Z ->
     side_update (Some l) scale st = Undefined) /\
  (forall ll lg lr sl sg sr scale,
     strips st !! ll = Some sl -> strips st !! lg = Some sg -> strips st !! lr = Some sr ->
     s_level sl = s_level sg -> s_level sg = s_level sr -> (s_level sg <= 0)%Z ->
     recalc (Some ll) (Some lg) (Some lr) scale st = Undefined).
Proof.
  destruct st as [hs fs k t]. cbn [strips]. split.
  - intros l s scale Hl Hlev. unfold side_update.
    mstep. { eapply get_strip_ok. exact Hl. }
    apply bind_Undefined. apply shl1_neg. lia.
  - intros ll lg lr sl sg sr scale Hl Hg Hr H1 H2 Hlev. unfold recalc.
    mstep. { eapply get_strip_ok. exact Hl. }
    mstep. { eapply get_strip_ok. exact Hg. }
    destruct (decide (s_level sl ≠ s_level sg)) as [Hbad|_]; [contradiction|].
    mstep. { mstep. { eapply get_strip_ok. exact Hr. } reflexivity. }
    rewrite bool_decide_eq_false_2 by (intros Hx; now apply Hx).
    apply bind_Undefined. apply shl1_neg. lia.
Qed.

(** X7 (refining a strip).  [double_strip] followed by [side_update] on
    its result, as [next_strip] does with [new] and [regen], turns a strip
    of level [n < 30] into a new strip of level [n + 1] that keeps the
    entries of the old one at its even places and holds, at the odd place
    [2i + 1], the mean of the entries [i] and [i + 1] of the old strip
    plus [scale] times the [i]-th sample drawn. *)
Theorem double_then_side_update (n : nat) (scale : Length) (st : state) (l : positive)
    (s : Strip) :
  strips st !! l = Some s -> sized n s -> n < 30 ->
  exists r d',
    strips st !! r = None /\
    (p <- double_strip (Some l) ;; side_update p scale ;;; ret p) st =
      Ok (Some r)
         (mkState (<[r := mkStrip (Z.of_nat (S n)) d']> (strips st)) (folds st)
                  (draws st + 2 ^ n) (trace st)) /\
    length d' = 2 ^ S n + 1 /\
    (forall i, i <= 2 ^ n -> d' !! (2 * i) = s_d s !! i) /\
    (forall i, i < 2 ^ n ->
       d' !! (2 * i + 1) =
       Some (scale * noise (draws st + i) +
             (cell (s_d s) i + cell (s_d s) (i + 1)) / two)%H).
Proof.
  destruct st as [hs fs k t], s as [ls d]. cbn [strips folds draws trace s_level s_d].
  intros Hl [Hlev Hlen] Hb. cbn [s_level s_d] in *. subst ls.
  set (r := fresh (dom hs)).
  set (dd := doubled r n d).
  assert (Hdd : length dd = 2 ^ S n + 1) by apply doubled_length.
  assert (Hev : forall i, i <= 2 ^ n -> cell dd (2 * i) = cell d i).
  { intros i Hi. unfold cell, dd. now rewrite doubled_even. }
  exists r, (side_list (2 ^ n) 0 scale k dd).
  split; [apply fresh_strip_None|].
  split.
  { mstep. { eapply double_strip_ok; eassumption. }
    mstep. { eapply side_update_ok; [apply lookup_insert_eq | exact Hdd | lia]. }
    unfold ret. now rewrite insert_insert_eq. }
  split; [now rewrite side_list_length|].
  split.
  - intros i Hi. rewrite side_list_other by (intros; lia).
    now apply doubled_even.
  - intros i Hi.
    rewrite (side_list_odd (2 ^ n) 0 scale k dd i) by pow_lia.
    cbn [plus]. rewrite (Hev i) by lia.
    replace (2 * i + 2) with (2 * (i + 1)) by lia.
    rewrite (Hev (i + 1)) by lia. reflexivity.
Qed.

(** X8 (invalid state).  On a fold of a level other than 0 whose [state]
    is neither [START] nor [STORE], [next_strip] prints
    "next_strip: invalid state" and exits with code 3; it has changed no
    strip and no fold and has drawn no sample. *)
Theorem next_strip_invalid_state (st : state) (p : positive) (f : Fold) :
  folds st !! p = Some f ->
  f_level f <> 0%Z -> f_state f <> START -> f_state f <> STORE ->
  next_strip (Some p) st =
    Fatal msg_state 3
      (mkState (strips st) (folds st) (draws st) (EvNextStrip (Some p) :: trace st)).
Proof.
  destruct st as [hs fs k t]. cbn [strips folds draws trace].
  intros Hf Hl H1 H2. unfold next_strip, fuel_for. cbn [mbind option_bind folds].
  rewrite Hf. cbn [next_strip_rec].
  mstep. { apply emit_ok. }
  mstep. { apply get_fold_ok. exact Hf. }
  destruct (decide (f_level f = 0%Z)); [contradiction|].
  destruct (decide (f_state f = START)); [contradiction|].
  destruct (decide (f_state f = STORE)); [contradiction|].
  reflexivity.
Qed.

End KernelLaws.

(** ** Footprints *)

Lemma chain_footprint fl n : forall p fp hs fs,
  chain fl n p fp hs fs -> footprint n fs p = fp.
Proof.
  induction n as [|k IH]; intros p fp hs fs (f & Hf & Hl & Hm & H).
  - destruct H as [-> _]. reflexivity.
  - destruct H as (q & fq & Hn & Hq & [(Hst & r & o & Hr & Ho & -> & _)
                                      |(Hst & r & w & nw & Hr & Hw & Hnw & -> & _)]);
      cbn [footprint]; rewrite Hf, Hn, Hst, (IH q fq hs fs Hq).
    + destruct (decide (START = START)); [|contradiction]. now rewrite Hr, Ho.
    + destruct (decide (STORE = START)); [discriminate|]. now rewrite Hr, Hw, Hnw.
Qed.

Lemma nth_next_agree fs fs' i : forall p,
  (forall i x, nth_next fs i p = Some x -> fs' !! x = fs !! x) ->
  nth_next fs' i p = nth_next fs i p.
Proof.
  induction i as [|i IH]; intros p H; [reflexivity|].
  cbn [nth_next]. rewrite (H 0 p eq_refl).
  destruct (fs !! p) as [f|] eqn:Hf; [|reflexivity].
  destruct (f_next f) as [q|] eqn:Hn; [|reflexivity].
  apply IH. intros i' x Hx. apply (H (S i')).
  now rewrite (nth_next_top fs p f q).
Qed.

Lemma footprint_agree fs fs' n : forall p,
  (forall i x, nth_next fs i p = Some x -> fs' !! x = fs !! x) ->
  footprint n fs' p = footprint n fs p.
Proof.
  induction n as [|k IH]; intros p H; [reflexivity|].
  cbn [footprint]. rewrite (H 0 p eq_refl).
  destruct (fs !! p) as [f|] eqn:Hf; [|reflexivity].
  destruct (f_next f) as [q|] eqn:Hn; [|reflexivity].
  f_equal. apply IH. intros i' x Hx. apply (H (S i')).
  now rewrite (nth_next_top fs p f q).
Qed.

Lemma chain_nth_exists fl n : forall p fp hs fs i,
  chain fl n p fp hs fs -> i <= n -> exists q, nth_next fs i p = Some q.
Proof.
  induction n as [|k IH]; intros p fp hs fs i Hch Hi.
  - replace i with 0 by lia. now exists p.
  - destruct i as [|i]; [now exists p|].
    destruct Hch as (f & Hf & _ & _ & q & fq & Hn & Hq & _).
    rewrite (nth_next_top fs p f q) by assumption.
    apply (IH q fq hs fs); [assumption | lia].
Qed.

(** ** What [make_fold] builds *)

Section Building.
Context {E : Env}.

Lemma make_fold_rec_shape n : forall fuel smooth len start mean fdim hs fs k t,
  n < fuel -> n <= 30 -> heap_ok hs ->
  exists p hs' fs',
    make_fold_rec fuel (Z.of_nat n) smooth len start mean fdim (mkState hs fs k t) =
      Ok (Some p) (mkState hs' fs' k t) /\
    chain None n p (footprint n fs' p) hs' fs' /\ NoDup (footprint n fs' p) /\
    heap_ok hs' /\
    (forall x, x ∈ footprint n fs' p -> hs !! x = None) /\
    (forall x, x ∉ footprint n fs' p -> hs' !! x = hs !! x) /\
    (forall i x, nth_next fs' i p = Some x -> fs !! x = None) /\
    (forall x, (forall i, nth_next fs' i p <> Some x) -> fs' !! x = fs !! x) /\
    tidy fs' p /\
    (forall i q f, nth_next fs' i p = Some q -> fs' !! q = Some f ->
                   made_fold n i smooth len start mean fdim hs' f).
Proof.
  induction n as [|j IH]; intros fuel smooth len start mean fdim hs fs k t Hfuel Hb Hok.
  - destruct (make_fold_rec_post None 0 fuel smooth len start mean fdim hs fs k t
                Hfuel Hb ltac:(discriminate) Hok)
      as (p & fp & hs' & fs' & Hrun & Hch & Hnd & Hok' & Hp & _).
    assert (Hfp : fp = []) by (now destruct Hch as (f & _ & _ & _ & Hfp & _)).
    subst fp. exists p, hs', fs'. cbn [footprint].
    split; [exact Hrun|]. split; [exact Hch|]. split; [exact Hnd|]. split; [exact Hok'|].
    destruct fuel as [|fuel]; [lia|]. cbn [make_fold_rec folds] in Hrun.
    destruct (decide (Z.of_nat 0 ≠ 0%Z)) as [Hne|_]; [exfalso; now apply Hne|].
    set (p0 := fresh (dom fs)) in Hrun.
    erewrite bind_Ok in Hrun.
    2:{ mstep. { eapply upd_fold_ok. apply lookup_insert_eq. }
        mstep. { eapply upd_fold_ok. apply lookup_insert_eq. }
        eapply upd_fold_ok. apply lookup_insert_eq. }
    unfold ret in Hrun. cbn [strips folds draws trace set_folds] in Hrun. fsimpl.
    rewrite !insert_insert_eq in Hrun. injection Hrun as <- <- <-.
    assert (Hnth : forall i x, nth_next (<[p0 := mkFold (Z.of_nat 0) 0 smooth mean
                      (pow len (two * fdim)%H) (pow (len * sqrt two)%H (two * fdim)%H)
                      None None None None None]> fs) i p0 = Some x -> i = 0 /\ x = p0).
    { intros [|i] x Hx.
      - injection Hx as <-. auto.
      - erewrite nth_next_bottom in Hx; [discriminate | apply lookup_insert_eq | reflexivity]. }
    split; [intros x Hx; inversion Hx|].
    split; [reflexivity|].
    split; [intros i x Hx; apply Hnth in Hx as [_ ->]; exact Hp|].
    split.
    { intros x Hx. apply lookup_insert_ne. intros ->. now apply (Hx 0). }
    split.
    { intros i x fx Hx Hfx. apply Hnth in Hx as [-> ->].
      rewrite lookup_insert_eq in Hfx. injection Hfx as <-. fsimpl.
      split; [auto|]. intros Hne. now exfalso. }
    intros i x fx Hx Hfx. apply Hnth in Hx as [-> ->].
    rewrite lookup_insert_eq in Hfx. injection Hfx as <-.
    unfold made_fold, side_length. fsimpl. cbn [Nat.iter].
    destruct (decide (0 = 0)); [|contradiction]. repeat split; reflexivity.
  - destruct (make_fold_rec_post None (S j) fuel smooth len start mean fdim hs fs k t
                Hfuel Hb ltac:(discriminate) Hok)
      as (p' & fp & hs' & fs' & Hrun & Hch & Hnd & Hok' & _).
    pose proof (chain_footprint _ _ _ _ _ _ Hch) as Hfpe. subst fp.
    destruct fuel as [|fuel]; [lia|]. pose proof Hrun as Hrun0.
    cbn [make_fold_rec folds] in Hrun.
    set (p := fresh (dom fs)) in Hrun.
    assert (Hp : fs !! p = None) by apply fresh_fold_None.
    destruct (decide (Z.of_nat (S j) ≠ 0%Z)) as [_|Heq]; [|lia].
    set (r := fresh (dom hs)).
    assert (Hr : hs !! r = None) by apply fresh_strip_None.
    set (sr := mkStrip (Z.of_nat (S j)) (replicate (Z.to_nat (2 ^ Z.of_nat (S j) + 1)) start)).
    set (hs1 := <[r := sr]> hs).
    set (o := fresh (dom hs1)).
    assert (Ho1 : hs1 !! o = None) by apply fresh_strip_None.
    assert (Hor : o <> r).
    { intros Hx. rewrite Hx in Ho1. unfold hs1 in Ho1. rewrite lookup_insert_eq in Ho1.
      discriminate. }
    assert (Ho : hs !! o = None).
    { unfold hs1 in Ho1. now rewrite lookup_insert_ne in Ho1 by congruence. }
    set (hs2 := <[o := sr]> hs1).
    assert (Hsr : sized (S j) sr).
    { split; [reflexivity|]. unfold sr. cbn [s_d].
      now rewrite length_replicate, points_to_nat. }
    assert (Hok2 : heap_ok hs2).
    { unfold hs2, hs1. apply (heap_ok_insert _ _ _ (S j)); [|assumption].
      now apply (heap_ok_insert _ _ _ (S j)). }
    set (f0 := mkFold (Z.of_nat (S j)) 0 smooth mean (pow len (two * fdim)%H)
                 (pow (len * sqrt two)%H (two * fdim)%H) None None None None None) in Hrun |- *.
    set (f2 := with_old (Some o) (with_regen (Some r) f0)).
    destruct (IH fuel smooth (two * len)%H start mean fdim hs2 (<[p := f2]> fs) k t
                ltac:(lia) ltac:(lia) Hok2)
      as (q & hs3 & fs3 & Hrunq & Hchq & Hndq & Hok3 & Hfq & Hfrs & Hlq & Hfrf & Htq & Hmq).
    assert (Hqp : forall i, nth_next fs3 i q <> Some p).
    { intros i Hx. apply Hlq in Hx. rewrite lookup_insert_eq in Hx. discriminate. }
    assert (H3p : fs3 !! p = Some f2).
    { rewrite (Hfrf p Hqp). apply lookup_insert_eq. }
    assert (Hrq : r ∉ footprint j fs3 q).
    { intros Hx. apply Hfq in Hx. unfold hs2, hs1 in Hx.
      rewrite lookup_insert_ne, lookup_insert_eq in Hx by congruence. discriminate. }
    assert (Hoq : o ∉ footprint j fs3 q).
    { intros Hx. apply Hfq in Hx. unfold hs2 in Hx.
      rewrite lookup_insert_eq in Hx. discriminate. }
    assert (H3r : hs3 !! r = Some sr).
    { rewrite (Hfrs r Hrq). unfold hs2, hs1.
      rewrite lookup_insert_ne by congruence. apply lookup_insert_eq. }
    assert (H3o : hs3 !! o = Some sr).
    { rewrite (Hfrs o Hoq). apply lookup_insert_eq. }
    erewrite bind_Ok in Hrun.
    2:{ mstep. { apply set_strip_ok. lia. }
        cbn [strips folds draws trace set_folds]. fold r. fold sr. fold hs1.
        mstep. { eapply upd_fold_ok. apply lookup_insert_eq. }
        rewrite insert_insert_eq.
        mstep. { apply set_strip_ok. lia. }
        fold o. fold sr. fold hs2.
        mstep. { eapply upd_fold_ok. apply lookup_insert_eq. }
        rewrite insert_insert_eq.
        replace (Z.of_nat (S j) - 1)%Z with (Z.of_nat j) by lia.
        mstep. { exact Hrunq. }
        eapply upd_fold_ok. exact H3p. }
    unfold ret in Hrun. injection Hrun as <- <- <-.
    set (f3 := with_next (Some q) f2) in *.
    assert (Hagree : forall i x, nth_next fs3 i q = Some x -> <[p := f3]> fs3 !! x = fs3 !! x).
    { intros i x Hx. apply lookup_insert_ne. intros <-. now apply (Hqp i). }
    assert (Hnn : forall i, nth_next (<[p := f3]> fs3) (S i) p = nth_next fs3 i q).
    { intros i. rewrite (nth_next_top _ p f3 q) by (apply lookup_insert_eq || reflexivity).
      now apply nth_next_agree. }
    assert (Hfoot : footprint (S j) (<[p := f3]> fs3) p = r :: o :: footprint j fs3 q).
    { cbn [footprint]. rewrite lookup_insert_eq. unfold f3, f2, f0. fsimpl.
      destruct (decide (0%Z = START)); [|contradiction].
      change (omap id [Some r; Some o]) with [r; o]. cbn [app].
      do 2 f_equal. now apply footprint_agree. }
    exists p, hs3, (<[p := f3]> fs3).
    split; [exact Hrun0|]. split; [exact Hch|]. split; [exact Hnd|]. split; [exact Hok'|].
    rewrite Hfoot.
    split.
    { intros x Hx. rewrite !elem_of_cons in Hx. destruct Hx as [->|[->|Hx]]; try assumption.
      apply Hfq in Hx. unfold hs2, hs1 in Hx.
      destruct (decide (x = o)) as [->|]; [assumption|].
      destruct (decide (x = r)) as [->|]; [assumption|].
      now rewrite !lookup_insert_ne in Hx by congruence. }
    split.
    { intros x Hx. rewrite !not_elem_of_cons in Hx. destruct Hx as (H1 & H2 & H3).
      rewrite (Hfrs x H3). unfold hs2, hs1. now rewrite !lookup_insert_ne by congruence. }
    split.
    { intros [|i] x Hx.
      - injection Hx as <-. exact Hp.
      - rewrite Hnn in Hx. apply Hlq in Hx.
        destruct (decide (x = p)) as [->|Hne]; [assumption|].
        now rewrite lookup_insert_ne in Hx by congruence. }
    split.
    { intros x Hx.
      assert (Hxp : x <> p) by (intros ->; now apply (Hx 0)).
      rewrite lookup_insert_ne by congruence.
      rewrite Hfrf; [now rewrite lookup_insert_ne by congruence|].
      intros i Hi. apply (Hx (S i)). now rewrite Hnn. }
    split.
    { intros [|i] x fx Hx Hfx.
      - injection Hx as <-. rewrite lookup_insert_eq in Hfx. injection Hfx as <-.
        unfold f3, f2, f0. fsimpl. split; [lia | auto].
      - rewrite Hnn in Hx. rewrite (Hagree i x Hx) in Hfx. now apply (Htq i x). }
    intros [|i] x fx Hx Hfx.
    + injection Hx as <-. rewrite lookup_insert_eq in Hfx. injection Hfx as <-.
      unfold made_fold, side_length, f3, f2, f0. fsimpl. cbn [Nat.iter].
      destruct (decide (0 = S j)); [lia|].
      replace (S j - 0) with (S j) by lia.
      repeat (split; [reflexivity|]).
      exists r, o. rewrite H3r, H3o. unfold sr. rewrite points_to_nat.
      repeat split; congruence.
    + rewrite Hnn in Hx. rewrite (Hagree i x Hx) in Hfx.
      destruct (Hmq i x fx Hx Hfx) as (M1 & M2 & M3 & M4 & M5 & M6 & M7 & M8 & M9).
      unfold made_fold. replace (S j - S i) with (j - i) by lia.
      split; [exact M1|]. split; [exact M2|]. split; [exact M3|]. split; [exact M4|].
      split.
      { rewrite M5. now rewrite side_length_succ. }
      split.
      { rewrite M6. now rewrite side_length_succ. }
      split; [exact M7|]. split; [exact M8|].
      destruct (decide (i = j)), (decide (S i = S j)); try lia; exact M9.
Qed.

End Building.

(** ** Memory accounting *)

Lemma tidy_next fs p f q : fs !! p = Some f -> f_next f = Some q -> tidy fs p -> tidy fs q.
Proof.
  intros Hf Hn Ht i x fx Hx Hfx. apply (Ht (S i) x fx); [|assumption].
  now rewrite (nth_next_top fs p f q).
Qed.

Lemma linked_next fs p f q :
  fs !! p = Some f -> f_next f = Some q -> linked fs p -> linked fs q.
Proof.
  intros Hf Hn Ht i x fx c fc Hx. apply (Ht (S i) x fx c fc).
  now rewrite (nth_next_top fs p f q).
Qed.

Lemma tidy_agree fs fs' q :
  (forall i x, nth_next fs i q = Some x -> fs' !! x = fs !! x) ->
  tidy fs q -> tidy fs' q.
Proof.
  intros Ha Ht i x fx Hx Hfx.
  rewrite (nth_next_agree fs fs' i q Ha) in Hx.
  rewrite (Ha i x Hx) in Hfx. now apply (Ht i x fx).
Qed.

Lemma linked_agree fs fs' q :
  (forall i x, nth_next fs i q = Some x -> fs' !! x = fs !! x) ->
  linked fs q -> linked fs' q.
Proof.
  intros Ha Ht i x fx c fc Hx Hfx Hn Hfc.
  rewrite (nth_next_agree fs fs' i q Ha) in Hx.
  rewrite (Ha i x Hx) in Hfx.
  rewrite (Ha (S i) c) in Hfc by (eapply nth_next_snoc; eauto).
  now apply (Ht i x fx c fc).
Qed.

Lemma tidy_cons fs p f q :
  fs !! p = Some f -> f_next f = Some q ->
  (f_level f = 0%Z ->
   f_new f = None /\ f_working f = None /\ f_regen f = None /\ f_old f = None) ->
  (f_level f <> 0%Z -> f_state f = START -> f_new f = None /\ f_working f = None) ->
  tidy fs q -> tidy fs p.
Proof.
  intros Hf Hn H0 H1 Ht [|i] x fx Hx Hfx.
  - injection Hx as <-. rewrite Hf in Hfx. injection Hfx as <-. auto.
  - rewrite (nth_next_top fs p f q) in Hx by assumption. now apply (Ht i x fx).
Qed.

Lemma linked_cons fs p f q :
  fs !! p = Some f -> f_next f = Some q ->
  (forall fc, fs !! q = Some fc -> (0 < f_level fc)%Z ->
              f_state f = STORE -> f_state fc = STORE -> f_new f = f_old fc) ->
  linked fs q -> linked fs p.
Proof.
  intros Hf Hn H0 Ht [|i] x fx c fc Hx Hfx Hnx Hfc.
  - injection Hx as <-. rewrite Hf in Hfx. injection Hfx as <-.
    rewrite Hn in Hnx. injection Hnx as <-. now apply H0.
  - rewrite (nth_next_top fs p f q) in Hx by assumption. now apply (Ht i x fx c fc).
Qed.

(** The folds of the chain below a fold do not include it. *)
Lemma chain_below_ne fl j q fq hs fs p fp_ i x :
  chain fl j q fq hs fs -> fs !! p = Some fp_ -> f_level fp_ = Z.of_nat (S j) ->
  nth_next fs i q = Some x -> x <> p.
Proof.
  intros Hch Hp Hl Hx.
  destruct (chain_nth _ _ _ _ _ _ _ _ Hch Hx) as (_ & fx & Hfx & Hlx).
  intros ->. rewrite Hp in Hfx. injection Hfx as <-. lia.
Qed.

Section Accounting.
Context {E : Env}.

(** The [STORE] case of [next_strip], as a run. *)
Lemma next_strip_rec_store_eq fuel j p nw f dn hs fs k t :
  fs !! p = Some f -> f_level f <> 0%Z -> f_state f = STORE ->
  f_new f = Some nw -> hs !! nw = Some (mkStrip (Z.of_nat j) dn) -> length dn = 2 ^ j + 1 ->
  j < 30 ->
  next_strip_rec (S fuel) (Some p) (mkState hs fs k t) =
  Ok (f_regen f)
     (mkState (delete nw (<[fresh (dom hs) :=
                             mkStrip (Z.of_nat (S j)) (doubled (fresh (dom hs)) j dn)]> hs))
              (<[p := mkFold (f_level f) START (f_smooth f) (f_mean f) (f_scale f)
                       (f_midscale f) None None (Some (fresh (dom hs))) (f_working f)
                       (f_next f)]> fs)
              k (EvNextStrip (Some p) :: t)).
Proof.
  intros Hf Hl Hst Hnw Hsn Hlen Hb.
  set (d := fresh (dom hs)).
  assert (Hd : hs !! d = None) by apply fresh_strip_None.
  assert (Hne : d <> nw) by (intros ->; congruence).
  cbn [next_strip_rec].
  mstep. { apply emit_ok. }
  mstep. { apply get_fold_ok. exact Hf. }
  destruct (decide (f_level f = 0%Z)); [contradiction|].
  destruct (decide (f_state f = START)) as [Hx|_];
    [rewrite Hst in Hx; discriminate|].
  destruct (decide (f_state f = STORE)); [|contradiction].
  mstep. { eapply upd_fold_ok. exact Hf. }
  mstep. { eapply upd_fold_ok. apply lookup_insert_eq. }
  rewrite insert_insert_eq.
  mstep. { apply get_fold_ok. apply lookup_insert_eq. }
  fsimpl. rewrite Hnw.
  mstep. { eapply double_strip_ok; [exact Hsn | exact Hlen | exact Hb]. }
  mstep. { eapply upd_fold_ok. apply lookup_insert_eq. }
  rewrite insert_insert_eq.
  mstep. { apply get_fold_ok. apply lookup_insert_eq. }
  fsimpl. fold d. rewrite Hnw.
  mstep. { eapply free_strip_ok. rewrite lookup_insert_ne by congruence. exact Hsn. }
  mstep. { eapply upd_fold_ok. apply lookup_insert_eq. }
  mstep. { eapply upd_fold_ok. apply lookup_insert_eq. }
  unfold ret. fsimpl. rewrite !insert_insert_eq. reflexivity.
Qed.

(** X9 (a [STORE] call).  On a fold of a level other than 0 in state
    [STORE] whose [new] is a strip of level [j < 30] with [2^j + 1]
    entries, [next_strip] returns the pointer held in [regen]; it calls no other
    fold and draws no sample.  It allocates the strip [double_strip(new)]
    (level [j + 1], the entries of [new] at the even places and 0 at the
    odd ones) and frees [new].  In the fold, [old] takes the pointer of
    [working], [regen] the new strip, [new] and [working] become [NULL]
    and [state] becomes [START]; no other fold and no other strip
    changes. *)
Theorem store_call_effect (j : nat) (st : state) (p nw : positive) (f : Fold)
    (sn : Strip) :
  folds st !! p = Some f -> f_level f <> 0%Z -> f_state f = STORE ->
  f_new f = Some nw -> strips st !! nw = Some sn -> sized j sn -> j < 30 ->
  exists d dd,
    strips st !! d = None /\
    next_strip (Some p) st =
      Ok (f_regen f)
         (mkState (delete nw (<[d := mkStrip (Z.of_nat (S j)) dd]> (strips st)))
                  (<[p := mkFold (f_level f) START (f_smooth f) (f_mean f) (f_scale f)
                           (f_midscale f) None None (Some d) (f_working f) (f_next f)]>
                     (folds st))
                  (draws st) (EvNextStrip (Some p) :: trace st)) /\
    length dd = 2 ^ S j + 1 /\
    (forall i, i <= 2 ^ j -> dd !! (2 * i) = s_d sn !! i) /\
    (forall i, i < 2 ^ j -> dd !! (2 * i + 1) = Some (Fin 0)).
Proof.
  destruct st as [hs fs k t], sn as [ln dn]. cbn [strips folds draws trace s_level s_d].
  intros Hf Hl Hst Hnw Hsn [Hlev Hlen] Hb. cbn [s_level s_d] in *. subst ln.
  exists (fresh (dom hs)), (doubled (fresh (dom hs)) j dn).
  split; [apply fresh_strip_None|].
  split.
  { unfold next_strip, fuel_for. cbn [mbind option_bind folds]. rewrite Hf.
    now apply (next_strip_rec_store_eq _ j p nw f dn). }
  split; [apply doubled_length|].
  split.
  - intros i Hi. now apply doubled_even.
  - intros i Hi. now apply doubled_odd.
Qed.

(** The [START] case of [next_strip], as a run, given the run of the call
    on the next fold. *)
Lemma next_strip_rec_start_run fuel j p hs fs k t sm mn sc msc fnew fwork r0 o q
    nw hs1 fs1 k1 t1 dr dnw do_ :
  fs !! p = Some (mkFold (Z.of_nat (S j)) START sm mn sc msc fnew fwork
                    (Some r0) (Some o) (Some q)) ->
  next_strip_rec fuel (Some q) (mkState hs fs k (EvNextStrip (Some p) :: t)) =
    Ok (Some nw) (mkState hs1 fs1 k1 t1) ->
  fs1 !! p = Some (mkFold (Z.of_nat (S j)) START sm mn sc msc fnew fwork
                     (Some r0) (Some o) (Some q)) ->
  hs1 !! r0 = Some (mkStrip (Z.of_nat (S j)) dr) -> length dr = 2 ^ S j + 1 ->
  hs1 !! nw = Some (mkStrip (Z.of_nat j) dnw) -> length dnw = 2 ^ j + 1 ->
  hs1 !! o = Some (mkStrip (Z.of_nat (S j)) do_) -> length do_ = 2 ^ S j + 1 ->
  r0 <> o -> S j <= 30 ->
  let L := Z.of_nat (S j) in
  let side := side_list (2 ^ j) 0 sc k1 dr in
  let w := fresh (dom (<[r0 := mkStrip L side]> hs1)) in
  let mid := mid_data j sc msc (k1 + 2 ^ j) dnw side
               (indeterminate w <$> seq 0 (Z.to_nat (2 ^ L + 1))) in
  next_strip_rec (S fuel) (Some p) (mkState hs fs k t) =
  Ok (Some o)
     (mkState (<[r0 := mkStrip L (if decide (sm ≠ 0%Z)
                                  then recalc_data j sc (k1 + 2 ^ j + 2 * 2 ^ j + 1) mid do_ side
                                  else side)]>
                 (<[w := mkStrip L mid]> hs1))
              (<[p := mkFold L STORE sm mn sc msc (Some nw) (Some w)
                       (Some r0) (Some o) (Some q)]> fs1)
              (k1 + 2 ^ j + (2 * 2 ^ j + 1) + (if decide (sm ≠ 0%Z) then 2 ^ j + 1 else 0))
              ((if decide (sm ≠ 0%Z) then [EvRecalc L (Some L) (Some L) (Some L)] else []) ++
               EvMidUpdate L (Some (Z.of_nat j)) (Some L) (Some L) ::
               EvSideUpdate L (Some L) :: t1)).
Proof.
  intros Hf Hrun1 H1p H1r Sr Hnw Snw H1o So Hro Hb L side w mid.
  assert (Hnwr : nw <> r0).
  { intros ->. rewrite H1r in Hnw. injection Hnw as Hx _. lia. }
  set (hs2 := <[r0 := mkStrip L side]> hs1) in *.
  assert (Hw2 : hs2 !! w = None) by apply fresh_strip_None.
  assert (Hwr : w <> r0).
  { intros Hx. rewrite Hx in Hw2. unfold hs2 in Hw2. rewrite lookup_insert_eq in Hw2.
    discriminate. }
  assert (Hw1 : hs1 !! w = None).
  { unfold hs2 in Hw2. now rewrite lookup_insert_ne in Hw2 by congruence. }
  assert (Hwo : w <> o) by (intros Hx; rewrite Hx in Hw1; congruence).
  assert (Hwnw : w <> nw) by (intros Hx; rewrite Hx in Hw1; congruence).
  set (junk := indeterminate w <$> seq 0 (Z.to_nat (2 ^ L + 1))) in *.
  assert (Hjunk : length junk = 2 ^ S j + 1).
  { unfold junk, L. now rewrite length_fmap, length_seq, points_to_nat. }
  assert (Hside : length side = 2 ^ S j + 1) by (unfold side; now rewrite side_list_length).
  assert (Hmid : length mid = 2 ^ S j + 1).
  { unfold mid, mid_data. now rewrite length_insert, mid_list_length. }
  cbn [next_strip_rec].
  mstep. { apply emit_ok. }
  mstep. { apply get_fold_ok. exact Hf. }
  fsimpl.
  destruct (decide ((Z.of_nat (S j)) = 0%Z)); [lia|].
  destruct (decide (START = START)); [|contradiction].
  mstep. { exact Hrun1. }
  mstep. { eapply upd_fold_ok. exact H1p. }
  mstep. { apply get_fold_ok. apply lookup_insert_eq. }
  fsimpl.
  mstep. { eapply peek_level_ok. exact H1r. }
  mstep. { apply emit_ok. }
  fsimpl.
  mstep. { eapply side_update_ok; [exact H1r | assumption | lia]. }
  fold side. fold L. fold hs2.
  mstep. { apply make_strip_ok. lia. }
  fold w. fold junk.
  mstep. { eapply upd_fold_ok. apply lookup_insert_eq. }
  rewrite insert_insert_eq.
  mstep. { apply get_fold_ok. apply lookup_insert_eq. }
  fsimpl.
  assert (H3n : <[w := mkStrip L junk]> hs2 !! nw = Some (mkStrip (Z.of_nat j) dnw)).
  { unfold hs2. rewrite !lookup_insert_ne by congruence. exact Hnw. }
  assert (H3r : <[w := mkStrip L junk]> hs2 !! r0 = Some (mkStrip L side)).
  { unfold hs2. rewrite lookup_insert_ne by congruence. apply lookup_insert_eq. }
  mstep. { eapply peek_level_ok. exact H3n. }
  mstep. { eapply peek_level_ok. apply lookup_insert_eq. }
  mstep. { eapply peek_level_ok. exact H3r. }
  mstep. { apply emit_ok. }
  fsimpl.
  mstep.
  { eapply (mid_update_ok j sc msc nw w r0 dnw junk side);
      [congruence | exact H3n | exact Snw | apply lookup_insert_eq | exact Hjunk
      | exact H3r | exact Hside | lia]. }
  fold mid. fold L. rewrite insert_insert_eq.
  assert (Hcanon : <[w := mkStrip L mid]> hs2 =
                   <[r0 := mkStrip L side]> (<[w := mkStrip L mid]> hs1)).
  { unfold hs2. apply insert_insert_ne. congruence. }
  rewrite Hcanon.
  destruct (decide (sm <> 0%Z)) as [Hsm|Hsm].
  - assert (H4w : <[r0 := mkStrip L side]> (<[w := mkStrip L mid]> hs1) !! w =
                  Some (mkStrip L mid)).
    { rewrite lookup_insert_ne by congruence. apply lookup_insert_eq. }
    assert (H4o : <[r0 := mkStrip L side]> (<[w := mkStrip L mid]> hs1) !! o =
                  Some (mkStrip L do_)).
    { rewrite !lookup_insert_ne by congruence. exact H1o. }
    mstep.
    { mstep. { eapply peek_level_ok. exact H4w. }
      mstep. { eapply peek_level_ok. apply lookup_insert_eq. }
      mstep. { eapply peek_level_ok. exact H4o. }
      mstep. { apply emit_ok. }
      fsimpl.
      eapply (recalc_ok j sc w r0 o mid side do_);
        [congruence | congruence | exact H4w | exact Hmid | apply lookup_insert_eq
        | exact Hside | exact H4o | exact So | lia]. }
    mstep. { eapply upd_fold_ok. apply lookup_insert_eq. }
    unfold ret. fsimpl. rewrite !insert_insert_eq.
    apply Ok_eq; [reflexivity | reflexivity | lia].
  - mstep. { reflexivity. }
    mstep. { eapply upd_fold_ok. apply lookup_insert_eq. }
    unfold ret. fsimpl. rewrite !insert_insert_eq.
    apply Ok_eq; [reflexivity | reflexivity | lia].
Qed.

(** The same, without the data. *)
Lemma next_strip_rec_start_eq fuel j p hs fs k t sm mn sc msc fnew fwork r0 o q
    nw hs1 fs1 k1 t1 dr dnw do_ :
  fs !! p = Some (mkFold (Z.of_nat (S j)) START sm mn sc msc fnew fwork
                    (Some r0) (Some o) (Some q)) ->
  next_strip_rec fuel (Some q) (mkState hs fs k (EvNextStrip (Some p) :: t)) =
    Ok (Some nw) (mkState hs1 fs1 k1 t1) ->
  fs1 !! p = Some (mkFold (Z.of_nat (S j)) START sm mn sc msc fnew fwork
                     (Some r0) (Some o) (Some q)) ->
  hs1 !! r0 = Some (mkStrip (Z.of_nat (S j)) dr) -> length dr = 2 ^ S j + 1 ->
  hs1 !! nw = Some (mkStrip (Z.of_nat j) dnw) -> length dnw = 2 ^ j + 1 ->
  hs1 !! o = Some (mkStrip (Z.of_nat (S j)) do_) -> length do_ = 2 ^ S j + 1 ->
  r0 <> o -> S j <= 30 ->
  exists w dr' dw t',
    hs1 !! w = None /\
    next_strip_rec (S fuel) (Some p) (mkState hs fs k t) =
    Ok (Some o)
       (mkState (<[r0 := mkStrip (Z.of_nat (S j)) dr']>
                   (<[w := mkStrip (Z.of_nat (S j)) dw]> hs1))
                (<[p := mkFold (Z.of_nat (S j)) STORE sm mn sc msc (Some nw) (Some w)
                         (Some r0) (Some o) (Some q)]> fs1)
                (k1 + 2 ^ j + (2 * 2 ^ j + 1) + (if decide (sm ≠ 0%Z) then 2 ^ j + 1 else 0))
                t') /\
    length dr' = 2 ^ S j + 1 /\ length dw = 2 ^ S j + 1.
Proof.
  intros Hf Hrun1 H1p H1r Sr Hnw Snw H1o So Hro Hb.
  pose proof (next_strip_rec_start_run fuel j p hs fs k t sm mn sc msc fnew fwork r0 o q
                nw hs1 fs1 k1 t1 dr dnw do_ Hf Hrun1 H1p H1r Sr Hnw Snw H1o So Hro Hb)
    as Hrun.
  cbv zeta in Hrun.
  set (side := side_list (2 ^ j) 0 sc k1 dr) in *.
  set (w := fresh (dom (<[r0 := mkStrip (Z.of_nat (S j)) side]> hs1))) in *.
  set (mid := mid_data j sc msc (k1 + 2 ^ j) dnw side
                (indeterminate w <$> seq 0 (Z.to_nat (2 ^ Z.of_nat (S j) + 1)))) in *.
  assert (Hside : length side = 2 ^ S j + 1) by (unfold side; now rewrite side_list_length).
  assert (Hmid : length mid = 2 ^ S j + 1).
  { unfold mid, mid_data.
    now rewrite length_insert, mid_list_length, length_fmap, length_seq, points_to_nat. }
  eexists w, _, mid, _.
  split.
  { pose proof (fresh_strip_None (<[r0 := mkStrip (Z.of_nat (S j)) side]> hs1)) as Hw.
    fold w in Hw. destruct (decide (w = r0)) as [Heq|Hne].
    - rewrite Heq, lookup_insert_eq in Hw. discriminate.
    - now rewrite lookup_insert_ne in Hw by congruence. }
  split; [exact Hrun|]. split; [|exact Hmid].
  destruct (decide (sm ≠ 0%Z)); [now rewrite recalc_data_length | exact Hside].
Qed.

Lemma no_target : (@None Height) <> None -> quiet.
Proof. intros H. now destruct H. Qed.

Lemma acct_level0 fuel p hs fs k t :
  chain None 0 p [] hs fs ->
  acct_post 0 p hs fs k (next_strip_rec (S fuel) (Some p) (mkState hs fs k t)).
Proof.
  intros (f & Hf & Hl & _).
  rewrite (next_strip_rec_level0 fuel p f hs fs k t Hf Hl).
  eexists _, _, _, _, _. split; [reflexivity|].
  split.
  { intros x Hx. destruct (decide (x = fresh (dom hs))) as [->|Hne];
      [right; left; reflexivity|].
    rewrite lookup_insert_ne in Hx by congruence.
    right. right. split; [apply not_elem_of_nil | assumption]. }
  split; [reflexivity|]. split; [auto|]. split; [auto|].
  split; [|cbn [call_draws]; lia].
  intros f' Hf' Hl'. rewrite Hf in Hf'. injection Hf' as <-. contradiction.
Qed.

Lemma acct_store fuel j p hs fs k t f q fq r0 w nw :
  fs !! p = Some f -> f_level f = Z.of_nat (S j) ->
  f_next f = Some q -> chain None j q fq hs fs ->
  f_state f = STORE -> f_regen f = Some r0 -> f_working f = Some w -> f_new f = Some nw ->
  strip_at hs None flat (S j) r0 -> strip_at hs None flat j nw ->
  acct_post (S j) p hs fs k (next_strip_rec (S fuel) (Some p) (mkState hs fs k t)).
Proof.
  intros Hf Hl Hn Hq Hst Hr Hw Hnw Sr0 (sn & Hsn & [Ln Sn] & _).
  apply strip_at_bound in Sr0.
  destruct sn as [ln dn]. cbn [s_level s_d] in *. subst ln.
  rewrite (next_strip_rec_store_eq fuel j p nw f dn hs fs k t Hf ltac:(lia) Hst Hnw Hsn Sn
             ltac:(lia)).
  rewrite Hr, Hw, Hn.
  set (d := fresh (dom hs)).
  assert (Hd : hs !! d = None) by apply fresh_strip_None.
  set (f' := mkFold (f_level f) START (f_smooth f) (f_mean f) (f_scale f) (f_midscale f)
               None None (Some d) (Some w) (Some q)).
  assert (Hagree : forall i x, nth_next fs i q = Some x -> <[p := f']> fs !! x = fs !! x).
  { intros i x Hx. apply lookup_insert_ne. intros <-.
    now apply (chain_below_ne _ _ _ _ _ _ _ _ _ _ Hq Hf Hl Hx). }
  assert (Hfoot : footprint (S j) fs p = r0 :: w :: nw :: footprint j fs q).
  { cbn [footprint]. rewrite Hf, Hn, Hst.
    destruct (decide (STORE = START)); [discriminate|]. rewrite Hr, Hw, Hnw. reflexivity. }
  assert (Hfoot' : footprint (S j) (<[p := f']> fs) p = d :: w :: footprint j fs q).
  { cbn [footprint]. rewrite lookup_insert_eq.
    change (f_state f') with START. change (f_next f') with (Some q).
    change (f_regen f') with (Some d). change (f_old f') with (Some w).
    destruct (decide (START = START)); [|contradiction].
    change (omap id [Some d; Some w]) with [d; w]. cbn [app].
    do 2 f_equal. now apply footprint_agree. }
  eexists _, _, _, _, _. split; [reflexivity|].
  rewrite Hfoot, Hfoot'.
  split.
  { intros x Hx. apply lookup_delete_is_Some in Hx as [Hxn Hx].
    destruct (decide (x = d)) as [->|Hxd]; [left; left|].
    rewrite lookup_insert_ne in Hx by congruence.
    destruct (decide (x = w)) as [->|Hxw]; [left; right; left|].
    destruct (decide (x = r0)) as [->|Hxr]; [right; left; congruence|].
    destruct (decide (x ∈ footprint j fs q)) as [Hin|Hnin];
      [left; right; right; assumption|].
    right. right. split; [|assumption].
    rewrite !not_elem_of_cons. auto. }
  split.
  { intros x Hx. apply lookup_insert_ne. intros <-. now apply (Hx 0). }
  split.
  { intros Ht. apply (tidy_cons _ p f' q); [apply lookup_insert_eq | reflexivity | | |].
    - unfold f'. fsimpl. lia.
    - unfold f'. fsimpl. auto.
    - apply (tidy_agree fs); [exact Hagree|]. eapply tidy_next; eauto. }
  split.
  { intros Ht. apply (linked_cons _ p f' q); [apply lookup_insert_eq | reflexivity | |].
    - unfold f'. fsimpl. discriminate.
    - apply (linked_agree fs); [exact Hagree|]. eapply linked_next; eauto. }
  split.
  { intros f0 Hf0 _ Hst0. rewrite Hf in Hf0. injection Hf0 as <-.
    rewrite Hst in Hst0. discriminate. }
  cbn [call_draws]. rewrite Hf, Hst.
  destruct (decide (STORE = START)); [discriminate | lia].
Qed.

Lemma acct_start fuel j p hs fs k t f q fq r0 o :
  fs !! p = Some f -> f_level f = Z.of_nat (S j) ->
  f_next f = Some q -> chain None j q fq hs fs ->
  f_state f = START -> f_regen f = Some r0 -> f_old f = Some o ->
  strip_at hs None flat_even (S j) r0 -> strip_at hs None flat (S j) o ->
  NoDup (r0 :: o :: fq) -> heap_ok hs -> j < fuel ->
  (forall k1 t1, acct_post j q hs fs k1 (next_strip_rec fuel (Some q) (mkState hs fs k1 t1))) ->
  acct_post (S j) p hs fs k (next_strip_rec (S fuel) (Some p) (mkState hs fs k t)).
Proof.
  intros Hf Hl Hn Hch Hst Hr Ho Sr0 So0 Hnd Hok Hfuel IH.
  pose proof Sr0 as (sr & Hsr & [Lr Sr] & _ & Bj).
  pose proof So0 as (so & Hso & [Lo So] & _).
  destruct f as [lv stt sm mn sc msc fnew fwork fregen fold_ fnext]. fsimpl. subst.
  destruct sr as [lr dr], so as [lo do_]. fsimpl. subst lr lo.
  apply NoDup_cons in Hnd as [Hr0 Hnd]. apply NoDup_cons in Hnd as [Hoq Hndq].
  rewrite !not_elem_of_cons in Hr0. destruct Hr0 as (Hr0o & Hr0q).
  pose proof (chain_footprint _ _ _ _ _ _ Hch) as Hfq. subst fq.
  set (f := mkFold (Z.of_nat (S j)) START sm mn sc msc fnew fwork (Some r0) (Some o) (Some q))
    in *.
  destruct (next_strip_rec_post None no_target j fuel q _ hs fs k
              (EvNextStrip (Some p) :: t) Hfuel Hch Hndq Hok)
    as (nw & hs1 & fs1 & k1 & evs1 & fq' & g & g' & snw & Hrun1 & Hch1 & Hnd1 & Hok1 &
        Hnw & [Lnw Snw] & Fnw & Pnw & Pfq & Frs & Frf & Hev1 & Hg & Hg' & Hstep1 & Hcc1).
  pose proof (chain_footprint _ _ _ _ _ _ Hch1) as Hfq'. subst fq'.
  destruct (IH k (EvNextStrip (Some p) :: t))
    as (nw2 & hs1b & fs1b & k1b & t1b & Hrunb & Hb & Hc & Htidy & Hlinked & _ & Hk1).
  rewrite Hrun1 in Hrunb. injection Hrunb as <- <- <- <- <-.
  destruct snw as [lnw dnw]. fsimpl. subst lnw.
  assert (H1r : hs1 !! r0 = Some (mkStrip (Z.of_nat (S j)) dr)) by (now apply Frs).
  assert (H1o : hs1 !! o = Some (mkStrip (Z.of_nat (S j)) do_)) by (now apply Frs).
  assert (H1p : fs1 !! p = Some f) by (apply Frf; [assumption | unfold f; fsimpl; lia]).
  destruct (next_strip_rec_start_eq fuel j p hs fs k t sm mn sc msc fnew fwork r0 o q
              nw hs1 fs1 k1 _ dr dnw do_ Hf Hrun1 H1p H1r Sr Hnw Snw H1o So Hr0o Bj)
    as (w & dr' & dw & t' & Hw1 & Hrun & Hdr' & Hdw).
  rewrite Hrun.
  set (f' := mkFold (Z.of_nat (S j)) STORE sm mn sc msc (Some nw) (Some w) (Some r0)
               (Some o) (Some q)).
  assert (Hwr : w <> r0) by (intros ->; congruence).
  assert (Hwo : w <> o) by (intros ->; congruence).
  assert (Hagree : forall i x, nth_next fs1 i q = Some x -> <[p := f']> fs1 !! x = fs1 !! x).
  { intros i x Hx. apply lookup_insert_ne. intros <-.
    now apply (chain_below_ne _ _ _ _ _ _ _ _ _ _ Hch1 H1p eq_refl Hx). }
  assert (Hfoot : footprint (S j) fs p = r0 :: o :: footprint j fs q).
  { cbn [footprint]. rewrite Hf. unfold f. fsimpl.
    destruct (decide (START = START)); [reflexivity | contradiction]. }
  assert (Hfoot' : footprint (S j) (<[p := f']> fs1) p = r0 :: w :: nw :: footprint j fs1 q).
  { cbn [footprint]. rewrite lookup_insert_eq.
    change (f_state f') with STORE. change (f_next f') with (Some q).
    change (f_regen f') with (Some r0). change (f_working f') with (Some w).
    change (f_new f') with (Some nw).
    destruct (decide (STORE = START)); [discriminate|].
    change (omap id [Some r0; Some w; Some nw]) with [r0; w; nw]. cbn [app].
    do 3 f_equal. now apply footprint_agree. }
  eexists _, _, _, _, _. split; [reflexivity|].
  rewrite Hfoot, Hfoot'.
  split.
  { intros x Hx.
    destruct (decide (x = r0)) as [->|Hxr]; [left; left|].
    rewrite lookup_insert_ne in Hx by congruence.
    destruct (decide (x = w)) as [->|Hxw]; [left; right; left|].
    rewrite lookup_insert_ne in Hx by congruence.
    destruct (Hb x Hx) as [Hin|[->|[Hnin Hsome]]].
    - left. rewrite !elem_of_cons. auto.
    - left. rewrite !elem_of_cons. auto.
    - destruct (decide (x = o)) as [->|Hxo]; [right; left; reflexivity|].
      right. right. split; [|assumption]. rewrite !not_elem_of_cons. auto. }
  split.
  { intros x Hx.
    rewrite lookup_insert_ne by (intros <-; now apply (Hx 0)).
    apply Hc. intros i Hi. apply (Hx (S i)).
    now rewrite (nth_next_top fs p f q). }
  split.
  { intros Ht. apply (tidy_cons _ p f' q); [apply lookup_insert_eq | reflexivity | | |].
    - unfold f'. fsimpl. lia.
    - unfold f'. fsimpl. discriminate.
    - apply (tidy_agree fs1); [exact Hagree|]. apply Htidy.
      now apply (tidy_next fs p f q). }
  split.
  { intros Ht. apply (linked_cons _ p f' q); [apply lookup_insert_eq | reflexivity | |].
    - intros fc Hfc Hlc _ Hsc. rewrite (Hagree 0 q eq_refl) in Hfc.
      rewrite Hg' in Hfc. injection Hfc as <-.
      destruct (chain_fold _ _ _ _ _ _ Hch1) as (g0 & Hg0 & Hl0 & _).
      rewrite Hg' in Hg0. injection Hg0 as <-.
      destruct j as [|j']; [lia|].
      destruct Hstep1 as (_ & _ & _ & _ & _ & _ & [(_ & _ & _ & Hold)|(_ & Hx & _)]).
      + unfold f'. fsimpl. now rewrite Hold.
      + rewrite Hx in Hsc. discriminate.
    - apply (linked_agree fs1); [exact Hagree|]. apply Hlinked.
      now apply (linked_next fs p f q). }
  split.
  { intros f0 Hf0 _ _. rewrite !lookup_insert_ne by congruence.
    now rewrite H1o, Hso. }
  cbn [call_draws]. rewrite Hf. unfold f. fsimpl.
  destruct (decide (START = START)); [|contradiction].
  rewrite Hk1. lia.
Qed.

Lemma next_strip_rec_acct :
  forall n fuel p fp hs fs k t,
    n < fuel -> chain None n p fp hs fs -> NoDup fp -> heap_ok hs ->
    acct_post n p hs fs k (next_strip_rec fuel (Some p) (mkState hs fs k t)).
Proof.
  intros n.
  induction n as [|j IH]; intros fuel p fp hs fs k t Hfuel Hch Hnd Hok;
    (destruct fuel as [|fuel]; [lia|]).
  - pose proof Hch as (f & _ & _ & _ & -> & _).
    now apply acct_level0.
  - pose proof Hch as (f & Hf & Hl & Hm & q & fq & Hn & Hchq & Hcase).
    destruct Hcase as [(Hst & r & o & Hr & Ho & -> & Sr & So)
                      |(Hst & r & w & nw & Hr & Hw & Hnw & -> & Sr & Sw & Sn)].
    + eapply acct_start; eauto; [lia|].
      intros k1 t1. apply (IH fuel q fq); [lia | assumption | | assumption].
      apply NoDup_cons in Hnd as [_ Hnd]. now apply NoDup_cons in Hnd as [_ Hnd].
    + eapply acct_store; eauto.
Qed.

Lemma next_strip_acct n p fp hs fs k t :
  chain None n p fp hs fs -> NoDup fp -> heap_ok hs ->
  acct_post n p hs fs k (next_strip (Some p) (mkState hs fs k t)).
Proof.
  intros Hch Hnd Hok.
  unfold next_strip. rewrite (fuel_for_chain _ _ _ _ _ _ k t Hch).
  eapply next_strip_rec_acct; eauto.
Qed.

End Accounting.

(** ** Sessions in which the caller frees strips *)

Section FreeingSessions.
Context {E : Env}.

Lemma next_strips_freeing_post :
  forall frees n p fp hs fs k t,
    chain None n p fp hs fs -> NoDup fp -> heap_ok hs ->
    exists rs hs' fs' k' evs,
      next_strips_freeing frees (Some p) (mkState hs fs k t) =
        Ok rs (mkState hs' fs' k' (evs ++ t)) /\
      chain None n p (footprint n fs' p) hs' fs' /\ NoDup (footprint n fs' p) /\
      heap_ok hs' /\ length rs = length frees /\
      chain_calls p fs fs' evs /\ calls_on (Some p) evs = length frees /\
      (tidy fs p -> tidy fs' p) /\ (linked fs p -> linked fs' p) /\
      (forall x, (forall i, nth_next fs i p <> Some x) -> fs' !! x = fs !! x) /\
      (forall x sx, hs !! x = Some sx -> x ∉ fp -> hs' !! x = Some sx) /\
      (forall x, x ∈ footprint n fs' p -> x ∈ fp \/ hs !! x = None) /\
      (forall x, is_Some (hs' !! x) ->
         x ∈ footprint n fs' p \/ x ∈ kept frees rs \/ ((x ∉ fp) /\ is_Some (hs !! x))).
Proof.
  induction frees as [|b bs IH]; intros n p fp hs fs k t Hch Hnd Hok.
  - pose proof (chain_footprint _ _ _ _ _ _ Hch) as Hfp.
    exists [], hs, fs, k, []. cbn [next_strips_freeing]. rewrite Hfp.
    split; [reflexivity|]. split; [assumption|]. split; [assumption|].
    split; [assumption|]. split; [reflexivity|].
    split; [apply chain_calls_refl|]. split; [reflexivity|].
    split; [auto|]. split; [auto|]. split; [auto|]. split; [auto|].
    split; [auto|].
    intros x Hx. destruct (decide (x ∈ fp)); auto.
  - destruct (next_strip_post None no_target n p fp hs fs k t Hch Hnd Hok)
      as (r & hs1 & fs1 & k1 & evs1 & fp1 & f & f1 & s & Hrun1 & Hch1 & Hnd1 & Hok1 &
          Hr & Sr & Fr & Pr & Pfp & Frs & Frf & Hev1 & Hf & Hf1 & Hstep & Hcc1).
    destruct (next_strip_acct n p fp hs fs k t Hch Hnd Hok)
      as (r' & hs1' & fs1' & k1' & t1' & Hrun' & Hb & Hc & Htidy & Hlinked & _).
    rewrite Hrun1 in Hrun'. injection Hrun' as <- <- <- <- <-.
    rewrite (chain_footprint _ _ _ _ _ _ Hch) in Hb.
    rewrite (chain_footprint _ _ _ _ _ _ Hch1) in Hb.
    apply NoDup_cons in Hnd1 as [Hrfp1 Hnd1].
    set (hs1x := if b then delete r hs1 else hs1).
    assert (Hx1 : forall x, x <> r -> hs1x !! x = hs1 !! x).
    { intros x Hx. unfold hs1x. destruct b; [now apply lookup_delete_ne | reflexivity]. }
    assert (Hxr : is_Some (hs1x !! r) -> b = false).
    { unfold hs1x. destruct b; [|reflexivity].
      rewrite lookup_delete_eq. intros [? ?]. discriminate. }
    assert (Hch1x : chain None n p fp1 hs1x fs1).
    { apply (chain_frame None n p fp1 hs1 fs1); [assumption | | auto].
      intros x Hx. apply Hx1. intros ->. contradiction. }
    assert (Hok1x : heap_ok hs1x).
    { unfold hs1x. destruct b; [now apply heap_ok_delete | assumption]. }
    destruct (IH n p fp1 hs1x fs1 k1 (evs1 ++ t) Hch1x Hnd1 Hok1x)
      as (rs & hs' & fs' & k' & evs2 & Hrun2 & Hch' & Hnd' & Hok' & Hlen & Hcc2 & Hc2 &
          Htidy2 & Hlinked2 & Hc' & Frs' & Pfp' & Hb').
    destruct Hev1 as (Hk1 & Hcalls1 & _).
    assert (Hbase : forall x sx, hs !! x = Some sx -> x ∉ fp -> x <> r /\ x ∉ fp1).
    { intros x sx Hx Hnin. split.
      + intros ->. destruct Pr as [Hin|Hnone]; [contradiction | congruence].
      + intros Hin. destruct (Pfp x Hin) as [Hin'|Hnone]; [contradiction | congruence]. }
    exists (Some r :: rs), hs', fs', k', (evs2 ++ evs1).
    split.
    { cbn [next_strips_freeing].
      mstep. { exact Hrun1. }
      mstep.
      { instantiate (1 := mkState hs1x fs1 k1 (evs1 ++ t)). instantiate (1 := tt).
        unfold hs1x. destruct b; [|reflexivity].
        eapply free_strip_ok. exact Hr. }
      mstep. { exact Hrun2. }
      unfold ret. now rewrite app_assoc. }
    split; [assumption|]. split; [assumption|]. split; [assumption|].
    split; [cbn [length]; now rewrite Hlen|].
    split; [now apply (chain_calls_trans p fs fs1 fs')|].
    split; [rewrite calls_on_app, Hcalls1, Hc2; cbn [length]; lia|].
    split; [auto|]. split; [auto|].
    split.
    { intros x Hx. rewrite Hc'; [now apply Hc|].
      intros i. rewrite (proj1 Hcc1 i). apply Hx. }
    split.
    { intros x sx Hx Hnin. destruct (Hbase x sx Hx Hnin) as [Hxr' Hxfp1].
      apply Frs'; [|assumption]. rewrite Hx1 by assumption. now apply Frs. }
    split.
    { intros x Hx.
      destruct (decide (x ∈ fp)) as [Hin|Hnin]; [now left|]. right.
      destruct (hs !! x) as [sx|] eqn:Hsx; [|reflexivity]. exfalso.
      destruct (Hbase x sx Hsx Hnin) as [Hxr' Hxfp1].
      destruct (Pfp' x Hx) as [Hin|Hnone]; [contradiction|].
      rewrite Hx1, (Frs x sx Hsx Hnin) in Hnone by assumption. discriminate. }
    intros x Hx. cbn [kept].
    destruct (Hb' x Hx) as [Hin|[Hin|[Hnin Hsome]]]; [now left | |].
    { right. left. apply elem_of_app. now right. }
    destruct (decide (x = r)) as [->|Hxr'].
    + right. left. apply elem_of_app. left.
      rewrite (Hxr Hsome). cbn. left.
    + rewrite Hx1 in Hsome by assumption.
      destruct (Hb x Hsome) as [Hin|[->|Hbase']]; [contradiction | contradiction | auto].
Qed.

Lemma kept_all_freed cnt : forall rs, kept (replicate cnt true) rs = [].
Proof.
  induction cnt as [|c IH]; intros [|r rs]; cbn [replicate kept]; try reflexivity.
  now rewrite IH.
Qed.

End FreeingSessions.

(** ** How often each fold of a chain is called *)

Lemma flipn_even m b : flipn (2 * m) b = b.
Proof.
  revert b. induction m as [|m IH]; intros b; [reflexivity|].
  replace (2 * S m) with (S (S (2 * m))) by lia.
  rewrite !flipn_S, IH. apply negb_involutive.
Qed.

Lemma occurrences_call_events_next q q' evs :
  occurrences q' (call_events q q' evs) = occurrences q' evs.
Proof.
  unfold call_events. rewrite <- (occurrences_reverse q' evs).
  induction (reverse evs) as [|e l IH]; [reflexivity|].
  rewrite filter_cons. destruct (decide (e = q \/ e = q')) as [Hor|Hnor].
  - destruct (decide (e = q')) as [->|Hne].
    + now rewrite !occurrences_cons_eq, IH.
    + now rewrite !occurrences_cons_ne, IH by assumption.
  - rewrite occurrences_cons_ne by (intros ->; apply Hnor; now right). exact IH.
Qed.

Lemma nth_next_last fs i : forall p x,
  nth_next fs (S i) p = Some x ->
  exists q fq, nth_next fs i p = Some q /\ fs !! q = Some fq /\ f_next fq = Some x.
Proof.
  induction i as [|i IH]; intros p x Hx.
  - cbn [nth_next] in Hx. destruct (fs !! p) as [f|] eqn:Hf; [|discriminate].
    destruct (f_next f) as [q|] eqn:Hn; [|discriminate].
    injection Hx as <-. exists p, f. auto.
  - cbn [nth_next] in Hx. destruct (fs !! p) as [f|] eqn:Hf; [|discriminate].
    destruct (f_next f) as [q|] eqn:Hn; [|discriminate].
    destruct (IH q x Hx) as (y & fy & Hy & Hfy & Hny).
    exists y, fy. split; [|auto]. now rewrite (nth_next_top fs p f q).
Qed.

(** When the first fold of a new chain has been called [2^d * k] times,
    the fold [i <= d] links below has been called [2^(d-i) * k] times. *)
Lemma calls_at_depth fl n p fp hs fs fs' evs d k :
  chain fl n p fp hs fs ->
  (forall i q fq, nth_next fs i p = Some q -> fs !! q = Some fq -> f_state fq = START) ->
  chain_calls p fs fs' evs -> d <= n ->
  calls_on (Some p) evs = 2 ^ d * k ->
  forall i q, i <= d -> nth_next fs i p = Some q -> calls_on (Some q) evs = 2 ^ (d - i) * k.
Proof.
  intros Hch Hst [_ Hcc] Hd Hcnt i.
  induction i as [|i IH]; intros x Hi Hx.
  - injection Hx as <-. now rewrite Nat.sub_0_r.
  - destruct (nth_next_last fs i p x Hx) as (q & fq & Hq & Hfq & Hn).
    specialize (IH q ltac:(lia) Hq).
    destruct (chain_nth _ _ _ _ _ _ _ _ Hch Hq) as (_ & fq0 & Hfq0 & Hl).
    rewrite Hfq in Hfq0. injection Hfq0 as <-.
    destruct (chain_nth_next _ _ _ _ _ _ _ _ _ Hch Hq Hfq ltac:(lia)) as (x' & Hn' & Hne).
    rewrite Hn in Hn'. injection Hn' as <-.
    destruct (Hcc i q fq Hq Hfq ltac:(lia)) as (fq' & c & _ & _ & _ & Hc & Hpat & _).
    rewrite Hn in Hpat. rewrite calls_on_occurrences.
    rewrite <- (occurrences_call_events_next (EvNextStrip (Some q))), Hpat.
    assert (Hc2 : c = 2 * (2 ^ (d - S i) * k)).
    { rewrite <- Hc, IH. replace (d - i) with (S (d - S i)) by lia.
      rewrite Nat.pow_succ_r'. lia. }
    rewrite Hc2. apply pat_occurrences_q'. congruence.
Qed.

Lemma start_at_depth fl n p fp hs fs fs' evs d k :
  chain fl n p fp hs fs ->
  (forall i q fq, nth_next fs i p = Some q -> fs !! q = Some fq -> f_state fq = START) ->
  chain_calls p fs fs' evs -> d <= n ->
  calls_on (Some p) evs = 2 ^ d * k ->
  forall i q fq', i < d -> nth_next fs i p = Some q -> fs' !! q = Some fq' ->
                  f_state fq' = START.
Proof.
  intros Hch Hst Hcc Hd Hcnt i q fq' Hi Hq Hfq'.
  pose proof (calls_at_depth fl n p fp hs fs fs' evs d k Hch Hst Hcc Hd Hcnt i q
                ltac:(lia) Hq) as Hc.
  destruct (chain_nth _ _ _ _ _ _ _ _ Hch Hq) as (_ & fq & Hfq & Hl).
  destruct Hcc as [_ Hcc].
  destruct (Hcc i q fq Hq Hfq ltac:(lia)) as (fq2 & c & Hfq2 & _ & _ & Hc' & _ & Hflip).
  rewrite Hfq' in Hfq2. injection Hfq2 as <-.
  rewrite <- Hc', Hc in Hflip.
  replace (d - i) with (S (d - S i)) in Hflip by lia.
  rewrite Nat.pow_succ_r', <- Nat.mul_assoc, flipn_even in Hflip.
  unfold is_start in Hflip. rewrite (Hst i q fq Hq Hfq) in Hflip.
  rewrite (bool_decide_eq_true_2 (START = START)) in Hflip by reflexivity.
  now apply bool_decide_eq_true_1 in Hflip.
Qed.

(** ** [free_fold] *)

Lemma chain_locs_size fl n : forall p fp hs fs (D : gset positive),
  chain fl n p fp hs fs -> (forall i x, nth_next fs i p = Some x -> x ∈ D) -> n < size D.
Proof.
  induction n as [|j IH]; intros p fp hs fs D Hch HD.
  - assert (Hp : p ∈ D) by (apply (HD 0); reflexivity).
    destruct (decide (size D = 0)) as [Hz|]; [|lia].
    apply size_empty_inv in Hz. rewrite Hz in Hp. now apply not_elem_of_empty in Hp.
  - pose proof Hch as (f & Hf & Hl & _ & q & fq & Hn & Hq & _).
    assert (Hp : p ∈ D) by (apply (HD 0); reflexivity).
    assert (Hlt : j < size (D ∖ {[p]})).
    { apply (IH q fq hs fs); [assumption|]. intros i x Hx. apply elem_of_difference. split.
      - apply (HD (S i)). now rewrite (nth_next_top fs p f q).
      - rewrite elem_of_singleton. eapply chain_below_ne; eauto. }
    rewrite size_difference in Hlt by (now apply singleton_subseteq_l).
    rewrite size_singleton in Hlt. lia.
Qed.

Lemma chain_size fl n p fp hs fs : chain fl n p fp hs fs -> n < size fs.
Proof.
  intros Hch. rewrite <- (size_dom (D := gset positive)).
  apply (chain_locs_size fl n p fp hs fs); [assumption|].
  intros i x Hx. destruct (chain_nth _ _ _ _ _ _ _ _ Hch Hx) as (_ & fx & Hfx & _).
  apply elem_of_dom. eauto.
Qed.

Section Freeing.
Context {E : Env}.

Lemma skip_ok {A : Type} (st : state) (x : option A) (m : M unit) :
  x = None -> (if decide (x ≠ None) then m else ret tt) st = Ok tt st.
Proof. intros ->. destruct (decide (None ≠ None)) as [H|_]; [now destruct H | reflexivity]. Qed.

Lemma free_slot_ok {A : Type} hs fs k t (x : option A) l s :
  x <> None -> hs !! l = Some s ->
  (if decide (x ≠ None) then free_strip (Some l) else ret tt) (mkState hs fs k t) =
  Ok tt (mkState (delete l hs) fs k t).
Proof.
  intros Hx Hl. destruct (decide (x ≠ None)); [|contradiction].
  eapply free_strip_ok. exact Hl.
Qed.

Lemma free_block_ok hs fs k t l f :
  fs !! l = Some f ->
  free_block (Some l) (mkState hs fs k t) = Ok tt (mkState hs (delete l fs) k t).
Proof. intros H. unfold free_block. cbn [folds]. now rewrite H. Qed.

(** [free_fold] on a chain in which no fold is in the middle of an
    update frees the strips the chain owns and its folds, and nothing
    else. *)
Lemma free_fold_rec_idle : forall n fuel p hs fs k t,
  n < fuel -> chain None n p (footprint n fs p) hs fs -> NoDup (footprint n fs p) ->
  tidy fs p ->
  (forall i q fq, nth_next fs i p = Some q -> fs !! q = Some fq ->
                  f_level fq <> 0%Z -> f_state fq = START) ->
  exists hs' fs',
    free_fold_rec fuel (Some p) (mkState hs fs k t) = Ok tt (mkState hs' fs' k t) /\
    (forall x, x ∈ footprint n fs p -> hs' !! x = None) /\
    (forall x, x ∉ footprint n fs p -> hs' !! x = hs !! x) /\
    (forall i x, nth_next fs i p = Some x -> fs' !! x = None) /\
    (forall x, (forall i, nth_next fs i p <> Some x) -> fs' !! x = fs !! x).
Proof.
  induction n as [|j IH]; intros fuel p hs fs k t Hfuel Hch Hnd Ht Hst;
    (destruct fuel as [|fuel]; [lia|]).
  - destruct Hch as (f & Hf & Hl & _ & _ & Hn).
    destruct (proj1 (Ht 0 p f eq_refl Hf) Hl) as (T1 & T2 & T3 & T4).
    exists hs, (delete p fs). split.
    { cbn [free_fold_rec].
      mstep. { apply get_fold_ok. exact Hf. }
      mstep. { now apply skip_ok. }
      mstep. { apply get_fold_ok. exact Hf. }
      mstep. { now apply skip_ok. }
      mstep. { apply get_fold_ok. exact Hf. }
      mstep. { now apply skip_ok. }
      mstep. { apply get_fold_ok. exact Hf. }
      mstep. { now apply skip_ok. }
      mstep. { apply get_fold_ok. exact Hf. }
      mstep. { now apply skip_ok. }
      eapply free_block_ok. exact Hf. }
    split; [intros x Hx; inversion Hx|]. split; [reflexivity|].
    split.
    { intros [|i] x Hx.
      - injection Hx as <-. apply lookup_delete_eq.
      - rewrite (nth_next_bottom fs p f) in Hx by assumption. discriminate. }
    intros x Hx. apply lookup_delete_ne. intros ->. now apply (Hx 0).
  - pose proof Hch as (f & Hf & Hl & _ & q & fq & Hn & Hq & Hcase).
    assert (Hs : f_state f = START) by (apply (Hst 0 p f eq_refl Hf); lia).
    destruct Hcase as [(_ & r & o & Hr & Ho & Hfp & Sr & So)
                      |(Hx & _)]; [|rewrite Hs in Hx; discriminate].
    destruct (proj2 (Ht 0 p f eq_refl Hf) ltac:(lia) Hs) as (T1 & T2).
    pose proof (chain_footprint _ _ _ _ _ _ Hq) as Hfq. subst fq.
    rewrite Hfp in Hnd |- *.
    apply NoDup_cons in Hnd as [Hr0 Hnd]. apply NoDup_cons in Hnd as [Hoq Hndq].
    rewrite !not_elem_of_cons in Hr0. destruct Hr0 as (Hro & Hrq).
    destruct Sr as (sr & Hsr & _), So as (so & Hso & _).
    set (hs2 := delete o (delete r hs)).
    assert (Hkeep : forall x, x <> r -> x <> o -> hs2 !! x = hs !! x).
    { intros x H1 H2. unfold hs2. now rewrite !lookup_delete_ne by congruence. }
    assert (Hq2 : chain None j q (footprint j fs q) hs2 fs).
    { apply (chain_frame None j q _ hs fs); [assumption | | auto].
      intros x Hx. apply Hkeep; intros ->; contradiction. }
    destruct (IH fuel q hs2 fs k t ltac:(lia) Hq2 Hndq (tidy_next fs p f q Hf Hn Ht))
      as (hs' & fs' & Hrun & F1 & F2 & F3 & F4).
    { intros i x fx Hx. apply (Hst (S i)). now rewrite (nth_next_top fs p f q). }
    assert (Hpq : forall i, nth_next fs i q <> Some p).
    { intros i Hx. now apply (chain_below_ne _ _ _ _ _ _ _ _ _ _ Hq Hf Hl Hx). }
    exists hs', (delete p fs'). split.
    { cbn [free_fold_rec].
      mstep. { apply get_fold_ok. exact Hf. }
      mstep. { now apply skip_ok. }
      mstep. { apply get_fold_ok. exact Hf. }
      mstep. { now apply skip_ok. }
      mstep. { apply get_fold_ok. exact Hf. }
      rewrite Hr.
      mstep. { eapply free_slot_ok; [discriminate | exact Hsr]. }
      mstep. { apply get_fold_ok. exact Hf. }
      rewrite Ho.
      mstep. { eapply free_slot_ok; [discriminate|].
               rewrite lookup_delete_ne by congruence. exact Hso. }
      mstep. { apply get_fold_ok. exact Hf. }
      rewrite Hn. destruct (decide (Some q ≠ None)) as [_|Hx]; [|now destruct Hx].
      mstep. { exact Hrun. }
      eapply free_block_ok. rewrite (F4 p Hpq). exact Hf. }
    split.
    { intros x Hx. rewrite !elem_of_cons in Hx. destruct Hx as [->|[->|Hx]].
      - rewrite (F2 r Hrq). unfold hs2. rewrite lookup_delete_ne by congruence.
        apply lookup_delete_eq.
      - rewrite (F2 o Hoq). apply lookup_delete_eq.
      - now apply F1. }
    split.
    { intros x Hx. rewrite !not_elem_of_cons in Hx. destruct Hx as (H1 & H2 & H3).
      rewrite (F2 x H3). now apply Hkeep. }
    split.
    { intros [|i] x Hx.
      - injection Hx as <-. apply lookup_delete_eq.
      - rewrite (nth_next_top fs p f q) in Hx by assumption.
        destruct (decide (x = p)) as [->|Hne]; [apply lookup_delete_eq|].
        rewrite lookup_delete_ne by congruence. now apply (F3 i). }
    intros x Hx. rewrite lookup_delete_ne by (intros ->; now apply (Hx 0)).
    apply F4. intros i Hi. apply (Hx (S i)). now rewrite (nth_next_top fs p f q).
Qed.

End Freeing.

Lemma in_chain_dec fl n : forall p fp hs fs x,
  chain fl n p fp hs fs ->
  (exists i, nth_next fs i p = Some x) \/ (forall i, nth_next fs i p <> Some x).
Proof.
  induction n as [|j IH]; intros p fp hs fs x Hch.
  - destruct Hch as (f & Hf & _ & _ & _ & Hn).
    destruct (decide (x = p)) as [->|Hne]; [left; now exists 0|].
    right. intros [|i] Hx.
    + injection Hx as <-. contradiction.
    + rewrite (nth_next_bottom fs p f) in Hx by assumption. discriminate.
  - destruct Hch as (f & Hf & _ & _ & q & fq & Hn & Hq & _).
    destruct (decide (x = p)) as [->|Hne]; [left; now exists 0|].
    destruct (IH q fq hs fs x Hq) as [[i Hi]|Hno].
    + left. exists (S i). now rewrite (nth_next_top fs p f q).
    + right. intros [|i] Hx.
      * injection Hx as <-. contradiction.
      * rewrite (nth_next_top fs p f q) in Hx by assumption. now apply (Hno i).
Qed.

Lemma footprint_start_length fl n : forall p fp hs fs,
  chain fl n p fp hs fs ->
  (forall i q f, nth_next fs i p = Some q -> fs !! q = Some f -> f_state f = START) ->
  length fp = 2 * n.
Proof.
  induction n as [|j IH]; intros p fp hs fs Hch Hst.
  - now destruct Hch as (f & _ & _ & _ & -> & _).
  - destruct Hch as (f & Hf & _ & _ & q & fq & Hn & Hq & Hcase).
    destruct Hcase as [(_ & r & o & _ & _ & -> & _)|(Hx & _)];
      [|rewrite (Hst 0 p f eq_refl Hf) in Hx; discriminate].
    cbn [length]. rewrite (IH q fq hs fs Hq); [lia|].
    intros i x fx Hx. apply (Hst (S i)). now rewrite (nth_next_top fs p f q).
Qed.

Section MakeFold.
Context {E : Env}.

Lemma make_fold_shape n smooth len start mean fdim hs fs k t :
  n <= 30 -> heap_ok hs ->
  exists p hs' fs',
    make_fold (Z.of_nat n) smooth len start mean fdim (mkState hs fs k t) =
      Ok (Some p) (mkState hs' fs' k t) /\
    chain None n p (footprint n fs' p) hs' fs' /\ NoDup (footprint n fs' p) /\
    heap_ok hs' /\
    (forall x, x ∈ footprint n fs' p -> hs !! x = None) /\
    (forall x, x ∉ footprint n fs' p -> hs' !! x = hs !! x) /\
    (forall i x, nth_next fs' i p = Some x -> fs !! x = None) /\
    (forall x, (forall i, nth_next fs' i p <> Some x) -> fs' !! x = fs !! x) /\
    tidy fs' p /\ linked fs' p /\
    (forall i q f, nth_next fs' i p = Some q -> fs' !! q = Some f -> f_state f = START) /\
    (forall i q f, nth_next fs' i p = Some q -> fs' !! q = Some f ->
                   made_fold n i smooth len start mean fdim hs' f).
Proof.
  intros Hlv Hok. unfold make_fold. rewrite Nat2Z.id.
  destruct (make_fold_rec_shape n (S n) smooth len start mean fdim hs fs k t
              ltac:(lia) Hlv Hok)
    as (p & hs' & fs' & Hrun & Hch & Hnd & Hok' & P1 & F1 & L1 & G1 & Ht & Hm).
  assert (Hst : forall i q f, nth_next fs' i p = Some q -> fs' !! q = Some f ->
                              f_state f = START).
  { intros i q f Hq Hf. now destruct (Hm i q f Hq Hf) as (_ & Hs & _). }
  exists p, hs', fs'. repeat (split; [assumption|]).
  split; [|split; assumption].
  intros i q fq c fc Hq Hfq Hn Hfc _ Hs _.
  rewrite (Hst i q fq Hq Hfq) in Hs. discriminate.
Qed.

(** X10 ([make_fold]).  [make_fold(n, ...)] with [n] from 0 to 30
    returns; it draws no sample and leaves the strips and folds of the store as they
    were.  It adds a chain of [n + 1] folds.  The fold [i] links below the
    first has level [n - i], state [START], the given [smooth] and [mean],
    [scale = pow(l, 2 * fdim)] and [midscale = pow(l * sqrt(2), 2 * fdim)]
    for [l] the length [len] doubled [i] times, and [new] and [working]
    [NULL]; at levels above 0 its [regen] and [old] are two new
    strips of its level with all entries at [start]; the fold of level 0
    has [regen], [old] and [next] [NULL].  These [2 * n] strips are all the
    chain owns. *)
Theorem make_fold_builds (n : nat) (smooth : Z) (len : Length) (start mean fdim : Height)
    (st : state) :
  n <= 30 -> strips_ok st ->
  exists p st1,
    make_fold (Z.of_nat n) smooth len start mean fdim st = Ok (Some p) st1 /\
    draws st1 = draws st /\ trace st1 = trace st /\
    (forall x s, strips st !! x = Some s -> strips st1 !! x = Some s) /\
    (forall x f, folds st !! x = Some f -> folds st1 !! x = Some f) /\
    (forall x, x ∈ footprint n (folds st1) p -> strips st !! x = None) /\
    length (footprint n (folds st1) p) = 2 * n /\
    forall i, i <= n ->
      exists q f,
        nth_next (folds st1) i p = Some q /\ folds st !! q = None /\
        folds st1 !! q = Some f /\
        made_fold n i smooth len start mean fdim (strips st1) f.
Proof.
  intros Hlv Hok. destruct st as [hs fs k t].
  apply strips_ok_heap_ok in Hok. cbn [strips folds draws trace] in *.
  destruct (make_fold_shape n smooth len start mean fdim hs fs k t ltac:(lia) Hok)
    as (p & hs' & fs' & Hrun & Hch & Hnd & Hok' & P1 & F1 & L1 & G1 & Ht & _ & Hst & Hm).
  exists p, (mkState hs' fs' k t). cbn [strips folds draws trace].
  split; [exact Hrun|]. split; [reflexivity|]. split; [reflexivity|].
  split.
  { intros x s Hx. rewrite F1; [assumption|]. intros Hin. rewrite (P1 x Hin) in Hx.
    discriminate. }
  split.
  { intros x f Hx. rewrite G1; [assumption|]. intros i Hi. rewrite (L1 i x Hi) in Hx.
    discriminate. }
  split; [exact P1|].
  split.
  { exact (footprint_start_length None n p _ hs' fs' Hch Hst). }
  intros i Hi.
  destruct (chain_nth_exists _ _ _ _ _ _ i Hch Hi) as (q & Hq).
  destruct (chain_nth _ _ _ _ _ _ _ _ Hch Hq) as (_ & f & Hf & _).
  exists q, f. split; [assumption|]. split; [now apply (L1 i)|].
  split; [assumption|]. now apply (Hm i q).
Qed.

End MakeFold.

(** ** Sessions that end with [free_fold] *)

Section FreeFold.
Context {E : Env}.

(** A session in which every returned strip is freed and that stops
    after a multiple of [2^n] calls can be ended with [free_fold]. *)
Lemma freed_session n smooth len start mean fdim c hs fs k t :
  n <= 30 -> heap_ok hs ->
  exists p st1 rs st2 st3,
    make_fold (Z.of_nat n) smooth len start mean fdim (mkState hs fs k t) = Ok (Some p) st1 /\
    next_strips_freeing (replicate (2 ^ n * c) true) (Some p) st1 = Ok rs st2 /\
    free_fold (Some p) st2 = Ok tt st3 /\
    strips st3 = hs /\ folds st3 = fs.
Proof.
  intros Hlv Hok.
  destruct (make_fold_shape n smooth len start mean fdim hs fs k t ltac:(lia) Hok)
    as (p & hs1 & fs1 & Hmk & Hch1 & Hnd1 & Hok1 & P1 & F1 & L1 & G1 & Ht1 & _ & Hst1 & _).
  destruct (next_strips_freeing_post (replicate (2 ^ n * c) true) n p _ hs1 fs1 k t
              Hch1 Hnd1 Hok1)
    as (rs & hs2 & fs2 & k2 & evs & Hrun & Hch2 & Hnd2 & Hok2 & Hlen & Hcc & Hcalls &
        Htidy & _ & Hfolds & Frs & Pfp & Hb).
  rewrite length_replicate in Hcalls. rewrite kept_all_freed in Hb.
  assert (Hstart : forall i q fq, nth_next fs2 i p = Some q -> fs2 !! q = Some fq ->
                     f_level fq <> 0%Z -> f_state fq = START).
  { intros i q fq Hq Hfq Hl.
    destruct (chain_nth _ _ _ _ _ _ _ _ Hch2 Hq) as (Hi & fq0 & Hfq0 & Hl0).
    rewrite Hfq in Hfq0. injection Hfq0 as <-.
    rewrite (proj1 Hcc i) in Hq.
    apply (start_at_depth None n p _ hs1 fs1 fs2 evs n c Hch1 Hst1 Hcc (le_n n) Hcalls
             i q fq); [lia | assumption | assumption]. }
  destruct (free_fold_rec_idle n (S (size fs2)) p hs2 fs2 k2 (evs ++ t)
              ltac:(pose proof (chain_size _ _ _ _ _ _ Hch2); lia)
              Hch2 Hnd2 (Htidy Ht1) Hstart)
    as (hs3 & fs3 & Hfree & A1 & A2 & A3 & A4).
  exists p, (mkState hs1 fs1 k t), rs, (mkState hs2 fs2 k2 (evs ++ t)),
    (mkState hs3 fs3 k2 (evs ++ t)).
  split; [exact Hmk|]. split; [exact Hrun|]. split; [exact Hfree|].
  cbn [strips folds]. split.
  - apply map_eq. intros x.
    destruct (decide (x ∈ footprint n fs2 p)) as [Hin|Hnin].
    + rewrite (A1 x Hin). symmetry.
      destruct (decide (x ∈ footprint n fs1 p)) as [Hin1|Hnin1]; [now apply P1|].
      destruct (Pfp x Hin) as [Hin1|Hnone]; [contradiction|].
      now rewrite <- (F1 x Hnin1).
    + rewrite (A2 x Hnin).
      destruct (hs2 !! x) as [s|] eqn:Hs.
      * destruct (Hb x (mk_is_Some _ _ Hs)) as [Hin|[Hin|[Hnin1 [s1 Hs1]]]];
          [contradiction | inversion Hin |].
        rewrite (Frs x s1 Hs1 Hnin1) in Hs. injection Hs as <-.
        now rewrite <- (F1 x Hnin1).
      * symmetry.
        destruct (decide (x ∈ footprint n fs1 p)) as [Hin1|Hnin1]; [now apply P1|].
        rewrite <- (F1 x Hnin1).
        destruct (hs1 !! x) as [s1|] eqn:Hs1; [|reflexivity].
        rewrite (Frs x s1 Hs1 Hnin1) in Hs. discriminate.
  - apply map_eq. intros x.
    destruct (in_chain_dec _ _ _ _ _ _ x Hch2) as [[i Hi]|Hno].
    + rewrite (A3 i x Hi). symmetry. rewrite (proj1 Hcc i) in Hi. now apply (L1 i).
    + rewrite (A4 x Hno).
      assert (Hno1 : forall i, nth_next fs1 i p <> Some x).
      { intros i. rewrite <- (proj1 Hcc i). apply Hno. }
      rewrite (Hfolds x Hno1). now apply G1.
Qed.

(** X14 (no leak).  Take a session that calls [make_fold(n, ...)] with
    [n] from 0 to 30, then calls [next_strip] a multiple of [2^n] times,
    freeing each returned strip with [free_strip], then calls
    [free_fold].  Every call returns, and at the end the store holds
    exactly the strips and the folds it held before [make_fold]. *)
Theorem session_frees_everything (n : nat) (smooth : Z) (len : Length)
    (start mean fdim : Height) (c : nat) (st0 : state) :
  n <= 30 -> strips_ok st0 ->
  exists p st1 rs st2 st3,
    make_fold (Z.of_nat n) smooth len start mean fdim st0 = Ok (Some p) st1 /\
    next_strips_freeing (replicate (2 ^ n * c) true) (Some p) st1 = Ok rs st2 /\
    free_fold (Some p) st2 = Ok tt st3 /\
    strips st3 = strips st0 /\ folds st3 = folds st0.
Proof.
  intros Hlv Hok. destruct st0 as [hs fs k t].
  apply strips_ok_heap_ok in Hok. cbn [strips] in Hok.
  destruct (freed_session n smooth len start mean fdim c hs fs k t Hlv Hok)
    as (p & st1 & rs & st2 & st3 & Hmk & Hrun & Hfree & Hs & Hf).
  exists p, st1, rs, st2, st3. cbn [strips folds].
  split; [exact Hmk|]. split; [exact Hrun|]. split; [exact Hfree|].
  split; [exact Hs | exact Hf].
Qed.

(** After an even number of calls on a new chain the first fold is in
    state [START]; the call that follows returns [old] and leaves the
    fold in state [STORE], still pointing to the returned strip. *)
Lemma after_start_call n smooth len start mean fdim (frees : list bool) hs fs k t :
  1 <= n <= 30 -> heap_ok hs -> Nat.Even (length frees) ->
  exists p st1 rs hs2 fs2 k2 t2 r hs3 fs3 k3 t3 f' rg w nw fq,
    make_fold (Z.of_nat n) smooth len start mean fdim (mkState hs fs k t) =
      Ok (Some p) st1 /\
    next_strips_freeing frees (Some p) st1 = Ok rs (mkState hs2 fs2 k2 t2) /\
    next_strip (Some p) (mkState hs2 fs2 k2 t2) = Ok (Some r) (mkState hs3 fs3 k3 t3) /\
    fs3 !! p = Some f' /\ f_old f' = Some r /\
    f_regen f' = Some rg /\ f_working f' = Some w /\ f_new f' = Some nw /\
    NoDup (r :: rg :: w :: nw :: fq) /\
    (forall x, x ∈ r :: rg :: w :: nw :: fq -> is_Some (hs3 !! x)).
Proof.
  intros Hn Hok [m Hm].
  destruct (make_fold_shape n smooth len start mean fdim hs fs k t ltac:(lia) Hok)
    as (p & hs1 & fs1 & Hmk & Hch1 & Hnd1 & Hok1 & _ & _ & _ & _ & _ & _ & Hst1 & _).
  destruct (next_strips_freeing_post frees n p _ hs1 fs1 k t Hch1 Hnd1 Hok1)
    as (rs & hs2 & fs2 & k2 & evs & Hrun & Hch2 & Hnd2 & Hok2 & _ & Hcc & Hcalls & _).
  destruct (chain_fold _ _ _ _ _ _ Hch2) as (f2 & Hf2 & Hl2 & _).
  assert (Hs2 : f_state f2 = START).
  { apply (start_at_depth None n p _ hs1 fs1 fs2 evs 1 m Hch1 Hst1 Hcc (proj1 Hn)
             ltac:(rewrite Hcalls, Hm; cbn; lia) 0 p f2); [lia | reflexivity | assumption]. }
  destruct (next_strip_post None no_target n p _ hs2 fs2 k2 (evs ++ t) Hch2 Hnd2 Hok2)
    as (r & hs3 & fs3 & k3 & evs3 & fp3 & f & f' & s & Hrun3 & Hch3 & Hnd3 & Hok3 &
        Hr & _ & _ & _ & _ & _ & _ & _ & Hf & Hf' & Hstep & _).
  rewrite Hf2 in Hf. injection Hf as <-.
  destruct n as [|j]; [lia|].
  destruct Hstep as (_ & _ & _ & _ & _ & _ & [(_ & Hs' & _ & Hold)|(Hx & _)]);
    [|rewrite Hs2 in Hx; discriminate].
  pose proof (chain_alloc _ _ _ _ _ _ Hch3) as Halloc.
  destruct Hch3 as (f3 & Hf3 & _ & _ & q & fq & _ & _ & Hcase).
  rewrite Hf' in Hf3. injection Hf3 as <-.
  destruct Hcase as [(Hx & _)|(_ & rg & w & nw & Hrg & Hw & Hnw & -> & _)];
    [rewrite Hs' in Hx; discriminate|].
  exists p, (mkState hs1 fs1 k t), rs, hs2, fs2, k2, (evs ++ t), r, hs3, fs3, k3,
    (evs3 ++ evs ++ t), f', rg, w, nw, fq.
  repeat (split; [assumption|]).
  intros x Hx. apply elem_of_cons in Hx as [->|Hx]; [eauto | now apply Halloc].
Qed.

(** X15 (double free through [old]).  A [START] call returns [old] and
    leaves the pointer in the fold.  So after an odd number of calls on a
    chain of a level from 1 to 30, if the caller frees the strip it has just
    been given, as the header of the file asks, [free_fold] frees that
    strip a second time: undefined behaviour.  This is so whichever of
    the strips returned before the caller has freed. *)
Theorem free_fold_after_start_call (n : nat) (smooth : Z) (len : Length)
    (start mean fdim : Height) (frees : list bool) (st0 : state) :
  1 <= n <= 30 -> strips_ok st0 -> Nat.Even (length frees) ->
  exists p st1 rs st2,
    make_fold (Z.of_nat n) smooth len start mean fdim st0 = Ok (Some p) st1 /\
    next_strips_freeing frees (Some p) st1 = Ok rs st2 /\
    (r <- next_strip (Some p) ;; free_strip r ;;; free_fold (Some p)) st2 = Undefined.
Proof.
  intros Hn Hok Hev. destruct st0 as [hs fs k t].
  apply strips_ok_heap_ok in Hok. cbn [strips] in Hok.
  destruct (after_start_call n smooth len start mean fdim frees hs fs k t Hn Hok Hev)
    as (p & st1 & rs & hs2 & fs2 & k2 & t2 & r & hs3 & fs3 & k3 & t3 & f' & rg & w & nw &
        fq & Hmk & Hrun & Hcall & Hf' & Hold & Hrg & Hw & Hnw & Hnd & Hal).
  exists p, st1, rs, (mkState hs2 fs2 k2 t2).
  split; [exact Hmk|]. split; [exact Hrun|].
  apply NoDup_cons in Hnd as [N1 Hnd]. apply NoDup_cons in Hnd as [N2 Hnd].
  apply NoDup_cons in Hnd as [N3 Hnd]. apply NoDup_cons in Hnd as [N4 Hnd].
  rewrite !not_elem_of_cons in N1. rewrite !not_elem_of_cons in N2.
  rewrite !not_elem_of_cons in N3.
  destruct N1 as (? & ? & ? & _), N2 as (? & ? & _), N3 as (? & _).
  destruct (Hal r ltac:(rewrite !elem_of_cons; auto)) as [sr Hsr].
  destruct (Hal rg ltac:(rewrite !elem_of_cons; auto)) as [srg Hsrg].
  destruct (Hal w ltac:(rewrite !elem_of_cons; auto)) as [sw Hsw].
  destruct (Hal nw ltac:(rewrite !elem_of_cons; auto)) as [snw Hsnw].
  mstep. { exact Hcall. }
  mstep. { eapply free_strip_ok. exact Hsr. }
  unfold free_fold. cbn [folds free_fold_rec].
  mstep. { apply get_fold_ok. exact Hf'. }
  rewrite Hnw.
  mstep. { eapply free_slot_ok; [discriminate|].
           rewrite lookup_delete_ne by congruence. exact Hsnw. }
  mstep. { apply get_fold_ok. exact Hf'. }
  rewrite Hw.
  mstep. { eapply free_slot_ok; [discriminate|].
           rewrite !lookup_delete_ne by congruence. exact Hsw. }
  mstep. { apply get_fold_ok. exact Hf'. }
  rewrite Hrg.
  mstep. { eapply free_slot_ok; [discriminate|].
           rewrite !lookup_delete_ne by congruence. exact Hsrg. }
  mstep. { apply get_fold_ok. exact Hf'. }
  rewrite Hold. apply bind_Undefined.
  destruct (decide (Some r ≠ None)) as [_|Hx]; [|now destruct Hx].
  unfold free_strip. cbn [strips].
  rewrite !lookup_delete_ne by congruence. now rewrite lookup_delete_eq.
Qed.

End FreeFold.

Lemma free_fold_rec_S (k : nat) (f : ptr) :
  free_fold_rec (S k) f =
  (f1 <- get_fold f ;;
   (if decide (f_new f1 ≠ None) then free_strip (f_new f1) else ret tt) ;;;
   f2 <- get_fold f ;;
   (if decide (f_working f2 ≠ None) then free_strip (f_working f2) else ret tt) ;;;
   f3 <- get_fold f ;;
   (if decide (f_regen f3 ≠ None) then free_strip (f_regen f3) else ret tt) ;;;
   f4 <- get_fold f ;;
   (if decide (f_old f4 ≠ None) then free_strip (f_old f4) else ret tt) ;;;
   f5 <- get_fold f ;;
   (if decide (f_next f5 ≠ None) then free_fold_rec k (f_next f5) else ret tt) ;;;
   free_block f).
Proof. reflexivity. Qed.

Section Aliasing.
Context {E : Env}.

(** After [4 * m] calls on a new chain of level at least 2 and one more
    call, the first fold and the fold below it are both in state
    [STORE], and [new] of the first is [old] of the second. *)
Lemma after_nested_start_calls n smooth len start mean fdim (frees : list bool) m
    hs fs k t :
  2 <= n <= 30 -> heap_ok hs -> length frees = 4 * m ->
  exists p st1 rs hs2 fs2 k2 t2 r hs3 fs3 k3 t3 f' rg w nw q g' rg' w' nw' fq,
    make_fold (Z.of_nat n) smooth len start mean fdim (mkState hs fs k t) =
      Ok (Some p) st1 /\
    next_strips_freeing frees (Some p) st1 = Ok rs (mkState hs2 fs2 k2 t2) /\
    next_strip (Some p) (mkState hs2 fs2 k2 t2) = Ok (Some r) (mkState hs3 fs3 k3 t3) /\
    fs3 !! p = Some f' /\ f_old f' = Some r /\
    f_regen f' = Some rg /\ f_working f' = Some w /\ f_new f' = Some nw /\
    f_next f' = Some q /\ fs3 !! q = Some g' /\ f_old g' = Some nw /\
    f_regen g' = Some rg' /\ f_working g' = Some w' /\ f_new g' = Some nw' /\
    NoDup (r :: rg :: w :: nw :: rg' :: w' :: nw' :: fq) /\
    (forall x, x ∈ r :: rg :: w :: nw :: rg' :: w' :: nw' :: fq -> is_Some (hs3 !! x)) /\
    2 <= size fs3.
Proof.
  intros Hn Hok Hm.
  destruct (make_fold_shape n smooth len start mean fdim hs fs k t ltac:(lia) Hok)
    as (p & hs1 & fs1 & Hmk & Hch1 & Hnd1 & Hok1 & _ & _ & _ & _ & _ & Hlk1 & Hst1 & _).
  destruct (next_strips_freeing_post frees n p _ hs1 fs1 k t Hch1 Hnd1 Hok1)
    as (rs & hs2 & fs2 & k2 & evs & Hrun & Hch2 & Hnd2 & Hok2 & _ & Hcc & Hcalls & _ &
        Hlk2 & _).
  assert (Hcalls4 : calls_on (Some p) evs = 2 ^ 2 * m) by (rewrite Hcalls, Hm; cbn; lia).
  destruct n as [|[|j]]; [lia | lia |].
  pose proof Hch2 as (f2 & Hf2 & Hl2 & _ & q & fq2 & Hn2 & Hq2 & _).
  destruct (chain_fold _ _ _ _ _ _ Hq2) as (g & Hg & Hlg & _).
  assert (Hq1 : nth_next fs2 1 p = Some q).
  { rewrite (nth_next_top fs2 p f2 q) by assumption. reflexivity. }
  assert (Hs2 : f_state f2 = START).
  { apply (start_at_depth None _ p _ hs1 fs1 fs2 evs 2 m Hch1 Hst1 Hcc (proj1 Hn) Hcalls4 0 p f2);
      [lia | reflexivity | assumption]. }
  assert (Hsg : f_state g = START).
  { apply (start_at_depth None _ p _ hs1 fs1 fs2 evs 2 m Hch1 Hst1 Hcc (proj1 Hn) Hcalls4 1 q g);
      [lia | now rewrite <- (proj1 Hcc 1) | assumption]. }
  destruct (next_strip_post None no_target _ p _ hs2 fs2 k2 (evs ++ t) Hch2 Hnd2 Hok2)
    as (r & hs3 & fs3 & k3 & evs3 & fp3 & f & f' & s & Hrun3 & Hch3 & Hnd3 & Hok3 &
        Hr & _ & _ & _ & _ & _ & _ & Hev3 & Hf & Hf' & Hstep & Hcc3).
  destruct (next_strip_acct _ p _ hs2 fs2 k2 (evs ++ t) Hch2 Hnd2 Hok2)
    as (r' & hs3' & fs3' & k3' & t3' & Hrun' & _ & _ & _ & Hlk3 & _).
  rewrite Hrun3 in Hrun'. injection Hrun' as <- <- <- <- <-.
  rewrite Hf2 in Hf. injection Hf as <-.
  destruct Hstep as (_ & _ & _ & _ & _ & Hnx & [(_ & Hs' & _ & Hold)|(Hx & _)]);
    [|rewrite Hs2 in Hx; discriminate].
  destruct Hev3 as (_ & _ & _ & Hc1).
  rewrite Hn2, Hs2 in Hc1. destruct (decide (START = START)); [|contradiction].
  destruct (proj2 Hcc3 1 q g Hq1 Hg ltac:(lia))
    as (g' & c & Hg' & _ & _ & Hc & _ & Hflip).
  rewrite Hc1 in Hc. subst c.
  assert (Hsg' : f_state g' <> START).
  { intros Hx. unfold is_start in Hflip. rewrite Hx, Hsg in Hflip.
    rewrite (bool_decide_eq_true_2 (START = START)) in Hflip by reflexivity.
    discriminate. }
  pose proof (chain_alloc _ _ _ _ _ _ Hch3) as Halloc.
  pose proof (chain_size _ _ _ _ _ _ Hch3) as Hsize.
  destruct Hch3 as (f3 & Hf3 & _ & _ & q3 & fq3 & Hn3 & Hq3 & Hcase).
  rewrite Hf' in Hf3. injection Hf3 as <-.
  rewrite Hnx, Hn2 in Hn3. injection Hn3 as <-.
  destruct Hcase as [(Hx & _)|(_ & rg & w & nw & Hrg & Hw & Hnw & -> & _)];
    [rewrite Hs' in Hx; discriminate|].
  destruct Hq3 as (g3 & Hg3 & _ & _ & q4 & fq & _ & _ & Hcase).
  rewrite Hg' in Hg3. injection Hg3 as <-.
  destruct Hcase as [(Hx & _)|(Hsg3 & rg' & w' & nw' & Hrg' & Hw' & Hnw' & -> & _)];
    [contradiction|].
  assert (Hlev : (0 < f_level g')%Z).
  { destruct (proj2 Hcc3 1 q g Hq1 Hg ltac:(lia)) as (g'' & _ & Hg'' & _ & Hl'' & _).
    rewrite Hg' in Hg''. injection Hg'' as <-. lia. }
  pose proof (Hlk3 (Hlk2 Hlk1) 0 p f' q g' eq_refl Hf' ltac:(congruence) Hg' Hlev Hs' Hsg3)
    as Hlink.
  rewrite Hnw in Hlink.
  exists p, (mkState hs1 fs1 k t), rs, hs2, fs2, k2, (evs ++ t), r, hs3, fs3, k3,
    (evs3 ++ evs ++ t), f', rg, w, nw, q, g', rg', w', nw', fq.
  split; [assumption|]. split; [assumption|]. split; [assumption|].
  split; [assumption|]. split; [assumption|]. split; [assumption|].
  split; [assumption|]. split; [assumption|]. split; [congruence|].
  split; [assumption|]. split; [congruence|]. split; [assumption|].
  split; [assumption|]. split; [assumption|]. split; [assumption|].
  split; [|lia].
  intros x Hx. apply elem_of_cons in Hx as [->|Hx]; [eauto | now apply Halloc].
Qed.

(** X16 (double free inside the chain).  On a chain of a level from 2 to
    30, the call number [4 * m + 1] is a [START] call that makes a [START]
    call on the next fold; after it [new] of the first fold and [old] of
    the next fold point to the same strip, and [free_fold] frees it
    twice: undefined behaviour, even when the caller keeps the strip it
    has just been given. *)
Theorem free_fold_between_updates (n : nat) (smooth : Z) (len : Length)
    (start mean fdim : Height) (frees : list bool) (m : nat) (st0 : state) :
  2 <= n <= 30 -> strips_ok st0 -> length frees = 4 * m ->
  exists p st1 rs st2,
    make_fold (Z.of_nat n) smooth len start mean fdim st0 = Ok (Some p) st1 /\
    next_strips_freeing frees (Some p) st1 = Ok rs st2 /\
    (next_strip (Some p) ;;; free_fold (Some p)) st2 = Undefined.
Proof.
  intros Hn Hok Hm. destruct st0 as [hs fs k t].
  apply strips_ok_heap_ok in Hok. cbn [strips] in Hok.
  destruct (after_nested_start_calls n smooth len start mean fdim frees m hs fs k t
              Hn Hok Hm)
    as (p & st1 & rs & hs2 & fs2 & k2 & t2 & r & hs3 & fs3 & k3 & t3 & f' & rg & w & nw &
        q & g' & rg' & w' & nw' & fq & Hmk & Hrun & Hcall & Hf' & Hold & Hrg & Hw & Hnw &
        Hnx & Hg' & Hgold & Hrg' & Hw' & Hnw' & Hnd & Hal & Hsize).
  exists p, st1, rs, (mkState hs2 fs2 k2 t2).
  split; [exact Hmk|]. split; [exact Hrun|].
  apply NoDup_cons in Hnd as [N1 Hnd]. apply NoDup_cons in Hnd as [N2 Hnd].
  apply NoDup_cons in Hnd as [N3 Hnd]. apply NoDup_cons in Hnd as [N4 Hnd].
  apply NoDup_cons in Hnd as [N5 Hnd]. apply NoDup_cons in Hnd as [N6 Hnd].
  rewrite !not_elem_of_cons in N1. rewrite !not_elem_of_cons in N2.
  rewrite !not_elem_of_cons in N3. rewrite !not_elem_of_cons in N4.
  rewrite !not_elem_of_cons in N5. rewrite !not_elem_of_cons in N6.
  destruct N1 as (? & ? & ? & ? & ? & ? & _), N2 as (? & ? & ? & ? & ? & _),
    N3 as (? & ? & ? & ? & _), N4 as (? & ? & ? & _), N5 as (? & ? & _), N6 as (? & _).
  destruct (Hal r ltac:(rewrite !elem_of_cons; auto)) as [sr Hsr].
  destruct (Hal rg ltac:(rewrite !elem_of_cons; auto)) as [srg Hsrg].
  destruct (Hal w ltac:(rewrite !elem_of_cons; auto)) as [sw Hsw].
  destruct (Hal nw ltac:(rewrite !elem_of_cons; auto)) as [snw Hsnw].
  destruct (Hal rg' ltac:(rewrite !elem_of_cons; auto 10)) as [srg' Hsrg'].
  destruct (Hal w' ltac:(rewrite !elem_of_cons; auto 10)) as [sw' Hsw'].
  destruct (Hal nw' ltac:(rewrite !elem_of_cons; auto 10)) as [snw' Hsnw'].
  mstep. { exact Hcall. }
  unfold free_fold. cbn [folds].
  destruct (size fs3) as [|sz]; [lia|].
  rewrite free_fold_rec_S.
  mstep. { apply get_fold_ok. exact Hf'. }
  rewrite Hnw.
  mstep. { eapply free_slot_ok; [discriminate | exact Hsnw]. }
  mstep. { apply get_fold_ok. exact Hf'. }
  rewrite Hw.
  mstep. { eapply free_slot_ok; [discriminate|].
           rewrite !lookup_delete_ne by congruence. exact Hsw. }
  mstep. { apply get_fold_ok. exact Hf'. }
  rewrite Hrg.
  mstep. { eapply free_slot_ok; [discriminate|].
           rewrite !lookup_delete_ne by congruence. exact Hsrg. }
  mstep. { apply get_fold_ok. exact Hf'. }
  rewrite Hold.
  mstep. { eapply free_slot_ok; [discriminate|].
           rewrite !lookup_delete_ne by congruence. exact Hsr. }
  mstep. { apply get_fold_ok. exact Hf'. }
  rewrite Hnx. apply bind_Undefined.
  destruct (decide (Some q ≠ None)) as [_|Hx]; [|now destruct Hx].
  rewrite free_fold_rec_S.
  mstep. { apply get_fold_ok. exact Hg'. }
  rewrite Hnw'.
  mstep. { eapply free_slot_ok; [discriminate|].
           rewrite !lookup_delete_ne by congruence. exact Hsnw'. }
  mstep. { apply get_fold_ok. exact Hg'. }
  rewrite Hw'.
  mstep. { eapply free_slot_ok; [discriminate|].
           rewrite !lookup_delete_ne by congruence. exact Hsw'. }
  mstep. { apply get_fold_ok. exact Hg'. }
  rewrite Hrg'.
  mstep. { eapply free_slot_ok; [discriminate|].
           rewrite !lookup_delete_ne by congruence. exact Hsrg'. }
  mstep. { apply get_fold_ok. exact Hg'. }
  rewrite Hgold. apply bind_Undefined.
  destruct (decide (Some nw ≠ None)) as [_|Hx]; [|now destruct Hx].
  unfold free_strip. cbn [strips].
  rewrite !lookup_delete_ne by congruence. now rewrite lookup_delete_eq.
Qed.

End Aliasing.

(** ** The strips a session returns *)

Section Returned.
Context {E : Env}.

(** X11 (the first strip).  Whatever the samples and whatever [smooth],
    the first call of [next_strip] after [make_fold(n, ...)] with [n]
    from 1 to 30 returns a strip that [make_fold] allocated, with all its [2^n + 1]
    entries at [start]. *)
Theorem first_strip_is_flat_at_start (n : nat) (smooth : Z) (len : Length)
    (start mean fdim : Height) (st0 : state) :
  1 <= n <= 30 -> strips_ok st0 ->
  exists p st1 r st2,
    make_fold (Z.of_nat n) smooth len start mean fdim st0 = Ok (Some p) st1 /\
    next_strip (Some p) st1 = Ok (Some r) st2 /\
    strips st0 !! r = None /\
    strips st2 !! r = Some (mkStrip (Z.of_nat n) (replicate (2 ^ n + 1) start)).
Proof.
  intros Hn Hok. destruct st0 as [hs fs k t].
  apply strips_ok_heap_ok in Hok. cbn [strips] in *.
  destruct (make_fold_shape n smooth len start mean fdim hs fs k t ltac:(lia) Hok)
    as (p & hs1 & fs1 & Hmk & Hch1 & Hnd1 & Hok1 & P1 & _ & _ & _ & _ & _ & Hst1 & Hm).
  destruct (next_strip_post None no_target n p _ hs1 fs1 k t Hch1 Hnd1 Hok1)
    as (r & hs2 & fs2 & k2 & evs & fp2 & f & f' & s & Hrun & _ & _ & _ &
        Hr & _ & _ & _ & _ & _ & _ & _ & Hf & _ & Hstep & _).
  destruct (next_strip_acct n p _ hs1 fs1 k t Hch1 Hnd1 Hok1)
    as (r' & hs2' & fs2' & k2' & t2' & Hrun' & _ & _ & _ & _ & Hsame & _).
  rewrite Hrun in Hrun'. injection Hrun' as <- <- <- <- <-.
  pose proof (Hst1 0 p f eq_refl Hf) as Hs.
  destruct (Hm 0 p f eq_refl Hf) as (Hl & _ & _ & _ & _ & _ & _ & _ & Hslots).
  destruct (decide (0 = n)) as [Hx|_]; [lia|].
  destruct Hslots as (rg & o & Hrg & Ho & _ & _ & Hso).
  replace (n - 0) with n in * by lia.
  destruct n as [|j]; [lia|].
  destruct Hstep as (_ & _ & _ & _ & _ & _ & [(_ & _ & Hold & _)|(Hx & _)]);
    [|rewrite Hs in Hx; discriminate].
  rewrite Ho in Hold. injection Hold as <-.
  exists p, (mkState hs1 fs1 k t), o, (mkState hs2 fs2 k2 (evs ++ t)).
  split; [exact Hmk|]. split; [exact Hrun|]. cbn [strips].
  split.
  { apply P1. cbn [footprint]. rewrite Hf, Hs.
    destruct (decide (START = START)); [|contradiction].
    rewrite Hrg, Ho. apply elem_of_app. left. right. left. }
  rewrite (Hsame f Hf ltac:(lia) Hs). exact Hso.
Qed.

(** Strips that have been returned are not touched by later calls. *)
Lemma next_strips_stable :
  forall cnt n p fp hs fs k t,
    chain None n p fp hs fs -> NoDup fp -> heap_ok hs ->
    exists rs st',
      next_strips cnt (Some p) (mkState hs fs k t) = Ok rs st' /\
      length rs = cnt /\ NoDup (map fst rs) /\
      (forall x sx, hs !! x = Some sx -> x ∉ fp -> strips st' !! x = Some sx) /\
      Forall (fun e => exists l, fst e = Some l /\ (l ∈ fp \/ hs !! l = None) /\
                         strips st' !! l = Some (snd e)) rs.
Proof.
  induction cnt as [|c IH]; intros n p fp hs fs k t Hch Hnd Hok.
  - exists [], (mkState hs fs k t). cbn [next_strips map length strips].
    split; [reflexivity|]. split; [reflexivity|]. split; [constructor|].
    split; [auto | constructor].
  - destruct (next_strip_post None no_target n p fp hs fs k t Hch Hnd Hok)
      as (r & hs1 & fs1 & k1 & evs1 & fp1 & f & f1 & s & Hrun1 & Hch1 & Hnd1 & Hok1 &
          Hr & _ & _ & Pr & Pfp & Frs & _).
    apply NoDup_cons in Hnd1 as [Hrfp1 Hnd1].
    destruct (IH n p fp1 hs1 fs1 k1 (evs1 ++ t) Hch1 Hnd1 Hok1)
      as (rs & st' & Hrun2 & Hlen & Hnd' & Frs' & Hall).
    assert (Hbase : forall x, x ∈ fp1 \/ hs1 !! x = None -> x ∈ fp \/ hs !! x = None).
    { intros x [Hin|Hnone]; [now apply Pfp|].
      destruct (decide (x ∈ fp)) as [Hin|Hnin]; [now left|]. right.
      destruct (hs !! x) as [sx|] eqn:Hsx; [|reflexivity].
      rewrite (Frs x sx Hsx Hnin) in Hnone. discriminate. }
    exists ((Some r, s) :: rs), st'.
    split.
    { cbn [next_strips].
      mstep. { exact Hrun1. }
      mstep. { eapply get_strip_ok. exact Hr. }
      mstep. { exact Hrun2. }
      reflexivity. }
    split; [cbn [length]; now rewrite Hlen|].
    split.
    { cbn [map fst]. apply NoDup_cons. split; [|assumption].
      intros Hin. apply list_elem_of_fmap in Hin as (e & He & Hin).
      rewrite Forall_forall in Hall. destruct (Hall e Hin) as (l & Hl & Hor & _).
      rewrite Hl in He. injection He as ->.
      destruct Hor as [Hx|Hx]; [contradiction | congruence]. }
    split.
    { intros x sx Hx Hnin. apply Frs'; [now apply Frs|].
      intros Hin. destruct (Pfp x Hin) as [Hin'|Hnone]; [contradiction | congruence]. }
    apply Forall_cons. split.
    + exists r. cbn [fst snd]. split; [reflexivity|]. split; [assumption|].
      now apply Frs'.
    + eapply Forall_impl; [exact Hall|].
      intros e (l & Hl & Hor & Hs). exists l. split; [assumption|].
      split; [now apply Hbase | assumption].
Qed.

(** X12 (returned strips).  In a session ([make_fold] with [levels] from
    0 to 30, then calls of [next_strip]) in which the caller frees
    nothing, the pointers returned by the calls of [next_strip] are
    pairwise distinct and none of them was allocated before [make_fold];
    each returned strip is still in the store at the end of the session
    with the contents it had when it was returned, and so is every strip
    that was in the store before [make_fold]. *)
Theorem returned_strips_are_stable (n : nat) (smooth : Z) (len : Length)
    (start mean fdim : Height) (cnt : nat) (st0 : state) :
  n <= 30 -> strips_ok st0 ->
  exists p st1 rs st2,
    make_fold (Z.of_nat n) smooth len start mean fdim st0 = Ok (Some p) st1 /\
    next_strips cnt (Some p) st1 = Ok rs st2 /\
    length rs = cnt /\ NoDup (map fst rs) /\
    (forall x sx, strips st0 !! x = Some sx -> strips st2 !! x = Some sx) /\
    Forall (fun e => exists l, fst e = Some l /\ strips st0 !! l = None /\
                       strips st2 !! l = Some (snd e)) rs.
Proof.
  intros Hlv Hok. destruct st0 as [hs fs k t].
  apply strips_ok_heap_ok in Hok. cbn [strips] in *.
  destruct (make_fold_shape n smooth len start mean fdim hs fs k t ltac:(lia) Hok)
    as (p & hs1 & fs1 & Hmk & Hch1 & Hnd1 & Hok1 & P1 & F1 & _).
  destruct (next_strips_stable cnt n p _ hs1 fs1 k t Hch1 Hnd1 Hok1)
    as (rs & st2 & Hrun & Hlen & Hnd & Frs & Hall).
  exists p, (mkState hs1 fs1 k t), rs, st2.
  split; [exact Hmk|]. split; [exact Hrun|]. split; [exact Hlen|]. split; [exact Hnd|].
  split.
  { intros x sx Hx.
    assert (Hnin : x ∉ footprint n fs1 p).
    { intros Hin. rewrite (P1 x Hin) in Hx. discriminate. }
    apply Frs; [|assumption]. now rewrite (F1 x Hnin). }
  eapply Forall_impl; [exact Hall|].
  intros e (l & Hl & Hor & Hs). exists l. split; [assumption|]. split; [|assumption].
  destruct Hor as [Hin|Hnone]; [now apply P1|].
  destruct (decide (l ∈ footprint n fs1 p)) as [Hin|Hnin]; [now apply P1|].
  now rewrite <- (F1 l Hnin).
Qed.

End Returned.

Lemma chain_footprint_bound fl n : forall p fp hs fs,
  chain fl n p fp hs fs -> 2 * n <= length fp <= 3 * n.
Proof.
  induction n as [|j IH]; intros p fp hs fs Hch.
  - destruct Hch as (f & _ & _ & _ & -> & _). cbn. lia.
  - destruct Hch as (f & _ & _ & _ & q & fq & _ & Hq & Hcase).
    specialize (IH q fq hs fs Hq).
    destruct Hcase as [(_ & r & o & _ & _ & -> & _)|(_ & r & w & nw & _ & _ & _ & -> & _)];
      cbn [length]; lia.
Qed.

Section Ownership.
Context {E : Env}.

(** X13 (the caller owns what it gets).  In a session on a chain of a
    level [n] from 0 to 30, whichever of the returned strips the caller
    frees right after the call that returned them, every call of [next_strip] returns, and the strips and folds that were
    in the store before [make_fold] stay as they were.  After the session
    every strip of the store is owned by the chain, or was returned and
    kept by the caller, or was in the store before [make_fold]; the chain
    owns at most [3 * n] strips. *)
Theorem freeing_returned_strips_is_safe (n : nat) (smooth : Z) (len : Length)
    (start mean fdim : Height) (frees : list bool) (st0 : state) :
  n <= 30 -> strips_ok st0 ->
  exists p st1 rs st2,
    make_fold (Z.of_nat n) smooth len start mean fdim st0 = Ok (Some p) st1 /\
    next_strips_freeing frees (Some p) st1 = Ok rs st2 /\
    length rs = length frees /\ strips_ok st2 /\
    (forall x sx, strips st0 !! x = Some sx -> strips st2 !! x = Some sx) /\
    (forall x fx, folds st0 !! x = Some fx -> folds st2 !! x = Some fx) /\
    (forall x, is_Some (strips st2 !! x) ->
       x ∈ footprint n (folds st2) p \/ x ∈ kept frees rs \/ is_Some (strips st0 !! x)) /\
    length (footprint n (folds st2) p) <= 3 * n.
Proof.
  intros Hlv Hok. destruct st0 as [hs fs k t].
  apply strips_ok_heap_ok in Hok. cbn [strips folds] in *.
  destruct (make_fold_shape n smooth len start mean fdim hs fs k t ltac:(lia) Hok)
    as (p & hs1 & fs1 & Hmk & Hch1 & Hnd1 & Hok1 & P1 & F1 & L1 & G1 & _).
  destruct (next_strips_freeing_post frees n p _ hs1 fs1 k t Hch1 Hnd1 Hok1)
    as (rs & hs2 & fs2 & k2 & evs & Hrun & Hch2 & Hnd2 & Hok2 & Hlen & Hcc & _ & _ & _ &
        Hfolds & Frs & _ & Hb).
  exists p, (mkState hs1 fs1 k t), rs, (mkState hs2 fs2 k2 (evs ++ t)).
  cbn [strips folds].
  split; [exact Hmk|]. split; [exact Hrun|]. split; [exact Hlen|].
  split; [now apply strips_ok_heap_ok|].
  split.
  { intros x sx Hx.
    assert (Hnin : x ∉ footprint n fs1 p).
    { intros Hin. rewrite (P1 x Hin) in Hx. discriminate. }
    apply Frs; [|assumption]. now rewrite (F1 x Hnin). }
  split.
  { intros x fx Hx.
    assert (Hno : forall i, nth_next fs1 i p <> Some x).
    { intros i Hi. rewrite (L1 i x Hi) in Hx. discriminate. }
    now rewrite (Hfolds x Hno), (G1 x Hno). }
  split.
  { intros x Hx. destruct (Hb x Hx) as [Hin|[Hin|[Hnin Hsome]]]; [auto | auto |].
    right. right. now rewrite <- (F1 x Hnin). }
  apply (chain_footprint_bound _ _ _ _ _ _ Hch2).
Qed.

End Ownership.

(** ** Fresh memory *)

Lemma bind_congr {A B : Type} (m m' : M A) (k k' : A -> M B) st :
  m st = m' st -> (forall a st', k a st' = k' a st') -> bind m k st = bind m' k' st.
Proof. intros Hm Hk. unfold bind. rewrite Hm. destruct (m' st); auto. Qed.

Section FreshMemory.
Context {E : Env} (ind : positive -> nat -> Height).

Local Abbreviation E' := (with_indeterminate E ind).

Lemma side_list_env count : forall p scale n0 d,
  side_list (E := E') count p scale n0 d = side_list count p scale n0 d.
Proof.
  induction count as [|c IH]; intros p scale n0 d; [reflexivity|].
  cbn [side_list]. now rewrite IH.
Qed.

Lemma mid_list_env count : forall l n r scale midscale n0 ld rd nd,
  mid_list (E := E') count l n r scale midscale n0 ld rd nd =
  mid_list count l n r scale midscale n0 ld rd nd.
Proof.
  induction count as [|c IH]; intros l n r scale midscale n0 ld rd nd; [reflexivity|].
  cbn [mid_list]. now rewrite IH.
Qed.

Lemma recalc_list_env count : forall l g r scale n0 ld rd gd,
  recalc_list (E := E') count l g r scale n0 ld rd gd =
  recalc_list count l g r scale n0 ld rd gd.
Proof.
  induction count as [|c IH]; intros l g r scale n0 ld rd gd; [reflexivity|].
  cbn [recalc_list]. now rewrite IH.
Qed.

Lemma recalc_data_env n scale n0 ld rd gd :
  recalc_data (E := E') n scale n0 ld rd gd = recalc_data n scale n0 ld rd gd.
Proof. unfold recalc_data. cbv zeta. now rewrite !recalc_list_env. Qed.

(** [mid_update] writes every entry of [new]: what [new] held before
    does not matter. *)
Lemma mid_data_fresh n scale midscale n0 ld rd nd nd' :
  length nd = 2 ^ S n + 1 -> length nd' = 2 ^ S n + 1 ->
  mid_data (E := E') n scale midscale n0 ld rd nd' = mid_data n scale midscale n0 ld rd nd.
Proof.
  intros Hn Hn'. unfold mid_data. rewrite mid_list_env.
  change (@noise E') with (@noise E).
  apply list_eq. intros i.
  destruct (decide (i = 2 * 2 ^ n)) as [->|Hne].
  - rewrite !list_lookup_insert_eq by (rewrite mid_list_length; pow_lia). reflexivity.
  - rewrite !list_lookup_insert_ne by lia.
    destruct (decide (i < 2 * 2 ^ n)) as [Hlt|Hge].
    + destruct (Nat.Even_or_Odd i) as [[c ->]|[c ->]].
      * rewrite (mid_list_even (2 ^ n) 0 0 0 scale midscale n0 ld rd nd' c) by pow_lia.
        now rewrite (mid_list_even (2 ^ n) 0 0 0 scale midscale n0 ld rd nd c) by pow_lia.
      * rewrite (mid_list_odd (2 ^ n) 0 0 0 scale midscale n0 ld rd nd' c) by pow_lia.
        now rewrite (mid_list_odd (2 ^ n) 0 0 0 scale midscale n0 ld rd nd c) by pow_lia.
    + rewrite !lookup_ge_None_2 by (rewrite mid_list_length; pow_lia). reflexivity.
Qed.

(** [double_strip] writes every entry of the strip it allocates. *)
Lemma doubled_fresh p n sd :
  length sd = 2 ^ n + 1 -> doubled (E := E') p n sd = doubled p n sd.
Proof.
  intros Hlen. apply list_eq. intros i.
  destruct (decide (i < 2 ^ S n + 1)) as [Hlt|Hge].
  - destruct (Nat.Even_or_Odd i) as [[c ->]|[c ->]].
    + rewrite !doubled_even by pow_lia. reflexivity.
    + rewrite !doubled_odd by pow_lia. reflexivity.
  - rewrite !lookup_ge_None_2 by (rewrite doubled_length; lia). reflexivity.
Qed.

Lemma set_strip_env level value st :
  set_strip (E := E') level value st = set_strip level value st.
Proof.
  destruct st as [hs fs k t].
  destruct (decide (0 <= level <= 30)%Z) as [Hl|Hl].
  - now rewrite !set_strip_ok.
  - destruct (decide (level < 0)%Z).
    + now rewrite !set_strip_neg by lia.
    + now rewrite !set_strip_big by lia.
Qed.

Lemma make_fold_rec_env fuel : forall levels smooth len start mean fdim st,
  make_fold_rec (E := E') fuel levels smooth len start mean fdim st =
  make_fold_rec fuel levels smooth len start mean fdim st.
Proof.
  induction fuel as [|fuel IH]; intros levels smooth len start mean fdim st; [reflexivity|].
  cbn [make_fold_rec].
  apply bind_congr; [|reflexivity].
  destruct (decide (levels ≠ 0%Z)); [|reflexivity].
  apply bind_congr; [apply set_strip_env|]. intros regen st1.
  apply bind_congr; [reflexivity|]. intros _ st2.
  apply bind_congr; [apply set_strip_env|]. intros old st3.
  apply bind_congr; [reflexivity|]. intros _ st4.
  apply bind_congr; [apply IH | reflexivity].
Qed.

Lemma next_strip_rec_env :
  forall n fuel p fp hs fs k t,
    n < fuel -> chain None n p fp hs fs -> NoDup fp -> heap_ok hs ->
    next_strip_rec (E := E') fuel (Some p) (mkState hs fs k t) =
    next_strip_rec fuel (Some p) (mkState hs fs k t).
Proof.
  intros n.
  induction n as [|j IH]; intros fuel p fp hs fs k t Hfuel Hch Hnd Hok;
    (destruct fuel as [|fuel]; [lia|]).
  - destruct Hch as (f & Hf & Hl & _).
    now rewrite !(next_strip_rec_level0 fuel p f hs fs k t Hf Hl).
  - pose proof Hch as (f & Hf & Hl & Hm & q & fq & Hn & Hchq & Hcase).
    destruct Hcase as [(Hst & r0 & o & Hr & Ho & -> & Sr0 & So0)
                      |(Hst & r0 & w & nw & Hr & Hw & Hnw & -> & Sr0 & Sw0 & Sn0)].
    + pose proof Sr0 as (sr & Hsr & [Lr Sr] & _ & Bj).
      pose proof So0 as (so & Hso & [Lo So] & _).
      destruct f as [lv stt sm mn sc msc fnew fwork fregen fold_ fnext]. fsimpl. subst.
      destruct sr as [lr dr], so as [lo do_]. fsimpl. subst lr lo.
      apply NoDup_cons in Hnd as [Hr0 Hnd]. apply NoDup_cons in Hnd as [Hoq Hndq].
      rewrite !not_elem_of_cons in Hr0. destruct Hr0 as (Hr0o & Hr0q).
      destruct (next_strip_rec_post None no_target j fuel q fq hs fs k
                  (EvNextStrip (Some p) :: t) ltac:(lia) Hchq Hndq Hok)
        as (nw & hs1 & fs1 & k1 & evs1 & fq' & g & g' & snw & Hrun1 & _ & _ & _ &
            Hnw & [Lnw Snw] & _ & _ & _ & Frs & Frf & _).
      destruct snw as [lnw dnw]. fsimpl. subst lnw.
      pose proof (IH fuel q fq hs fs k (EvNextStrip (Some p) :: t) ltac:(lia) Hchq Hndq Hok)
        as Hrun1'.
      rewrite Hrun1 in Hrun1'.
      assert (H1r : hs1 !! r0 = Some (mkStrip (Z.of_nat (S j)) dr)) by (now apply Frs).
      assert (H1o : hs1 !! o = Some (mkStrip (Z.of_nat (S j)) do_)) by (now apply Frs).
      assert (H1p : fs1 !! p = Some (mkFold (Z.of_nat (S j)) START sm mn sc msc fnew fwork
                                       (Some r0) (Some o) (Some q)))
        by (apply Frf; [assumption | fsimpl; lia]).
      rewrite (next_strip_rec_start_run (E := E') fuel j p hs fs k t sm mn sc msc fnew fwork
                 r0 o q nw hs1 fs1 k1 _ dr dnw do_ Hf Hrun1' H1p H1r Sr Hnw Snw H1o So Hr0o
                 Bj).
      rewrite (next_strip_rec_start_run fuel j p hs fs k t sm mn sc msc fnew fwork
                 r0 o q nw hs1 fs1 k1 _ dr dnw do_ Hf Hrun1 H1p H1r Sr Hnw Snw H1o So Hr0o
                 Bj).
      cbv zeta. rewrite !side_list_env, !recalc_data_env.
      set (side := side_list (2 ^ j) 0 sc k1 dr).
      set (w := fresh (dom (<[r0 := mkStrip (Z.of_nat (S j)) side]> hs1))).
      rewrite (mid_data_fresh j sc msc (k1 + 2 ^ j) dnw side
                 (indeterminate w <$> seq 0 (Z.to_nat (2 ^ Z.of_nat (S j) + 1))));
        [reflexivity | |];
        now rewrite length_fmap, length_seq, points_to_nat.
    + pose proof Sn0 as (sn & Hsn & [Ln Sn] & _).
      apply strip_at_bound in Sr0.
      destruct sn as [ln dn]. cbn [s_level s_d] in *. subst ln.
      assert (Hj : j < 30) by lia.
      assert (Hl0 : f_level f <> 0%Z) by lia.
      rewrite (next_strip_rec_store_eq (E := E') fuel j p nw f dn hs fs k t Hf Hl0 Hst Hnw
                 Hsn Sn Hj).
      rewrite (next_strip_rec_store_eq fuel j p nw f dn hs fs k t Hf Hl0 Hst Hnw
                 Hsn Sn Hj).
      now rewrite doubled_fresh.
Qed.

Lemma next_strips_env :
  forall cnt n p fp hs fs k t,
    chain None n p fp hs fs -> NoDup fp -> heap_ok hs ->
    next_strips (E := E') cnt (Some p) (mkState hs fs k t) =
    next_strips cnt (Some p) (mkState hs fs k t).
Proof.
  induction cnt as [|c IH]; intros n p fp hs fs k t Hch Hnd Hok; [reflexivity|].
  destruct (next_strip_post None no_target n p fp hs fs k t Hch Hnd Hok)
    as (r & hs1 & fs1 & k1 & evs1 & fp1 & f & f1 & s & Hrun1 & Hch1 & Hnd1 & Hok1 &
        Hr & _).
  apply NoDup_cons in Hnd1 as [_ Hnd1].
  assert (Hrun1' : next_strip (E := E') (Some p) (mkState hs fs k t) =
                   Ok (Some r) (mkState hs1 fs1 k1 (evs1 ++ t))).
  { rewrite <- Hrun1. unfold next_strip.
    rewrite (fuel_for_chain _ _ _ _ _ _ k t Hch).
    apply (next_strip_rec_env n (S n) p fp); auto. }
  cbn [next_strips].
  rewrite (bind_Ok _ _ _ _ _ Hrun1'), (bind_Ok _ _ _ _ _ Hrun1).
  rewrite !(bind_Ok _ _ _ _ _ (get_strip_ok hs1 fs1 k1 (evs1 ++ t) r s Hr)).
  apply bind_congr; [|reflexivity].
  now apply (IH n p fp1).
Qed.

(** X17 (fresh memory).  Every cell of a strip that [make_strip] has
    allocated is written before it is read or handed out: a session
    (including its final state) does not depend on what freshly allocated
    memory holds. *)
Theorem session_ignores_fresh_memory (levels smooth : Z) (len : Length)
    (start mean fdim : Height) (cnt : nat) (st0 : state) :
  strips_ok st0 ->
  (p <- make_fold (E := E') levels smooth len start mean fdim ;;
   next_strips (E := E') cnt p) st0 =
  (p <- make_fold levels smooth len start mean fdim ;; next_strips cnt p) st0.
Proof.
  intros Hok. destruct st0 as [hs fs k t].
  apply strips_ok_heap_ok in Hok. cbn [strips] in Hok.
  assert (Hmk : make_fold (E := E') levels smooth len start mean fdim (mkState hs fs k t) =
                make_fold levels smooth len start mean fdim (mkState hs fs k t))
    by apply make_fold_rec_env.
  destruct (decide (0 <= levels <= 30)%Z) as [Hl|Hl].
  - destruct (make_fold_post None (Z.to_nat levels) smooth len start mean fdim hs fs k t
                ltac:(lia) ltac:(discriminate) Hok)
      as (p & fp & hs1 & fs1 & Hrun & Hch & Hnd & Hok1 & _).
    rewrite Z2Nat.id in Hrun by lia.
    rewrite Hrun in Hmk.
    rewrite (bind_Ok _ _ _ _ _ Hmk), (bind_Ok _ _ _ _ _ Hrun).
    now apply (next_strips_env cnt (Z.to_nat levels) p fp).
  - assert (Hun : make_fold levels smooth len start mean fdim (mkState hs fs k t) =
                  Undefined).
    { unfold make_fold. cbn [make_fold_rec].
      destruct (decide (levels ≠ 0%Z)) as [_|Heq]; [|lia].
      apply bind_Undefined. apply bind_Undefined.
      destruct (decide (levels < 0)%Z); [apply set_strip_neg | apply set_strip_big]; lia. }
    rewrite Hun in Hmk. now rewrite (bind_Undefined _ _ _ Hmk), (bind_Undefined _ _ _ Hun).
Qed.

End FreshMemory.

(** ** Samples drawn *)

Section Draws.
Context {E : Env}.

(** X18 (samples drawn by a call).  How many samples a call of
    [next_strip] draws is fixed by the states of the folds: at any point
    of a session on a chain of a level up to 30, the call draws [call_draws] samples, that is 2 at level
    0, none in state [STORE], and in state [START] at level [L] what the
    call on the next fold draws and [2^(L-1) + (2^L + 1)] more, and again
    [2^(L-1) + 1] more with smoothing. *)
Theorem call_draw_count (n : nat) (smooth : Z) (len : Length)
    (start mean fdim : Height) (frees : list bool) (st0 : state) :
  n <= 30 -> strips_ok st0 ->
  exists p st1 rs st2 r st3,
    make_fold (Z.of_nat n) smooth len start mean fdim st0 = Ok (Some p) st1 /\
    next_strips_freeing frees (Some p) st1 = Ok rs st2 /\
    next_strip (Some p) st2 = Ok (Some r) st3 /\
    draws st3 = draws st2 + call_draws n (folds st2) p.
Proof.
  intros Hlv Hok. destruct st0 as [hs fs k t].
  apply strips_ok_heap_ok in Hok. cbn [strips] in Hok.
  destruct (make_fold_shape n smooth len start mean fdim hs fs k t ltac:(lia) Hok)
    as (p & hs1 & fs1 & Hmk & Hch1 & Hnd1 & Hok1 & _).
  destruct (next_strips_freeing_post frees n p _ hs1 fs1 k t Hch1 Hnd1 Hok1)
    as (rs & hs2 & fs2 & k2 & evs & Hrun & Hch2 & Hnd2 & Hok2 & _).
  destruct (next_strip_acct n p _ hs2 fs2 k2 (evs ++ t) Hch2 Hnd2 Hok2)
    as (r & hs3 & fs3 & k3 & t3 & Hcall & _ & _ & _ & _ & _ & Hk).
  exists p, (mkState hs1 fs1 k t), rs, (mkState hs2 fs2 k2 (evs ++ t)), r,
    (mkState hs3 fs3 k3 t3).
  auto.
Qed.

End Draws.

(** ** The size invariant *)





Section SizeInvariant.
Context {E : Env}.



End SizeInvariant.

(** ** Concrete runs *)

Lemma plain_env_finite_scales (n : nat) (len fdim : Qc) :
  finite_scales (E := plain_env) n (Fin len) (Fin fdim).
Proof. apply zero_noise_finite_scales. Qed.



(** C4, as stated, fails at level 30: [double_strip] asks [make_strip]
    for a strip of level 31, and [1 << 31] is undefined behaviour. *)
Lemma double_strip_level_30 :
  ~ (forall (n : nat) (st : state) (l : positive) (s : Strip),
       strips st !! l = Some s -> sized n s ->
       exists r st', double_strip (E := plain_env) (Some l) st = Ok (Some r) st').
Proof.
  intros H.
  destruct (H 30 (mkState (<[1%positive := mkStrip 30 (replicate (2 ^ 30 + 1) (Fin 0))]> ∅)
                    ∅ 0 [])
              1%positive (mkStrip 30 (replicate (2 ^ 30 + 1) (Fin 0))))
    as (r & st' & Hrun).
  - apply lookup_insert_eq.
  - split; [reflexivity | apply length_replicate].
  - unfold double_strip in Hrun.
    erewrite bind_Ok in Hrun by (apply get_strip_ok; apply lookup_insert_eq).
    rewrite bind_Undefined in Hrun; [discriminate|].
    apply make_strip_big. cbn [s_level]. lia.
Qed.

Lemma double_strip_law_witness :
  strips demo_state !! 1%positive = Some (mkStrip 0 [Fin 1; Fin 0]) /\
  sized 0 (mkStrip 0 [Fin 1; Fin 0]) /\ 0 < 30 /\
  exists r d' st',
    double_strip (E := plain_env) (Some 1%positive) demo_state = Ok (Some r) st' /\
    strips st' !! r = Some (mkStrip 1 d') /\ length d' = 3 /\
    d' !! 0 = Some (Fin 1) /\ d' !! 1 = Some (Fin 0) /\ d' !! 2 = Some (Fin 0).
Proof.
  assert (H1 : strips demo_state !! 1%positive = Some (mkStrip 0 [Fin 1; Fin 0]))
    by reflexivity.
  assert (H2 : sized 0 (mkStrip 0 [Fin 1; Fin 0])) by (split; reflexivity).
  assert (H3 : 0 < 30) by lia.
  split; [exact H1|]. split; [exact H2|]. split; [exact H3|].
  destruct (double_strip_law (E := plain_env) 0 demo_state 1%positive _ H1 H2 H3)
    as (r & d' & st' & Hrun & _ & Hr & Hlen & Hev & Hodd & _).
  exists r, d', st'. split; [exact Hrun|]. split; [exact Hr|]. split; [exact Hlen|].
  split; [exact (Hev 0 ltac:(simpl; lia))|].
  split; [exact (Hodd 0 ltac:(simpl; lia)) | exact (Hev 1 ltac:(simpl; lia))].
Defined.

(** C6, as stated, fails when [new] and [right] are one strip: the odd
    entry is computed from the even entry just written, not from the
    entry [right] held.  With [left = [1; 0]] and [new = right =
    [0; 0; 0]], noise 0: entry 1 becomes [(1 + 0 + 1/2 + 0) / 4 = 3/8],
    where the formula of the claim gives [(1 + 0 + 0 + 0) / 4 = 1/4]. *)
Lemma mid_update_new_is_right :
  ~ (forall (n : nat) (scale midscale : Length) (st : state) (ll ln lr : positive)
            (sl sn sr : Strip),
       strips st !! ll = Some sl -> sized n sl ->
       strips st !! ln = Some sn -> sized (S n) sn ->
       strips st !! lr = Some sr -> sized (S n) sr ->
       exists d',
         mid_update (E := plain_env) (Some ll) (Some ln) (Some lr) scale midscale st =
           Ok tt (mkState (<[ln := mkStrip (Z.of_nat (S n)) d']> (strips st)) (folds st)
                          (draws st + 2 * 2 ^ n + 1) (trace st)) /\
         forall i, i < 2 ^ n ->
           d' !! (2 * i + 1) =
             Some (midscale * @noise plain_env (draws st + 2 * i + 1) +
                   (cell (s_d sl) i + cell (s_d sl) (i + 1) +
                    cell (s_d sr) (2 * i) + cell (s_d sr) (2 * i + 2)) / four)%H).
Proof.
  intros H.
  destruct (H 0 (Fin 1) (Fin 1) demo_state 1%positive 2%positive 2%positive
              (mkStrip 0 [Fin 1; Fin 0]) (mkStrip 1 [Fin 0; Fin 0; Fin 0])
              (mkStrip 1 [Fin 0; Fin 0; Fin 0])
              eq_refl (conj eq_refl eq_refl) eq_refl (conj eq_refl eq_refl)
              eq_refl (conj eq_refl eq_refl))
    as (d' & Hrun & Hodd).
  specialize (Hodd 0 ltac:(simpl; lia)).
  vm_compute in Hrun. injection Hrun as <-.
  vm_compute in Hodd. discriminate Hodd.
Qed.

Lemma mid_update_formulas_witness :
  3%positive <> 2%positive /\ 0 <= 30 /\
  exists d',
    mid_update (E := plain_env) (Some 1%positive) (Some 2%positive) (Some 3%positive)
      (Fin 1) (Fin 1) demo_state =
      Ok tt (mkState (<[2%positive := mkStrip 1 d']> (strips demo_state))
                     (folds demo_state) 3 []) /\
    length d' = 3 /\
    d' !! 2 = Some (Fin 1 * Fin 0 + (Fin 0 + Fin 1) / two)%H.
Proof.
  assert (Hne : 3%positive <> 2%positive) by discriminate.
  assert (Hb : 0 <= 30) by lia.
  assert (H1 : strips demo_state !! 1%positive = Some (mkStrip 0 [Fin 1; Fin 0]))
    by reflexivity.
  assert (H2 : strips demo_state !! 2%positive = Some (mkStrip 1 [Fin 0; Fin 0; Fin 0]))
    by reflexivity.
  assert (H3 : strips demo_state !! 3%positive = Some (mkStrip 1 [Fin 1; Fin 0; Fin 1]))
    by reflexivity.
  split; [exact Hne|]. split; [exact Hb|].
  destruct (mid_update_formulas (E := plain_env) 0 (Fin 1) (Fin 1) demo_state 1 2 3 _ _ _
              Hne H1 (conj eq_refl eq_refl) H2 (conj eq_refl eq_refl)
              H3 (conj eq_refl eq_refl) Hb)
    as (d' & Hrun & Hlen & _ & Hlast).
  exists d'. split; [exact Hrun|]. split; [exact Hlen | exact Hlast].
Defined.

Lemma next_strip_level0_witness :
  exists l,
    next_strip (E := plain_env) (Some 1%positive) demo_state =
      Ok (Some l)
         (mkState (<[l := mkStrip 0 [(Fin 1 + Fin 1 * Fin 0)%H; (Fin 1 + Fin 1 * Fin 0)%H]]>
                     (strips demo_state))
                  (folds demo_state) 2 [EvNextStrip (Some 1%positive)]).
Proof.
  destruct (next_strip_level0 (E := plain_env) demo_state 1%positive _ eq_refl eq_refl)
    as (l & _ & Hrun).
  exists l. exact Hrun.
Defined.

Lemma level_mismatch_is_fatal_witness :
  mid_update (E := plain_env) (Some 1%positive) (Some 1%positive) (Some 2%positive)
    (Fin 1) (Fin 1) demo_state = Fatal msg_sizes 2 demo_state /\
  recalc (E := plain_env) (Some 1%positive) (Some 2%positive) (Some 3%positive)
    (Fin 1) demo_state = Fatal msg_sizes 2 demo_state.
Proof.
  assert (H1 : strips demo_state !! 1%positive = Some (mkStrip 0 [Fin 1; Fin 0]))
    by reflexivity.
  assert (H2 : strips demo_state !! 2%positive = Some (mkStrip 1 [Fin 0; Fin 0; Fin 0]))
    by reflexivity.
  assert (H3 : strips demo_state !! 3%positive = Some (mkStrip 1 [Fin 1; Fin 0; Fin 1]))
    by reflexivity.
  split.
  - apply (proj1 (level_mismatch_is_fatal (E := plain_env) demo_state 1 1 2 _ _ _
                      (Fin 1) (Fin 1) H1 H1 H2)).
    left. simpl. lia.
  - apply (proj2 (level_mismatch_is_fatal (E := plain_env) demo_state 1 2 3 _ _ _
                      (Fin 1) (Fin 1) H1 H2 H3)).
    left. simpl. lia.
Defined.



Lemma kernel_preconditions_hold_witness :
  (0 <= 2 <= 30)%Z /\ strips_ok empty_state /\
  exists p st1 rs st2 evs,
    make_fold (E := plain_env) 2 1 1%Qc 0%Qc 1%Qc (Q2Qc (1 # 2)) empty_state =
      Ok (Some p) st1 /\
    next_strips (E := plain_env) 5 (Some p) st1 = Ok rs st2 /\
    trace st2 = evs ++ trace st1 /\ Forall kernel_ok evs.
Proof.
  assert (H1 : (0 <= 2 <= 30)%Z) by lia.
  assert (H2 : strips_ok empty_state) by (intros l s Hl; discriminate Hl).
  split; [exact H1|]. split; [exact H2|].
  destruct (kernel_preconditions_hold (E := plain_env) 2 1 1%Qc 0%Qc 1%Qc (Q2Qc (1 # 2)) 5
              empty_state H1 H2)
    as (p & st1 & rs & st2 & evs & Hmk & Hrun & Htr & _ & Hev).
  exists p, st1, rs, st2, evs. auto.
Defined.

(** Two calls on a chain of level 1: the trace, oldest event first, is
    a call on the first fold, the call it makes on the next fold, the
    three kernels, and the second call on the first fold.  The whole trace
    is a window with 2 calls on the first fold; it holds 1 call on the
    next fold. *)
Lemma amortization_ratio_witness :
  (1 <= 1 <= 30)%Z /\ strips_ok empty_state /\
  exists p st1 rs st2 evs q,
    make_fold (E := plain_env) 1 1 1%Qc 0%Qc 1%Qc (Q2Qc (1 # 2)) empty_state =
      Ok (Some p) st1 /\
    next_strips (E := plain_env) 2 (Some p) st1 = Ok rs st2 /\
    trace st2 = evs ++ trace st1 /\
    reverse evs = [EvNextStrip (Some p); EvNextStrip (Some q); EvSideUpdate 1 (Some 1%Z);
                   EvMidUpdate 1 (Some 0%Z) (Some 1%Z) (Some 1%Z);
                   EvRecalc 1 (Some 1%Z) (Some 1%Z) (Some 1%Z); EvNextStrip (Some p)] /\
    calls_on (Some p) (reverse evs) = 2 * 1 /\
    calls_on (Some q) (reverse evs) = 1.
Proof.
  assert (H1 : (1 <= 1 <= 30)%Z) by lia.
  assert (H2 : strips_ok empty_state) by (intros l s Hl; discriminate Hl).
  split; [exact H1|]. split; [exact H2|].
  destruct (amortization_ratio (E := plain_env) 1 1 1%Qc 0%Qc 1%Qc (Q2Qc (1 # 2)) 2
              empty_state H1 H2)
    as (p & st1 & rs & st2 & evs & Hmk & Hrun & Htr & Hc & Hwin).
  pose proof Hmk as Hmk'. vm_compute in Hmk'. injection Hmk' as Hp Hst1.
  subst p st1.
  pose proof Hrun as Hrun'. vm_compute in Hrun'. injection Hrun' as Hrs Hst2.
  subst rs st2.
  cbn [trace] in Htr. rewrite app_nil_r in Htr. subst evs.
  eexists _, _, _, _, _, 2%positive.
  split; [exact Hmk|]. split; [exact Hrun|].
  split; [cbn [trace]; now rewrite app_nil_r|].
  split; [reflexivity|]. split; [reflexivity|].
  match type of Hwin with
  | forall i q fq, nth_next ?fs i ?p = Some q -> ?fs !! q = Some fq -> _ =>
      destruct (fs !! p) as [fq|] eqn:Hfq; [|discriminate Hfq];
      pose proof Hfq as Hfq'; vm_compute in Hfq'; injection Hfq' as Hfq';
      destruct (Hwin 0 p fq eq_refl Hfq ltac:(subst fq; cbn; lia)) as [_ Hw]
  end.
  subst fq.
  match goal with
  | |- calls_on _ ?W = _ =>
      apply (Hw [] W [] 1);
        [ cbn [app]; now rewrite app_nil_r | eexists; reflexivity
        | left; reflexivity | reflexivity ]
  end.
Defined.

Lemma start_call_keeps_old_witness :
  (1 <= 1 <= 30)%Z /\ strips_ok empty_state /\
  exists p st1 rs0 st2 f r st3 f',
    make_fold (E := plain_env) 1 0 1%Qc 0%Qc 0%Qc (Q2Qc (1 # 2)) empty_state =
      Ok (Some p) st1 /\
    next_strips (E := plain_env) 0 (Some p) st1 = Ok rs0 st2 /\
    folds st2 !! p = Some f /\ f_state f = START /\
    next_strip (E := plain_env) (Some p) st2 = Ok (Some r) st3 /\
    folds st3 !! p = Some f' /\ f_old f = Some r /\ f_old f' = Some r.
Proof.
  assert (H1 : (1 <= 1 <= 30)%Z) by lia.
  assert (H2 : strips_ok empty_state) by (intros l s Hl; discriminate Hl).
  split; [exact H1|]. split; [exact H2|].
  destruct (start_call_keeps_old (E := plain_env) 1 0 1%Qc 0%Qc 0%Qc (Q2Qc (1 # 2)) 0
              empty_state H1 H2)
    as (p & st1 & rs0 & st2 & Hmk & Hrun0 & Hall).
  pose proof Hmk as Hmk'. vm_compute in Hmk'. injection Hmk' as Hp Hst1.
  subst p st1.
  pose proof Hrun0 as Hrun0'. vm_compute in Hrun0'. injection Hrun0' as Hrs Hst2.
  subst rs0 st2.
  match type of Hall with
  | forall i q f, nth_next ?fs i ?p = Some q -> ?fs !! q = Some f -> _ =>
      destruct (fs !! p) as [f|] eqn:Hf; [|discriminate Hf];
      pose proof Hf as Hf'; vm_compute in Hf'; injection Hf' as Hf';
      destruct (Hall 0 p f eq_refl Hf ltac:(subst f; cbn; lia))
        as (r & st3 & f' & s & Hrun & Hf3 & _ & _ & _ & _ & _ & _ & _ & Hcase)
  end.
  assert (Hst : f_state f = START) by (subst f; reflexivity).
  destruct Hcase as [(_ & _ & Ho & Ho')|(Hx & _)]; [|rewrite Hst in Hx; discriminate Hx].
  eexists _, _, _, _, f, r, st3, f'.
  split; [exact Hmk|]. split; [exact Hrun0|]. split; [exact Hf|]. split; [exact Hst|].
  split; [exact Hrun|]. split; [exact Hf3|]. split; [exact Ho | exact Ho'].
Defined.

(** A store with a fold of level 1 whose state is neither [START] nor
    [STORE]. *)
Lemma next_strip_invalid_state_witness :
  next_strip (E := plain_env) (Some 1%positive)
    (mkState ∅ (<[1%positive := mkFold 1 2 0 (Fin 0) (Fin 1) (Fin 1)
                                  None None None None None]> ∅)
       0 []) =
  Fatal msg_state 3
    (mkState ∅ (<[1%positive := mkFold 1 2 0 (Fin 0) (Fin 1) (Fin 1)
                                  None None None None None]> ∅)
       0 [EvNextStrip (Some 1%positive)]).
Proof.
  exact (next_strip_invalid_state (E := plain_env)
           (mkState ∅ (<[1%positive := mkFold 1 2 0 (Fin 0) (Fin 1) (Fin 1)
                                        None None None None None]> ∅) 0 [])
           1%positive (mkFold 1 2 0 (Fin 0) (Fin 1) (Fin 1) None None None None None)
           eq_refl ltac:(discriminate) ltac:(discriminate) ltac:(discriminate)).
Defined.

Lemma set_strip_law_witness :
  2 <= 30 /\
  exists l,
    strips demo_state !! l = None /\
    set_strip (E := plain_env) 2 (Fin 1) demo_state =
      Ok (Some l)
         (mkState (<[l := mkStrip 2 [Fin 1; Fin 1; Fin 1; Fin 1; Fin 1]]> (strips demo_state))
                  (folds demo_state) 0 []).
Proof.
  assert (H : 2 <= 30) by lia.
  split; [exact H|].
  exact (set_strip_law (E := plain_env) 2 (Fin 1) demo_state H).
Defined.

Lemma negative_level_is_undefined_witness :
  (-1 < 0)%Z /\
  make_strip (E := plain_env) (-1) empty_state = Undefined /\
  make_fold (E := plain_env) (-1) 0 1%Qc 0%Qc 0%Qc (Q2Qc (1 # 2)) empty_state = Undefined.
Proof.
  assert (H : (-1 < 0)%Z) by lia.
  split; [exact H|].
  destruct (negative_level_is_undefined (E := plain_env) (-1) empty_state H)
    as (H1 & _ & H3).
  split; [exact H1 | apply H3].
Defined.

Lemma free_strip_undoes_allocation_witness :
  (p <- set_strip (E := plain_env) 2 1%Qc ;; free_strip p) demo_state = Ok tt demo_state /\
  (p <- double_strip (E := plain_env) (Some 1%positive) ;; free_strip p) demo_state =
    Ok tt demo_state /\
  free_strip None demo_state = Undefined.
Proof.
  destruct (free_strip_undoes_allocation (E := plain_env) demo_state)
    as (_ & H2 & H3 & _ & H5).
  split; [apply H2; lia|].
  split; [|exact H5].
  apply (H3 1%positive (mkStrip 0 [Fin 1; Fin 0]) 0);
    [reflexivity | split; reflexivity | lia].
Defined.

Lemma side_update_formulas_witness :
  strips demo_state !! 3%positive = Some (mkStrip 1 [Fin 1; Fin 0; Fin 1]) /\
  sized 1 (mkStrip 1 [Fin 1; Fin 0; Fin 1]) /\ 0 <= 30 /\
  exists d',
    side_update (E := plain_env) (Some 3%positive) 1%Qc demo_state =
      Ok tt (mkState (<[3%positive := mkStrip 1 d']> (strips demo_state))
                     (folds demo_state) 1 []) /\
    length d' = 3 /\
    d' !! 1 = Some (Fin 1 * Fin 0 + (Fin 1 + Fin 1) / two)%H.
Proof.
  assert (H1 : strips demo_state !! 3%positive = Some (mkStrip 1 [Fin 1; Fin 0; Fin 1]))
    by reflexivity.
  assert (H2 : sized 1 (mkStrip 1 [Fin 1; Fin 0; Fin 1])) by (split; reflexivity).
  assert (H3 : 0 <= 30) by lia.
  split; [exact H1|]. split; [exact H2|]. split; [exact H3|].
  destruct (side_update_formulas (E := plain_env) 0 1%Qc demo_state 3%positive _ H1 H2 H3)
    as (d' & Hrun & Hlen & _ & Hodd).
  exists d'. split; [exact Hrun|]. split; [exact Hlen|].
  exact (Hodd 0 ltac:(simpl; lia)).
Defined.

Lemma recalc_formulas_witness :
  3%positive <> 2%positive /\ 0 <= 30 /\
  exists d',
    recalc (E := plain_env) (Some 3%positive) (Some 2%positive) (Some 3%positive)
      1%Qc demo_state =
      Ok tt (mkState (<[2%positive := mkStrip 1 d']> (strips demo_state))
                     (folds demo_state) 2 []) /\
    length d' = 3 /\
    d' !! 0 = Some (Fin 1 * Fin 0 + (Fin 1 + Fin 0 + Fin 1) / three)%H.
Proof.
  assert (Hne : 3%positive <> 2%positive) by discriminate.
  assert (Hb : 0 <= 30) by lia.
  assert (H2 : strips demo_state !! 2%positive = Some (mkStrip 1 [Fin 0; Fin 0; Fin 0]))
    by reflexivity.
  assert (H3 : strips demo_state !! 3%positive = Some (mkStrip 1 [Fin 1; Fin 0; Fin 1]))
    by reflexivity.
  split; [exact Hne|]. split; [exact Hb|].
  destruct (recalc_formulas (E := plain_env) 0 1%Qc demo_state 3 2 3 _ _ _
              Hne Hne H3 (conj eq_refl eq_refl) H2 (conj eq_refl eq_refl)
              H3 (conj eq_refl eq_refl) Hb)
    as (d' & Hrun & Hlen & _ & H0 & _).
  exists d'. split; [exact Hrun|]. split; [exact Hlen | exact H0].
Defined.

Lemma kernels_need_level_1_witness :
  side_update (E := plain_env) (Some 1%positive) 1%Qc demo_state = Undefined /\
  recalc (E := plain_env) (Some 1%positive) (Some 1%positive) (Some 1%positive)
    1%Qc demo_state = Undefined.
Proof.
  assert (H1 : strips demo_state !! 1%positive = Some (mkStrip 0 [Fin 1; Fin 0]))
    by reflexivity.
  destruct (kernels_need_level_1 (E := plain_env) demo_state) as (Hs & Hr).
  split.
  - apply (Hs 1%positive _ (Fin 1) H1). simpl. lia.
  - apply (Hr 1%positive 1%positive 1%positive _ _ _ (Fin 1) H1 H1 H1);
      [reflexivity | reflexivity | simpl; lia].
Defined.

Lemma double_then_side_update_witness :
  strips demo_state !! 1%positive = Some (mkStrip 0 [Fin 1; Fin 0]) /\
  sized 0 (mkStrip 0 [Fin 1; Fin 0]) /\ 0 < 30 /\
  exists r d',
    strips demo_state !! r = None /\
    (p <- double_strip (E := plain_env) (Some 1%positive) ;;
     side_update (E := plain_env) p 1%Qc ;;; ret p) demo_state =
      Ok (Some r)
         (mkState (<[r := mkStrip 1 d']> (strips demo_state)) (folds demo_state) 1 []) /\
    length d' = 3 /\
    d' !! 1 = Some (Fin 1 * Fin 0 + (Fin 1 + Fin 0) / two)%H.
Proof.
  assert (H1 : strips demo_state !! 1%positive = Some (mkStrip 0 [Fin 1; Fin 0]))
    by reflexivity.
  assert (H2 : sized 0 (mkStrip 0 [Fin 1; Fin 0])) by (split; reflexivity).
  assert (H3 : 0 < 30) by lia.
  split; [exact H1|]. split; [exact H2|]. split; [exact H3|].
  destruct (double_then_side_update (E := plain_env) 0 1%Qc demo_state 1%positive _
              H1 H2 H3)
    as (r & d' & Hr & Hrun & Hlen & _ & Hodd).
  exists r, d'. split; [exact Hr|]. split; [exact Hrun|]. split; [exact Hlen|].
  exact (Hodd 0 ltac:(simpl; lia)).
Defined.

(** A fold of level 1 in state [STORE]: [new] is the strip of level 0 at
    1, [working] the strip at 3 and [regen] the strip at 2. *)
Lemma store_call_effect_witness :
  0 < 30 /\
  exists d dd,
    next_strip (E := plain_env) (Some 1%positive)
      (mkState (strips demo_state)
         (<[1%positive := mkFold 1 STORE 0 (Fin 0) (Fin 1) (Fin 1) (Some 1%positive)
                            (Some 3%positive) (Some 2%positive) None None]> ∅) 0 []) =
      Ok (Some 2%positive)
         (mkState (delete 1%positive (<[d := mkStrip 1 dd]> (strips demo_state)))
            (<[1%positive := mkFold 1 START 0 (Fin 0) (Fin 1) (Fin 1) None None (Some d)
                               (Some 3%positive) None]>
               (<[1%positive := mkFold 1 STORE 0 (Fin 0) (Fin 1) (Fin 1) (Some 1%positive)
                                  (Some 3%positive) (Some 2%positive) None None]> ∅))
            0 [EvNextStrip (Some 1%positive)]) /\
    length dd = 3.
Proof.
  set (f := mkFold 1 STORE 0 (Fin 0) (Fin 1) (Fin 1) (Some 1%positive)
              (Some 3%positive) (Some 2%positive) None None).
  set (st := mkState (strips demo_state) (<[1%positive := f]> ∅) 0 []).
  assert (Hb : 0 < 30) by lia.
  assert (Hf : folds st !! 1%positive = Some f) by reflexivity.
  assert (Hl : f_level f <> 0%Z) by discriminate.
  assert (Hs : strips st !! 1%positive = Some (mkStrip 0 [Fin 1; Fin 0])) by reflexivity.
  split; [exact Hb|].
  destruct (store_call_effect (E := plain_env) 0 st 1%positive 1%positive f
              (mkStrip 0 [Fin 1; Fin 0]) Hf Hl eq_refl eq_refl Hs (conj eq_refl eq_refl) Hb)
    as (d & dd & _ & Hrun & Hlen & _).
  exists d, dd. split; [exact Hrun | exact Hlen].
Defined.

Lemma make_fold_builds_witness :
  2 <= 30 /\ strips_ok empty_state /\
  exists p st1,
    make_fold (E := plain_env) 2 1 1%Qc 0%Qc 1%Qc (Q2Qc (1 # 2)) empty_state =
      Ok (Some p) st1 /\
    draws st1 = 0 /\ length (footprint 2 (folds st1) p) = 4.
Proof.
  assert (Hb : 2 <= 30) by lia.
  assert (H : strips_ok empty_state) by (intros l s Hl; discriminate Hl).
  split; [exact Hb|]. split; [exact H|].
  destruct (make_fold_builds (E := plain_env) 2 1 1%Qc 0%Qc 1%Qc (Q2Qc (1 # 2))
              empty_state Hb H)
    as (p & st1 & Hmk & Hd & _ & _ & _ & _ & Hlen & _).
  exists p, st1. split; [exact Hmk|]. split; [exact Hd | exact Hlen].
Defined.

Lemma first_strip_is_flat_at_start_witness :
  1 <= 1 <= 30 /\ strips_ok empty_state /\
  exists p st1 r st2,
    make_fold (E := plain_env) 1 1 1%Qc 0%Qc 1%Qc (Q2Qc (1 # 2)) empty_state =
      Ok (Some p) st1 /\
    next_strip (E := plain_env) (Some p) st1 = Ok (Some r) st2 /\
    strips st2 !! r = Some (mkStrip 1 [Fin 0; Fin 0; Fin 0]).
Proof.
  assert (H1 : 1 <= 1 <= 30) by lia.
  assert (H2 : strips_ok empty_state) by (intros l s Hl; discriminate Hl).
  split; [exact H1|]. split; [exact H2|].
  destruct (first_strip_is_flat_at_start (E := plain_env) 1 1 1%Qc 0%Qc 1%Qc (Q2Qc (1 # 2))
              empty_state H1 H2)
    as (p & st1 & r & st2 & Hmk & Hrun & _ & Hr).
  exists p, st1, r, st2. split; [exact Hmk|]. split; [exact Hrun | exact Hr].
Defined.

Lemma returned_strips_are_stable_witness :
  1 <= 30 /\ strips_ok empty_state /\
  exists p st1 rs st2,
    make_fold (E := plain_env) 1 1 1%Qc 0%Qc 1%Qc (Q2Qc (1 # 2)) empty_state =
      Ok (Some p) st1 /\
    next_strips (E := plain_env) 3 (Some p) st1 = Ok rs st2 /\
    length rs = 3 /\ NoDup (map fst rs) /\
    Forall (fun e => exists l, fst e = Some l /\ strips st2 !! l = Some (snd e)) rs.
Proof.
  assert (Hb : 1 <= 30) by lia.
  assert (H : strips_ok empty_state) by (intros l s Hl; discriminate Hl).
  split; [exact Hb|]. split; [exact H|].
  destruct (returned_strips_are_stable (E := plain_env) 1 1 1%Qc 0%Qc 1%Qc (Q2Qc (1 # 2)) 3
              empty_state Hb H)
    as (p & st1 & rs & st2 & Hmk & Hrun & Hlen & Hnd & _ & Hall).
  exists p, st1, rs, st2.
  split; [exact Hmk|]. split; [exact Hrun|]. split; [exact Hlen|]. split; [exact Hnd|].
  eapply Forall_impl; [exact Hall|].
  intros e (l & Hl & _ & Hs). exists l. split; [exact Hl | exact Hs].
Defined.

Lemma freeing_returned_strips_is_safe_witness :
  2 <= 30 /\ strips_ok empty_state /\
  exists p st1 rs st2,
    make_fold (E := plain_env) 2 1 1%Qc 0%Qc 1%Qc (Q2Qc (1 # 2)) empty_state =
      Ok (Some p) st1 /\
    next_strips_freeing (E := plain_env) [true; false; true] (Some p) st1 = Ok rs st2 /\
    length rs = 3 /\ strips_ok st2 /\
    length (footprint 2 (folds st2) p) <= 6.
Proof.
  assert (Hb : 2 <= 30) by lia.
  assert (H : strips_ok empty_state) by (intros l s Hl; discriminate Hl).
  split; [exact Hb|]. split; [exact H|].
  destruct (freeing_returned_strips_is_safe (E := plain_env) 2 1 1%Qc 0%Qc 1%Qc
              (Q2Qc (1 # 2)) [true; false; true] empty_state Hb H)
    as (p & st1 & rs & st2 & Hmk & Hrun & Hlen & Hok & _ & _ & _ & Hfp).
  exists p, st1, rs, st2.
  split; [exact Hmk|]. split; [exact Hrun|]. split; [exact Hlen|].
  split; [exact Hok | exact Hfp].
Defined.

Lemma session_frees_everything_witness :
  1 <= 30 /\ strips_ok empty_state /\
  exists p st1 rs st2 st3,
    make_fold (E := plain_env) 1 1 1%Qc 0%Qc 1%Qc (Q2Qc (1 # 2)) empty_state =
      Ok (Some p) st1 /\
    next_strips_freeing (E := plain_env) [true; true; true; true] (Some p) st1 =
      Ok rs st2 /\
    free_fold (Some p) st2 = Ok tt st3 /\
    strips st3 = ∅ /\ folds st3 = ∅.
Proof.
  assert (Hb : 1 <= 30) by lia.
  assert (H : strips_ok empty_state) by (intros l s Hl; discriminate Hl).
  split; [exact Hb|]. split; [exact H|].
  exact (session_frees_everything (E := plain_env) 1 1 1%Qc 0%Qc 1%Qc (Q2Qc (1 # 2)) 2
           empty_state Hb H).
Defined.

Lemma free_fold_after_start_call_witness :
  1 <= 1 <= 30 /\ strips_ok empty_state /\ Nat.Even (length [true; false]) /\
  exists p st1 rs st2,
    make_fold (E := plain_env) 1 1 1%Qc 0%Qc 1%Qc (Q2Qc (1 # 2)) empty_state =
      Ok (Some p) st1 /\
    next_strips_freeing (E := plain_env) [true; false] (Some p) st1 = Ok rs st2 /\
    (r <- next_strip (E := plain_env) (Some p) ;; free_strip r ;;; free_fold (Some p)) st2 =
      Undefined.
Proof.
  assert (H1 : 1 <= 1 <= 30) by lia.
  assert (H2 : strips_ok empty_state) by (intros l s Hl; discriminate Hl).
  assert (H3 : Nat.Even (length [true; false])) by (exists 1; reflexivity).
  split; [exact H1|]. split; [exact H2|]. split; [exact H3|].
  exact (free_fold_after_start_call (E := plain_env) 1 1 1%Qc 0%Qc 1%Qc (Q2Qc (1 # 2))
           [true; false] empty_state H1 H2 H3).
Defined.

Lemma free_fold_between_updates_witness :
  2 <= 2 <= 30 /\ strips_ok empty_state /\ length [false; false; false; false] = 4 * 1 /\
  exists p st1 rs st2,
    make_fold (E := plain_env) 2 1 1%Qc 0%Qc 1%Qc (Q2Qc (1 # 2)) empty_state =
      Ok (Some p) st1 /\
    next_strips_freeing (E := plain_env) [false; false; false; false] (Some p) st1 =
      Ok rs st2 /\
    (next_strip (E := plain_env) (Some p) ;;; free_fold (Some p)) st2 = Undefined.
Proof.
  assert (H1 : 2 <= 2 <= 30) by lia.
  assert (H2 : strips_ok empty_state) by (intros l s Hl; discriminate Hl).
  assert (H3 : length [false; false; false; false] = 4 * 1) by reflexivity.
  split; [exact H1|]. split; [exact H2|]. split; [exact H3|].
  exact (free_fold_between_updates (E := plain_env) 2 1 1%Qc 0%Qc 1%Qc (Q2Qc (1 # 2))
           [false; false; false; false] 1 empty_state H1 H2 H3).
Defined.

Lemma session_ignores_fresh_memory_witness :
  strips_ok empty_state /\
  (p <- make_fold (E := with_indeterminate plain_env (fun _ _ => Fin 1)) 2 1 1%Qc 0%Qc 1%Qc
          (Q2Qc (1 # 2)) ;;
   next_strips (E := with_indeterminate plain_env (fun _ _ => Fin 1)) 3 p) empty_state =
  (p <- make_fold (E := plain_env) 2 1 1%Qc 0%Qc 1%Qc (Q2Qc (1 # 2)) ;;
   next_strips (E := plain_env) 3 p) empty_state.
Proof.
  assert (H : strips_ok empty_state) by (intros l s Hl; discriminate Hl).
  split; [exact H|].
  exact (session_ignores_fresh_memory (E := plain_env) (fun _ _ => Fin 1) 2 1 1%Qc 0%Qc 1%Qc
           (Q2Qc (1 # 2)) 3 empty_state H).
Defined.

Lemma call_draw_count_witness :
  2 <= 30 /\ strips_ok empty_state /\
  exists p st1 rs st2 r st3,
    make_fold (E := plain_env) 2 1 1%Qc 0%Qc 1%Qc (Q2Qc (1 # 2)) empty_state =
      Ok (Some p) st1 /\
    next_strips_freeing (E := plain_env) [true] (Some p) st1 = Ok rs st2 /\
    next_strip (E := plain_env) (Some p) st2 = Ok (Some r) st3 /\
    draws st3 = draws st2 + call_draws 2 (folds st2) p.
Proof.
  assert (Hb : 2 <= 30) by lia.
  assert (H : strips_ok empty_state) by (intros l s Hl; discriminate Hl).
  split; [exact Hb|]. split; [exact H|].
  exact (call_draw_count (E := plain_env) 2 1 1%Qc 0%Qc 1%Qc (Q2Qc (1 # 2)) [true]
           empty_state Hb H).
Defined.
